(** * ChessDbFile: a shallow embedding of the JSON-file bank store

    The development follows [src/ChessDbFile.js].  Every method of the class
    is an [async] function; the embedding runs one call at a time, from its
    first statement to its [return]/[throw], with no other call interleaved
    at its [await]s.  The only code that really runs later is the tail of
    [scheduleWrite] (the debounce timer and the file write): it is modelled
    by explicit event-loop transitions on the store ([timer_fires],
    [write_done], [write_failed]).

    Calls in flight together are treated apart.  [createStudent] and
    [createTransaction] are given a second time with their suspension
    points ([createStudent_async], [createTransaction_async]); [alone]
    resumes one such call until it ends, [in_flight] resumes two of them
    in a given order.

    Numbers.  A JavaScript number is modelled as a rational, [NaN] or a
    signed infinity.  Every finite double is a rational, so a statement
    quantified over [number] covers every double.  Balances are sums of
    32-bit integers and are modelled in [Z]; the embedding therefore
    assumes the running sum stays inside the range where doubles are exact
    (below 2^53), which takes more than four million maximal transfers to
    leave. *)

From Stdlib Require Import ZArith QArith Lia String Ascii.
From stdpp Require Import base decidable option list.

Local Close Scope Q_scope.
Local Open Scope Z_scope.

(** ** JavaScript values *)

Module JS.

(** A string is its sequence of UTF-16 code units; [.length] counts them. *)
Definition jsstring := list N.

(** ASCII literals, for readable examples. *)
Fixpoint lit (s : string) : jsstring :=
  match s with
  | EmptyString => []
  | String c r => N_of_ascii c :: lit r
  end.

(** ECMAScript [WhiteSpace] and [LineTerminator] code points: what
    [String.prototype.trim] strips.  All of them are single code units. *)
Definition is_whitespace (c : N) : bool :=
  ((9 <=? c) && (c <=? 13) || (c =? 32) || (c =? 160) || (c =? 5760)
   || (8192 <=? c) && (c <=? 8202) || (c =? 8232) || (c =? 8233)
   || (c =? 8239) || (c =? 8287) || (c =? 12288) || (c =? 65279))%N.

Fixpoint trimStart (s : jsstring) : jsstring :=
  match s with
  | [] => []
  | c :: r => if is_whitespace c then trimStart r else s
  end.

Definition trimEnd (s : jsstring) : jsstring := rev (trimStart (rev s)).

Definition trim (s : jsstring) : jsstring := trimEnd (trimStart s).

(** Numbers. *)
Inductive number :=
| Finite (q : Q)
| NaN
| Infinity (negative : bool).

Definition of_Z (z : Z) : number := Finite (inject_Z z).

(** Truncation toward zero, the first step of [ToInt32]. *)
Definition truncate (q : Q) : Z := Z.quot (Qnum q) (Zpos (Qden q)).

(** Reduction modulo 2^32 into the signed range. *)
Definition wrap32 (n : Z) : Z := (n + 2 ^ 31) mod 2 ^ 32 - 2 ^ 31.

(** [x | 0], that is [ToInt32 x]: NaN and the infinities give 0. *)
Definition toInt32 (x : number) : Z :=
  match x with
  | Finite q => wrap32 (truncate q)
  | NaN | Infinity _ => 0
  end.

(** [a === b] on numbers (NaN differs from itself). *)
Definition strict_eq (a b : number) : bool :=
  match a, b with
  | Finite p, Finite q => Qeq_bool p q
  | Infinity m, Infinity n => Bool.eqb m n
  | _, _ => false
  end.

(** [a <= b] on numbers (false as soon as one side is NaN). *)
Definition le (a b : number) : bool :=
  match a, b with
  | NaN, _ | _, NaN => false
  | Infinity m, Infinity n => m || negb n
  | Infinity m, Finite _ => m
  | Finite _, Infinity n => negb n
  | Finite p, Finite q => Qle_bool p q
  end.

(** [a < b] on numbers. *)
Definition lt (a b : number) : bool :=
  match a, b with
  | NaN, _ | _, NaN => false
  | Infinity m, Infinity n => m && negb n
  | Infinity m, Finite _ => m
  | Finite _, Infinity n => negb n
  | Finite p, Finite q => negb (Qle_bool q p)
  end.

(** [a + b] and [- a] on numbers. *)
Definition add (a b : number) : number :=
  match a, b with
  | NaN, _ | _, NaN => NaN
  | Infinity m, Infinity n => if Bool.eqb m n then Infinity m else NaN
  | Infinity m, Finite _ => Infinity m
  | Finite _, Infinity n => Infinity n
  | Finite p, Finite q => Finite (p + q)
  end.

Definition neg (a : number) : number :=
  match a with
  | Finite p => Finite (- p)
  | NaN => NaN
  | Infinity m => Infinity (negb m)
  end.

(** The amount is (the double of) the integer [z]. *)
Definition is_integer (x : number) (z : Z) : Prop :=
  match x with
  | Finite q => Qeq q (inject_Z z)
  | _ => False
  end.

(** An account identifier as the callers pass it: the number 0 for the
    reservoir, otherwise the uuid string of an account.  Other numbers
    are allowed and simply match no account. *)
Inductive ident :=
| IdNum (n : Z)
| IdStr (s : jsstring).

#[export] Instance ident_eq_dec : EqDecision ident.
Proof. solve_decision. Defined.

End JS.
Import JS.

(** ** Data model: the object kept in [this.db] *)

(** One element of [db.students]. *)
Record student := Student {
  uuid : jsstring;
  name : jsstring;
  pash : jsstring;
  balance : Z
}.

(** One element of [db.transactions]. *)
Record transaction := Transaction {
  time : Z;
  from : ident;
  to : ident;
  amount : number;
  memo : jsstring
}.

#[export] Instance student_eq_dec : EqDecision student.
Proof. solve_decision. Defined.

Definition set_balance (b : Z) (x : student) : student :=
  {| uuid := uuid x; name := name x; pash := pash x; balance := b |}.

(** The object [this.db], which is also what [JSON.stringify(this.db)]
    captures. *)
Record db := Db {
  students : list student;
  transactions : list transaction
}.

(** ** Errors, exit codes and results *)

(** The [Error]s the class throws, one constructor per message. *)
Inductive error :=
| NameHasSpaces                  (* 'Name must not have leading/trailing spaces' *)
| NameMissing                    (* 'Name must be provided' *)
| PasswordTooShort               (* 'Password must be at least 10 characters' *)
| UserExists (n : jsstring)      (* `User "${name}" already exists.` *)
| StudentMissing (u : ident)     (* `Student with UUID '${uuid}' does not exist` *)
| SelfTransfer                   (* 'Self to self money transfer doesn\'t make sense' *)
| AmountNotInteger               (* 'Amounts must be integers' *)
| AmountNotPositive.             (* 'Amount must be greater than 0' *)

(** The source throws plain [Error] objects; the specification sorts them
    into three kinds. *)
Inductive error_kind := ValidationError | ConflictError | NotFoundError.

Definition kind_of (e : error) : error_kind :=
  match e with
  | UserExists _ => ConflictError
  | StudentMissing _ => NotFoundError
  | _ => ValidationError
  end.

(** The strings [verifyStudent] pushes on [ret.err]. *)
Inductive message :=
| NameBlank                      (* 'Name must not be blank' *)
| PasswordBlank                  (* 'Password must not be blank' *)
| DoesNotExist (n : jsstring)    (* `"${name}" does not exist` *)
| WrongPassword.                 (* `Wrong password` *)

(** The table at the end of the file.  Each entry is a comparison
    [1 < k], so each entry is a JavaScript boolean. *)
Module ERRORS.
Definition READ : bool := 1 <? 0.
Definition PARSE : bool := 1 <? 1.
Definition DUPLICATE : bool := 1 <? 2.
End ERRORS.

(** How a call ends: it returns, it throws, it stops the process with
    [process.exit(code)], or ([createStudent] only) its uuid loop is still
    running when the draws it was given are used up. *)
Inductive outcome (A : Type) :=
| Return (a : A)
| Throw (e : error)
| Exit (code : bool)
| Unfinished.
Arguments Return {A} a.
Arguments Throw {A} e.
Arguments Exit {A} code.
Arguments Unfinished {A}.

(** ** The write scheduler and the store *)

(** A promise created by [new Promise(res => finish = res)], by its
    allocation index. *)
Definition handle := nat.

Inductive io_error := WriteError (errno : Z).

Inductive settlement :=
| Unsettled
| Fulfilled
| Rejected (e : io_error).

(** Where a running [scheduleWrite] invocation is suspended: at the
    [setTimeout] await, or at the [fs.writeFile] await, which was handed
    the JSON text of the database as it was when the timer fired. *)
Inductive stage :=
| Debouncing
| Flushing (text : db).

(** A suspended invocation of [scheduleWrite] that started a cycle:
    [t_call] is the promise of the invocation itself, [t_handle] its local
    [writeP], the promise that [finish] resolves. *)
Record task := Task {
  t_call : nat;
  t_handle : handle;
  t_stage : stage
}.

(** The promise of an invocation that started a cycle: the body is still
    running, it has executed [return writeP], or an await in it threw. *)
Inductive call_state :=
| Running
| Returned (h : handle)
| Threw (e : io_error).

(** What a [scheduleWrite] call hands to its caller.  A call that finds
    [this.writeP] set executes [return this.writeP]: its result settles as
    that handle does.  A call that starts a cycle is identified by its own
    invocation. *)
Inductive completion :=
| Settles_with (h : handle)
| Own (c : nat).

Record store := Store {
  this_db : db;
  writeP : option handle;
  promises : list settlement;
  tasks : list task;
  calls : list call_state;
  bank_json : option db
}.

Definition with_db (d : db) (s : store) : store :=
  {| this_db := d; writeP := writeP s; promises := promises s;
     tasks := tasks s; calls := calls s; bank_json := bank_json s |}.

Definition settled (s : store) (h : handle) : settlement :=
  default Unsettled (promises s !! h).

(** What a caller awaiting the result of a [scheduleWrite] call sees. *)
Definition observe (s : store) (r : completion) : settlement :=
  match r with
  | Settles_with h => settled s h
  | Own c =>
      match calls s !! c with
      | Some (Returned h) => settled s h
      | Some (Threw e) => Rejected e
      | _ => Unsettled
      end
  end.

(** A small state-and-exception monad for the method bodies. *)
Definition M (A : Type) : Type := store -> outcome A * store.

Definition ret {A} (a : A) : M A := fun s => (Return a, s).
Definition throw {A} (e : error) : M A := fun s => (Throw e, s).
Definition process_exit {A} (code : bool) : M A := fun s => (Exit code, s).

Definition bind {A B} (m : M A) (k : A -> M B) : M B :=
  fun s =>
    match m s with
    | (Return a, s') => k a s'
    | (Throw e, s') => (Throw e, s')
    | (Exit c, s') => (Exit c, s')
    | (Unfinished, s') => (Unfinished, s')
    end.

Notation "x <- m ;; k" := (bind m (fun x => k))
  (at level 100, m at next level, right associativity).
Notation "m ;;; k" := (bind m (fun _ => k))
  (at level 100, right associativity).

Definition get_students : M (list student) :=
  fun s => (Return (students (this_db s)), s).
Definition get_transactions : M (list transaction) :=
  fun s => (Return (transactions (this_db s)), s).

(** [this.db.students.push(x)] *)
Definition push_student (x : student) : M unit :=
  fun s => (Return tt,
            with_db (Db (students (this_db s) ++ [x]) (transactions (this_db s))) s).

(** [this.db.transactions.push(tx)] *)
Definition push_transaction (tx : transaction) : M unit :=
  fun s => (Return tt,
            with_db (Db (students (this_db s)) (transactions (this_db s) ++ [tx])) s).

(** [student.balance = b] through the live reference [r], an index into
    [db.students] (the array only grows, so indices are stable). *)
Definition write_balance (r : nat) (b : Z) : M unit :=
  fun s => (Return tt,
            with_db (Db (alter (set_balance b) r (students (this_db s)))
                        (transactions (this_db s))) s).

(** ** The methods *)

(** The part of [scheduleWrite] that runs inside the caller's turn: up to
    [return this.writeP], or up to the first [await]. *)
Definition scheduleWrite : M completion :=
  fun s =>
    match writeP s with
    | Some h => (Return (Settles_with h), s)
    | None =>
        let h := length (promises s) in
        let c := length (calls s) in
        (Return (Own c),
         {| this_db := this_db s;
            writeP := Some h;
            promises := promises s ++ [Unsettled];
            tasks := tasks s ++ [Task c h Debouncing];
            calls := calls s ++ [Running];
            bank_json := bank_json s |})
    end.

(** The timer of task [i] elapses: the body resumes, serialises
    [this.db] and calls [fs.writeFile]. *)
Definition timer_fires (i : nat) (s : store) : option store :=
  match tasks s !! i with
  | Some (Task c h Debouncing) =>
      Some {| this_db := this_db s; writeP := writeP s; promises := promises s;
              tasks := <[i := Task c h (Flushing (this_db s))]> (tasks s);
              calls := calls s; bank_json := bank_json s |}
  | _ => None
  end.

(** [fs.writeFile] of task [i] succeeds: the body resumes, executes
    [this.writeP = null; finish(); return writeP] and ends. *)
Definition write_done (i : nat) (s : store) : option store :=
  match tasks s !! i with
  | Some (Task c h (Flushing text)) =>
      Some {| this_db := this_db s; writeP := None;
              promises := <[h := Fulfilled]> (promises s);
              tasks := delete i (tasks s);
              calls := <[c := Returned h]> (calls s);
              bank_json := Some text |}
  | _ => None
  end.

(** [fs.writeFile] of task [i] rejects with [e]: the [await] throws, no
    handler is in scope, and the invocation ends with its own promise
    rejected.  The two statements after the [await] are not executed.
    (The file is taken to be left as it was.) *)
Definition write_failed (i : nat) (e : io_error) (s : store) : option store :=
  match tasks s !! i with
  | Some (Task c h (Flushing text)) =>
      Some {| this_db := this_db s; writeP := writeP s; promises := promises s;
              tasks := delete i (tasks s);
              calls := <[c := Threw e]> (calls s);
              bank_json := bank_json s |}
  | _ => None
  end.

(** [arr.filter(p)] keeping references: the indices of the matching
    elements, in order. *)
Fixpoint refs_from {A} (P : A -> Prop) `{!∀ x, Decision (P x)}
    (i : nat) (l : list A) : list nat :=
  match l with
  | [] => []
  | x :: r => if decide (P x) then i :: refs_from P (S i) r
              else refs_from P (S i) r
  end.

Definition filter_refs {A} (P : A -> Prop) `{!∀ x, Decision (P x)}
    (l : list A) : list nat := refs_from P 0 l.

(** [getStudentCheck(students, identifier, true)]: the live reference. *)
Definition getStudentCheck (found : list nat) : M (option nat) :=
  if (1 <? length found)%nat then process_exit ERRORS.DUPLICATE
  else ret (if (length found =? 1)%nat then head found else None).

(** [getStudentByUUID(uuid, true)] *)
Definition getStudentByUUID (u : ident) : M (option nat) :=
  l <- get_students ;;
  getStudentCheck (filter_refs (fun x => IdStr (uuid x) = u) l).

(** [getStudentByName(name, true)] *)
Definition getStudentByName (n : jsstring) : M (option nat) :=
  l <- get_students ;;
  getStudentCheck (filter_refs (fun x => name x = n) l).

Definition nullStudentError {A} (u : ident) : M A := throw (StudentMissing u).

(** The callback of [reduce] in [getStudentBalance]. *)
Definition reducer (u : ident) (bal : Z) (tx : transaction) : Z :=
  bal + toInt32 (amount tx)
        * (Z.b2z (bool_decide (to tx = u)) - Z.b2z (bool_decide (from tx = u))).

Definition replay (u : ident) (log : list transaction) : Z :=
  foldl (reducer u) 0 log.

Definition getStudentBalance (u : ident) (recalc : bool) : M Z :=
  if decide (u = IdNum 0) then ret 10000 else
  r <- getStudentByUUID u ;;
  match r with
  | None => nullStudentError u
  | Some i =>
      (if recalc then
         log <- get_transactions ;;
         write_balance i (replay u log) ;;;
         scheduleWrite ;;; ret tt
       else ret tt) ;;;
      l <- get_students ;;
      ret (default 0 (balance <$> l !! i))
  end.

(** [createTransaction(from, to, amount, memo)]; [now] is the value of
    [Date.now()].  [None] is the [null] result. *)
Definition createTransaction (now : Z) (f t : ident) (a : number)
    (m : jsstring) : M (option (Z * Z)) :=
  if decide (f = t) then throw SelfTransfer else
  if negb (strict_eq a (of_Z (toInt32 a))) then throw AmountNotInteger else
  if le a (of_Z 0) then throw AmountNotPositive else
  declined <- (if decide (f = IdNum 0) then ret false   (* money is deposited *)
               else b <- getStudentBalance f true ;; ret (lt (of_Z b) a)) ;;
  if declined : bool then ret None else
  (* [if (to === 0) { }] is an empty statement; the lookup follows it *)
  r <- getStudentByUUID t ;;
  (if r is None then nullStudentError t else ret tt) ;;;
  push_transaction (Transaction now f t a m) ;;;
  bf <- getStudentBalance f true ;;
  bt <- getStudentBalance t true ;;
  scheduleWrite ;;;
  ret (Some (bf, bt)).

(** The object [verifyStudent] builds: [student] is [false] ([None]) or an
    account, [err] the list of messages. *)
Record verify_result := VerifyResult {
  vr_student : option student;
  vr_err : list message
}.

(** What the constructor finds at [bank.json]. *)
Inductive file :=
| Absent
| Unreadable
| Text (s : jsstring).

(** The object [JSON.parse] returns, as far as the constructor looks at it:
    each collection may be missing. *)
Record parsed := Parsed {
  p_students : option (list student);
  p_transactions : option (list transaction)
}.

Section Collaborators.

(** [bcrypt.hash(password, rounds)] and [bcrypt.compare(password, hash)],
    and [JSON.parse], which fails on malformed text. *)
Variable bcrypt_hash : jsstring -> Z -> jsstring.
Variable bcrypt_compare : jsstring -> jsstring -> bool.
Variable JSON_parse : jsstring -> option parsed.

(** The constructor, after [lockFile.lockSync] has succeeded. *)
Definition constructor (f : file) : outcome store :=
  let read : outcome jsstring :=
    match f with
    | Text s => Return (trim s)
    | Unreadable => Exit ERRORS.READ
    | Absent => Return []
    end in
  match read with
  | Return bankStr =>
      let loaded : outcome parsed :=
        if bool_decide (head bankStr = Some 123%N) then   (* "{" *)
          match JSON_parse bankStr with
          | Some o => Return o
          | None => Exit ERRORS.PARSE
          end
        else if negb (length bankStr =? 0)%nat then Exit ERRORS.PARSE
        else Return (Parsed None None) in
      match loaded with
      | Return o =>
          Return {| this_db := Db (default [] (p_students o))
                                  (default [] (p_transactions o));
                    writeP := None; promises := []; tasks := [];
                    calls := []; bank_json := None |}
      | Throw e => Throw e
      | Exit c => Exit c
      | Unfinished => Unfinished
      end
  | Throw e => Throw e
  | Exit c => Exit c
  | Unfinished => Unfinished
  end.

(** The [do ... while] loop around [uuidv4()]: [draws] lists the values
    the generator returns, in order. *)
Fixpoint uuid_loop (draws : list jsstring) (l : list student)
    : option jsstring :=
  match draws with
  | [] => None
  | u :: rest =>
      if negb (length (filter (fun x => uuid x = u) l) =? 0)%nat
      then uuid_loop rest l
      else Some u
  end.

Definition createStudent (draws : list jsstring) (n p : jsstring)
    : M jsstring :=
  if negb (bool_decide (trim n = n)) then throw NameHasSpaces else
  if (length n =? 0)%nat then throw NameMissing else
  if (length p <? 10)%nat then throw PasswordTooShort else
  l <- get_students ;;
  if negb (length (filter (fun x => name x = n) l) =? 0)%nat
  then throw (UserExists n) else
  match uuid_loop draws l with
  | None => fun s => (Unfinished, s)
  | Some u =>
      push_student (Student u n (bcrypt_hash p 10) 0) ;;;
      scheduleWrite ;;;
      ret u
  end.

(** [None] is [undefined]. *)
Definition verifyStudent (n p : jsstring) : M (option verify_result) :=
  let err := (if (length n =? 0)%nat then [NameBlank] else [])
             ++ (if (length p =? 0)%nat then [PasswordBlank] else []) in
  if negb (length err =? 0)%nat then ret (Some (VerifyResult None err)) else
  l <- get_students ;;
  let found := filter (fun x => name x = n) l in
  if (1 <? length found)%nat then process_exit ERRORS.DUPLICATE else
  match found with
  | [] => ret (Some (VerifyResult None (err ++ [DoesNotExist n])))
  | x :: _ =>
      if negb (bcrypt_compare p (pash x))
      then ret (Some (VerifyResult None (err ++ [WrongPassword])))
      else
        (* [ret.student = students[0];] is the last statement: the
           function ends without a [return] *)
        ret None
  end.

End Collaborators.

(** ** The store as a state machine *)

(** What can happen to a store: a caller invokes a method, or the event
    loop resumes a suspended [scheduleWrite]. *)
Inductive action :=
| CallCreateStudent (draws : list jsstring) (n p : jsstring)
| CallVerifyStudent (n p : jsstring)
| CallGetStudentBalance (u : ident) (recalc : bool)
| CallCreateTransaction (now : Z) (f t : ident) (a : number) (m : jsstring)
| CallScheduleWrite
| TimerFires (i : nat)
| WriteDone (i : nat)
| WriteFailed (i : nat) (e : io_error).

(** The store a call leaves behind; none when the process has exited or
    the call is still in its uuid loop. *)
Definition after {A} (r : outcome A * store) : option store :=
  match r.1 with
  | Return _ | Throw _ => Some r.2
  | Exit _ | Unfinished => None
  end.

Section Machine.

Variable bcrypt_hash : jsstring -> Z -> jsstring.
Variable bcrypt_compare : jsstring -> jsstring -> bool.

(** One transition of the store.  A method call is taken in one piece,
    from its first statement to its end: the runs built from [step] are
    the executions in which each call has ended before the next is made.
    For calls that are in flight together see [in_flight] below. *)
Definition step (a : action) (s : store) : option store :=
  match a with
  | CallCreateStudent draws n p => after (createStudent bcrypt_hash draws n p s)
  | CallVerifyStudent n p => after (verifyStudent bcrypt_compare n p s)
  | CallGetStudentBalance u recalc => after (getStudentBalance u recalc s)
  | CallCreateTransaction now f t a m => after (createTransaction now f t a m s)
  | CallScheduleWrite => after (scheduleWrite s)
  | TimerFires i => timer_fires i s
  | WriteDone i => write_done i s
  | WriteFailed i e => write_failed i e s
  end.

Fixpoint run (l : list action) (s : store) : option store :=
  match l with
  | [] => Some s
  | a :: r => s' ← step a s; run r s'
  end.

End Machine.

(** The store the constructor returns for a database [d]. *)
Definition boot (d : db) : store :=
  {| this_db := d; writeP := None; promises := []; tasks := [];
     calls := []; bank_json := None |}.

(** ** Properties the statements are phrased with *)

(** The balance as the specification words it: start from 0, add the
    amount of every transfer with [to == id], subtract the amount of every
    transfer with [from == id]. *)
Definition ledger_step (u : ident) (bal : number) (tx : transaction) : number :=
  let bal := if decide (to tx = u) then add bal (amount tx) else bal in
  if decide (from tx = u) then add bal (neg (amount tx)) else bal.

Definition ledger_balance (u : ident) (log : list transaction) : number :=
  foldl (ledger_step u) (of_Z 0) log.

(** The store [getStudentBalance(u, true)] leaves when the account of [u]
    is [db.students[i]]: the cache is overwritten and a write requested. *)
Definition recalculated (u : ident) (i : nat) (s : store) : store :=
  (scheduleWrite
     (with_db (Db (alter (set_balance (replay u (transactions (this_db s)))) i
                         (students (this_db s)))
                  (transactions (this_db s))) s)).2.

(** Exactly one stored account has uuid [uu]; it sits at index [i]. *)
Definition the_account (l : list student) (uu : jsstring) (i : nat) : Prop :=
  (exists x, l !! i = Some x /\ uuid x = uu)
  /\ (forall j y, l !! j = Some y -> uuid y = uu -> j = i).

(** The amount is an integer of the signed 32-bit range. *)
Definition int32_amount (a : number) : Prop :=
  exists z, - 2 ^ 31 <= z < 2 ^ 31 /\ is_integer a z.

(** [s] begins or ends with a white-space code unit. *)
Definition padded (s : jsstring) : Prop :=
  (exists c r, s = c :: r /\ is_whitespace c = true)
  \/ (exists c r, s = r ++ [c] /\ is_whitespace c = true).

(** The scheduler part of the store is consistent: at most one suspended
    [scheduleWrite], and it is the one [this.writeP] belongs to. *)
Definition single_slot (s : store) : Prop :=
  match tasks s with
  | [] => True
  | [t] => writeP s = Some (t_handle t)
           /\ calls s !! t_call t = Some Running
  | _ => False
  end
  /\ (forall h, writeP s = Some h -> promises s !! h = Some Unsettled).

(** The amount is an integer between 1 and 2^31 - 1. *)
Definition accepted_amount (a : number) : Prop :=
  exists z, 1 <= z <= 2 ^ 31 - 1 /\ is_integer a z.

(** A write has failed: [this.writeP] still holds the handle [h] of the
    cycle, nothing is suspended and [h] has not been settled. *)
Definition wedged (h : handle) (s : store) : Prop :=
  writeP s = Some h /\ tasks s = [] /\ settled s h = Unsettled.

(** Every logged transfer has an accepted amount and distinct parties. *)
Definition logged_amounts_accepted (s : store) : Prop :=
  Forall (fun tx => accepted_amount (amount tx) /\ from tx <> to tx)
         (transactions (this_db s)).

(** ** Reasoning about method bodies *)

(** If [P] holds before [m] runs, [Q] holds of the store it leaves,
    however it ends. *)
Definition hoare {A} (P : store -> Prop) (m : M A) (Q : store -> Prop) : Prop :=
  forall s, P s -> Q (m s).2.

(** [I] does not depend on the account list. *)
Definition ignores_students (I : store -> Prop) : Prop :=
  forall s l, I s -> I (with_db (Db l (transactions (this_db s))) s).

(** [I] survives a [scheduleWrite] call. *)
Definition ignores_schedule (I : store -> Prop) : Prop :=
  forall s, I s -> I (scheduleWrite s).2.

(** ** Concrete stores used in examples *)

Module Demo.

Definition hash (p : jsstring) (rounds : Z) : jsstring := 36%N :: p.
Definition compare (p h : jsstring) : bool := bool_decide (h = 36%N :: p).

Definition cortana_id : jsstring := lit "c0de".
Definition zangetsu_id : jsstring := lit "2a95".

Definition cortana (b : Z) : student :=
  Student cortana_id (lit "Cortana") (hash (lit "GuiltySpark343") 10) b.
Definition zangetsu (b : Z) : student :=
  Student zangetsu_id (lit "Zangetsu") (hash (lit "GetsugaTensho") 10) b.

(** Both accounts, after a deposit of 20 to Cortana. *)
Definition funded : store :=
  boot (Db [cortana 20; zangetsu 0]
           [Transaction 1 (IdNum 0) (IdStr cortana_id) (of_Z 20) []]).

(** A database whose log holds one deposit of 2^31. *)
Definition big_deposit : store :=
  boot (Db [cortana 0]
           [Transaction 1 (IdNum 0) (IdStr cortana_id) (of_Z 2147483648) []]).

(** A database loaded with a cached balance that the (empty) log does
    not support. *)
Definition stale : store := boot (Db [cortana 7; zangetsu 0] []).

(** One caller has started a write cycle, a second one has joined it,
    the timer has fired and the write is in progress. *)
Definition flushing : store :=
  {| this_db := Db [cortana 0] []; writeP := Some 0%nat;
     promises := [Unsettled];
     tasks := [Task 0 0%nat (Flushing (Db [cortana 0] []))];
     calls := [Running]; bank_json := None |}.

End Demo.

(** ** The remaining methods and the seeding script *)

(** [breakRefs(obj)], that is [JSON.parse(JSON.stringify(obj))].  On the
    plain data the database holds (strings and integers) the round trip
    builds an equal value in a fresh object; values carry no identity
    here, so the copy is the value. *)
Definition breakRefs {A : Type} (x : A) : A := x.

Definition getAllStudents : M (list student) :=
  l <- get_students ;; ret (breakRefs l).

(** The [_ref = false] branch of [getStudentCheck]: the one match is
    copied. *)
Definition copy_of (r : option nat) : M (option student) :=
  l <- get_students ;; ret (i ← r; breakRefs <$> l !! i).

(** [getStudentByUUID(uuid)], with [_ref] left at [false]. *)
Definition getStudentByUUID_copy (u : ident) : M (option student) :=
  r <- getStudentByUUID u ;; copy_of r.

(** [getStudentByName(name)], with [_ref] left at [false]. *)
Definition getStudentByName_copy (n : jsstring) : M (option student) :=
  r <- getStudentByName n ;; copy_of r.

(** The body of [src/mock_bank_data_init.js] after [new ChessDbFile()]:
    [draws1] and [draws2] are what [uuidv4()] returns during the two
    [createStudent] calls, [now1] and [now2] the two values of
    [Date.now()]. *)
Definition mock_bank_data_init (hash : jsstring -> Z -> jsstring)
    (draws1 draws2 : list jsstring) (now1 now2 : Z) : M unit :=
  cortana <- createStudent hash draws1 (lit "Cortana") (lit "GuiltySpark343") ;;
  zangetsu <- createStudent hash draws2 (lit "Zangetsu") (lit "GetsugaTensho") ;;
  createTransaction now1 (IdNum 0) (IdStr cortana) (of_Z 20) [] ;;;
  createTransaction now2 (IdStr cortana) (IdStr zangetsu) (of_Z 5) [] ;;;
  ret tt.

(** ** Properties of the database *)

(** No stored account has the identifier [u]. *)
Definition absent (l : list student) (u : ident) : Prop :=
  forall x, x ∈ l -> IdStr (uuid x) <> u.

(** Some stored account has the identifier [u]. *)
Definition known (l : list student) (u : ident) : Prop :=
  exists x, x ∈ l /\ IdStr (uuid x) = u.

(** Account uuids are pairwise distinct, and so are account names. *)
Definition unique_accounts (d : db) : Prop :=
  NoDup (uuid <$> students d) /\ NoDup (name <$> students d).

(** Every logged transfer has an accepted amount and distinct parties,
    goes to a stored account and comes from the reservoir or from a stored
    account. *)
Definition sound_log (d : db) : Prop :=
  Forall (fun tx => accepted_amount (amount tx) /\ from tx <> to tx
                    /\ (from tx = IdNum 0 \/ known (students d) (from tx))
                    /\ known (students d) (to tx))
         (transactions d).

(** Every cached balance is the replay of the log. *)
Definition cache_current (d : db) : Prop :=
  forall x, x ∈ students d ->
    balance x = replay (IdStr (uuid x)) (transactions d).

(** No identifier but the reservoir's has a negative replayed balance. *)
Definition solvent (d : db) : Prop :=
  forall u, u <> IdNum 0 -> 0 <= replay u (transactions d).

(** The sum of the cached balances. *)
Definition total_cached (l : list student) : Z :=
  foldr (fun x acc => balance x + acc) 0 l.

(** The sum of the logged deposits, as the replay reads their amounts. *)
Definition deposited (log : list transaction) : Z :=
  foldr (fun tx acc =>
           (if decide (from tx = IdNum 0) then toInt32 (amount tx) else 0) + acc)
        0 log.

(** The cached balances add up to what was deposited. *)
Definition balanced (d : db) : Prop :=
  total_cached (students d) = deposited (transactions d).

(** The account list [l'] continues [l]: the accounts of [l] are still
    there, at the same index, with the same uuid, name and hash. *)
Definition continues (l l' : list student) : Prop :=
  forall i x, l !! i = Some x ->
    exists y, l' !! i = Some y
              /\ uuid y = uuid x /\ name y = name x /\ pash y = pash x.

(** The ways a method call changes [this.db]. *)
Inductive db_step (d : db) : db -> Prop :=
| db_same : db_step d d
| db_create (x : student) :
    absent (students d) (IdStr (uuid x)) ->
    (forall y, y ∈ students d -> name y <> name x) ->
    balance x = 0 ->
    db_step d (Db (students d ++ [x]) (transactions d))
| db_recalc (uu : jsstring) (i : nat) :
    the_account (students d) uu i ->
    db_step d (Db (alter (set_balance (replay (IdStr uu) (transactions d))) i
                         (students d))
                  (transactions d))
| db_deposit (tx : transaction) (tu : jsstring) (j : nat) :
    from tx = IdNum 0 -> to tx = IdStr tu ->
    the_account (students d) tu j ->
    accepted_amount (amount tx) ->
    db_step d (Db (alter (set_balance
                            (replay (IdStr tu) (transactions d ++ [tx]))) j
                         (students d))
                  (transactions d ++ [tx]))
| db_transfer (tx : transaction) (fu tu : jsstring) (i j : nat) (z : Z) :
    from tx = IdStr fu -> to tx = IdStr tu -> fu <> tu ->
    the_account (students d) fu i -> the_account (students d) tu j ->
    is_integer (amount tx) z -> 1 <= z <= 2 ^ 31 - 1 ->
    z <= replay (IdStr fu) (transactions d) ->
    db_step d (Db (alter (set_balance
                            (replay (IdStr tu) (transactions d ++ [tx]))) j
                    (alter (set_balance
                              (replay (IdStr fu) (transactions d ++ [tx]))) i
                       (students d)))
                  (transactions d ++ [tx])).

(** The action is a method call, not an event of the loop. *)
Definition is_call (a : action) : bool :=
  match a with
  | TimerFires _ | WriteDone _ | WriteFailed _ _ => false
  | _ => true
  end.

(** The store after [this.db.transactions.push(tx)]. *)
Definition pushed (tx : transaction) (s : store) : store :=
  (push_transaction tx s).2.

(** The store after a successful [createStudent] has pushed [x] and
    requested a write. *)
Definition created (x : student) (s : store) : store :=
  (scheduleWrite
     (with_db (Db (students (this_db s) ++ [x]) (transactions (this_db s))) s)).2.

(** Every way a call of [createTransaction] can go. *)
Inductive transfer_case (now : Z) (f t : ident) (a : number) (m : jsstring)
    (s : store) : outcome (option (Z * Z)) -> store -> Prop :=
| case_invalid (e : error) :
    kind_of e = ValidationError ->
    transfer_case now f t a m s (Throw e) s
| case_no_sender :
    f <> IdNum 0 -> absent (students (this_db s)) f ->
    transfer_case now f t a m s (Throw (StudentMissing f)) s
| case_duplicate (s' : store) :
    ~ NoDup (uuid <$> students (this_db s)) ->
    s' = s \/ (exists fu i, f = IdStr fu
                           /\ the_account (students (this_db s)) fu i
                           /\ s' = recalculated f i s) ->
    transfer_case now f t a m s (Exit ERRORS.DUPLICATE) s'
| case_declined (fu : jsstring) (i : nat) (z : Z) :
    f = IdStr fu -> the_account (students (this_db s)) fu i ->
    is_integer a z -> replay f (transactions (this_db s)) < z ->
    transfer_case now f t a m s (Return None) (recalculated f i s)
| case_no_receiver_deposit :
    f = IdNum 0 -> absent (students (this_db s)) t ->
    transfer_case now f t a m s (Throw (StudentMissing t)) s
| case_no_receiver (fu : jsstring) (i : nat) :
    f = IdStr fu -> the_account (students (this_db s)) fu i ->
    absent (students (this_db s)) t ->
    transfer_case now f t a m s (Throw (StudentMissing t)) (recalculated f i s)
| case_deposit (tu : jsstring) (j : nat) :
    f = IdNum 0 -> t = IdStr tu -> the_account (students (this_db s)) tu j ->
    accepted_amount a ->
    let tx := Transaction now f t a m in
    transfer_case now f t a m s
      (Return (Some (10000, replay t (transactions (this_db s) ++ [tx]))))
      (recalculated t j (pushed tx s))
| case_transfer (fu tu : jsstring) (i j : nat) (z : Z) :
    f = IdStr fu -> t = IdStr tu -> fu <> tu ->
    the_account (students (this_db s)) fu i ->
    the_account (students (this_db s)) tu j ->
    is_integer a z -> 1 <= z <= 2 ^ 31 - 1 ->
    z <= replay f (transactions (this_db s)) ->
    let tx := Transaction now f t a m in
    let log' := transactions (this_db s) ++ [tx] in
    transfer_case now f t a m s
      (Return (Some (replay f log', replay t log')))
      (recalculated t j (recalculated f i (pushed tx (recalculated f i s)))).


Module Demo2.

(** Two accounts are opened, 20 is deposited, 5 is passed on and a transfer
    of 100 is declined, while the first write cycle runs its course. *)
Definition session : list action :=
  [CallCreateStudent [Demo.cortana_id] (lit "Cortana") (lit "GuiltySpark343");
   CallCreateStudent [Demo.cortana_id; Demo.zangetsu_id]
     (lit "Zangetsu") (lit "GetsugaTensho");
   CallCreateTransaction 1 (IdNum 0) (IdStr Demo.cortana_id) (of_Z 20) [];
   TimerFires 0;
   CallCreateTransaction 2 (IdStr Demo.cortana_id) (IdStr Demo.zangetsu_id)
     (of_Z 5) [];
   WriteDone 0;
   CallCreateTransaction 3 (IdStr Demo.cortana_id) (IdStr Demo.zangetsu_id)
     (of_Z 100) []].


End Demo2.

(** Every error the computation [m] can throw satisfies [P]. *)
Definition throws_only {A} (P : error -> Prop) (m : M A) : Prop :=
  forall s e, (m s).1 = Throw e -> P e.

(** ** Calls in flight together *)

(** An [async] call as the event loop sees it: it has ended, or it is
    suspended at an [await], and resuming it runs it up to its next
    [await] or to its end. *)
#[warnings="-register-all"] Inductive async (A : Type) : Type :=
| Ended (r : outcome A)
| Awaiting (resume : store -> async A * store).
Arguments Ended {A} r.
Arguments Awaiting {A} resume.

(** What invoking an async method does: the body runs up to its first
    [await]. *)
Definition started (A : Type) : Type := store -> async A * store.

(** The code [m] takes the call to its end. *)
Definition ends {A} (m : M A) : started A :=
  fun s => (Ended (m s).1, (m s).2).

(** The code [m] takes the call to an [await]; [k] is what the call does
    when it is resumed.  A throw or an exit in [m] ends the call. *)
Definition awaits {A B} (m : M A) (k : A -> started B) : started B :=
  fun s =>
    match m s with
    | (Return a, s') => (Awaiting (k a), s')
    | (Throw e, s') => (Ended (Throw e), s')
    | (Exit c, s') => (Ended (Exit c), s')
    | (Unfinished, s') => (Ended Unfinished, s')
    end.

(** [getStudentBalance] from its resumption after
    [await this.getStudentByUUID(uuid, true)] on; [r] is what the lookup
    found. *)
Definition getStudentBalance_resumed (u : ident) (recalc : bool)
    (r : option nat) : M Z :=
  match r with
  | None => nullStudentError u
  | Some i =>
      (if recalc then
         log <- get_transactions ;;
         write_balance i (replay u log) ;;;
         scheduleWrite ;;; ret tt
       else ret tt) ;;;
      l <- get_students ;;
      ret (default 0 (balance <$> l !! i))
  end.

(** What a call [getStudentBalance(u, true)] does in its caller's turn:
    the reservoir is answered at once, otherwise the account is looked up
    and the call is suspended. *)
Definition balance_begin (u : ident) : M (Z + option nat) :=
  if decide (u = IdNum 0) then ret (inl 10000)
  else r <- getStudentByUUID u ;; ret (inr r).

(** What it does when it is resumed. *)
Definition balance_end (u : ident) (x : Z + option nat) : M Z :=
  match x with
  | inl b => ret b
  | inr r => getStudentBalance_resumed u true r
  end.

(** [createTransaction] with its suspension points, last stage first.

    Lines 153 and 154: both balances are known; the write is requested and
    the pair is returned. *)
Definition transfer_returns (bf bt : Z) : started (option (Z * Z)) :=
  ends (scheduleWrite ;;; ret (Some (bf, bt))).

(** The second [getStudentBalance] call of [Promise.all] is resumed. *)
Definition transfer_balance_to (t : ident) (xt : Z + option nat) (bf : Z)
    : started (option (Z * Z)) :=
  awaits (balance_end t xt) (transfer_returns bf).

(** The first [getStudentBalance] call of [Promise.all] is resumed. *)
Definition transfer_balance_from (f t : ident)
    (x : (Z + option nat) * (Z + option nat)) : started (option (Z * Z)) :=
  awaits (balance_end f x.1) (transfer_balance_to t x.2).

(** Lines 150 to 152, resumed with the result [r] of the lookup of [to]:
    a missing receiver throws, the transfer is pushed and the two
    [getStudentBalance] calls of [Promise.all] are made, each running up
    to its own [await]. *)
Definition transfer_commit (now : Z) (f t : ident) (a : number)
    (m : jsstring) (r : option nat) : started (option (Z * Z)) :=
  awaits ((if r is None then nullStudentError t else ret tt) ;;;
          push_transaction (Transaction now f t a m) ;;;
          xf <- balance_begin f ;;
          xt <- balance_begin t ;;
          ret (xf, xt))
    (transfer_balance_from f t).

(** Lines 149 and 150: the lookup of [to], and the [await] of its
    result. *)
Definition transfer_receiver (now : Z) (f t : ident) (a : number)
    (m : jsstring) : started (option (Z * Z)) :=
  awaits (getStudentByUUID t) (transfer_commit now f t a m).

(** Line 147, resumed with the balance [b] of [from]: the comparison. *)
Definition transfer_compare (now : Z) (f t : ident) (a : number)
    (m : jsstring) (b : Z) : started (option (Z * Z)) :=
  if lt (of_Z b) a then ends (ret None) else transfer_receiver now f t a m.

(** The [getStudentBalance(from, true)] call of line 147 is resumed. *)
Definition transfer_sender (now : Z) (f t : ident) (a : number)
    (m : jsstring) (x : Z + option nat) : started (option (Z * Z)) :=
  awaits (balance_end f x) (transfer_compare now f t a m).

(** The call itself.  A deposit reaches its first [await] at the lookup
    of [to]; any other call reaches it inside
    [getStudentBalance(from, true)]. *)
Definition createTransaction_async (now : Z) (f t : ident) (a : number)
    (m : jsstring) : started (option (Z * Z)) :=
  fun s =>
    if decide (f = t) then ends (throw SelfTransfer) s else
    if negb (strict_eq a (of_Z (toInt32 a))) then ends (throw AmountNotInteger) s else
    if le a (of_Z 0) then ends (throw AmountNotPositive) s else
    if decide (f = IdNum 0) then transfer_receiver now f t a m s else
    awaits (balance_begin f) (transfer_sender now f t a m) s.

Section Suspended.

Variable bcrypt_hash : jsstring -> Z -> jsstring.

(** [createStudent] up to the [await] of [bcrypt.hash] on line 66: the
    checks and the uuid loop. *)
Definition createStudent_begin (draws : list jsstring) (n p : jsstring)
    : M jsstring :=
  if negb (bool_decide (trim n = n)) then throw NameHasSpaces else
  if (length n =? 0)%nat then throw NameMissing else
  if (length p <? 10)%nat then throw PasswordTooShort else
  l <- get_students ;;
  if negb (length (filter (fun x => name x = n) l) =? 0)%nat
  then throw (UserExists n) else
  match uuid_loop draws l with
  | None => fun s => (Unfinished, s)
  | Some u => ret u
  end.

(** [createStudent] from the resumption on: the push, the write request
    and the return. *)
Definition createStudent_end (u n p : jsstring) : M jsstring :=
  push_student (Student u n (bcrypt_hash p 10) 0) ;;;
  scheduleWrite ;;;
  ret u.

(** [createStudent] with its suspension point. *)
Definition createStudent_async (draws : list jsstring) (n p : jsstring)
    : started jsstring :=
  awaits (createStudent_begin draws n p) (fun u => ends (createStudent_end u n p)).

End Suspended.

(** The loop resumes a suspended call. *)
Definition resume {A} (c : async A) (s : store) : async A * store :=
  match c with
  | Ended r => (Ended r, s)
  | Awaiting k => k s
  end.

(** A call that is resumed again and again, with nothing else run in
    between, up to [fuel] times: how it ends. *)
Fixpoint alone {A} (fuel : nat) (c : async A) (s : store)
    : option (outcome A * store) :=
  match c with
  | Ended r => Some (r, s)
  | Awaiting k =>
      match fuel with
      | O => None
      | S n => alone n (k s).1 (k s).2
      end
  end.

(** Which of two calls in flight the loop resumes next. *)
Inductive turn := First | Second.

(** The call has stopped the process. *)
Definition exited {A} (c : async A) : bool :=
  match c with
  | Ended (Exit _) => true
  | _ => false
  end.

(** The loop resumes two calls in flight in the order [l]; none when one
    of them stops the process. *)
Fixpoint turns {A B} (l : list turn) (ca : async A) (cb : async B)
    (s : store) : option (async A * async B * store) :=
  if exited ca || exited cb then None else
  match l with
  | [] => Some (ca, cb, s)
  | First :: rest => turns rest (resume ca s).1 cb (resume ca s).2
  | Second :: rest => turns rest ca (resume cb s).1 (resume cb s).2
  end.

(** Two calls made one right after the other, the first not awaited
    before the second is made, and then resumed in the order [l]. *)
Definition in_flight {A B} (a : started A) (b : started B) (l : list turn)
    (s : store) : option (async A * async B * store) :=
  if exited (a s).1 then None else
  turns l (a s).1 (b (a s).2).1 (b (a s).2).2.

(** The order in which the loop resumes two [createTransaction] calls
    between accounts that were made one right after the other: each
    resumption is queued behind the other call's, and after the push the
    two [getStudentBalance] calls of one call are queued together. *)
Definition two_transfers : list turn :=
  [First; Second; First; Second; First; Second;
   First; First; Second; Second; First; Second].

(** * Numbers *)

(** [ToInt32] is the identity on the integers of the signed 32-bit range and
    on nothing else. *)

Lemma truncate_inject (q : Q) (z : Z) : Qeq q (inject_Z z) -> truncate q = z.
Proof.
  unfold Qeq, truncate, inject_Z. simpl. intros H.
  rewrite Z.mul_1_r in H. rewrite H. apply Z.quot_mul. lia.
Qed.

Lemma wrap32_range (n : Z) : - 2 ^ 31 <= wrap32 n < 2 ^ 31.
Proof. unfold wrap32. pose proof (Z.mod_pos_bound (n + 2 ^ 31) (2 ^ 32)). lia. Qed.

Lemma wrap32_small (n : Z) : - 2 ^ 31 <= n < 2 ^ 31 -> wrap32 n = n.
Proof. intros H. unfold wrap32. rewrite Z.mod_small; lia. Qed.

Lemma toInt32_integer (a : number) (z : Z) :
  is_integer a z -> - 2 ^ 31 <= z < 2 ^ 31 -> toInt32 a = z.
Proof.
  destruct a as [q| |b]; simpl; try tauto.
  intros H R. rewrite (truncate_inject _ _ H). by apply wrap32_small.
Qed.

Lemma integral_check (a : number) :
  strict_eq a (of_Z (toInt32 a)) = true <->
  exists z, - 2 ^ 31 <= z < 2 ^ 31 /\ is_integer a z.
Proof.
  split.
  - destruct a as [q| |b]; simpl; try discriminate.
    intros H. apply Qeq_bool_iff in H. exists (wrap32 (truncate q)).
    split; [apply wrap32_range | exact H].
  - intros (z & R & H). rewrite (toInt32_integer _ _ H R).
    destruct a as [q| |b]; simpl in *; try tauto. exact (Qeq_eq_bool _ _ H).
Qed.

Lemma is_integer_inj a z1 z2 : is_integer a z1 -> is_integer a z2 -> z1 = z2.
Proof.
  destruct a as [q| |b]; simpl; try tauto. intros H1 H2.
  apply inject_Z_injective. rewrite <- H1. exact H2.
Qed.

Lemma int32_check_rejects_wide_integers (a : number) (z : Z) :
  is_integer a z -> 2 ^ 31 <= z -> strict_eq a (of_Z (toInt32 a)) = false.
Proof.
  intros Hz R. apply not_true_is_false. intros H.
  apply integral_check in H as (w & Rw & Hw).
  pose proof (is_integer_inj _ _ _ Hz Hw). lia.
Qed.

Lemma le_integer (a : number) (z w : Z) :
  is_integer a z -> le a (of_Z w) = (z <=? w).
Proof.
  destruct a as [q| |]; simpl; try done. intros H.
  rewrite (Qleb_comp _ _ H _ _ (Qeq_refl _)).
  unfold Qle_bool, inject_Z; simpl. by rewrite !Z.mul_1_r.
Qed.

Lemma lt_integer (a : number) (z b : Z) :
  is_integer a z -> lt (of_Z b) a = (b <? z).
Proof.
  destruct a as [q| |]; simpl; try done. intros H.
  rewrite (Qleb_comp _ _ H _ _ (Qeq_refl _)).
  unfold Qle_bool, inject_Z; simpl. rewrite !Z.mul_1_r.
  by rewrite Z.ltb_antisym.
Qed.

Lemma accepted_passes_the_checks (a : number) (z : Z) :
  is_integer a z -> 1 <= z < 2 ^ 31 ->
  strict_eq a (of_Z (toInt32 a)) = true /\ le a (of_Z 0) = false.
Proof.
  intros Hz R. split.
  - apply integral_check. exists z. split; [lia|done].
  - rewrite (le_integer _ _ _ Hz). lia.
Qed.

(** * Strings *)

(** [trim] changes a string exactly when it is padded. *)

Lemma trimStart_length (s : jsstring) : (length (trimStart s) <= length s)%nat.
Proof.
  induction s as [|c r IH]; simpl; [done|].
  destruct (is_whitespace c); simpl; lia.
Qed.

Lemma trimEnd_length (s : jsstring) : (length (trimEnd s) <= length s)%nat.
Proof.
  unfold trimEnd. rewrite length_rev.
  pose proof (trimStart_length (rev s)). by rewrite length_rev in *.
Qed.

Lemma trimStart_leading (c : N) (r : jsstring) :
  is_whitespace c = true -> (length (trimStart (c :: r)) < length (c :: r))%nat.
Proof. intros H. simpl. rewrite H. pose proof (trimStart_length r). lia. Qed.

Lemma trimEnd_trailing (c : N) (r : jsstring) :
  is_whitespace c = true -> (length (trimEnd (r ++ [c])) < length (r ++ [c]))%nat.
Proof.
  intros H. unfold trimEnd. rewrite rev_unit, !length_rev.
  pose proof (trimStart_leading c (rev r) H) as L.
  simpl in L. rewrite length_rev in L. rewrite length_app. simpl. lia.
Qed.

Lemma trimStart_same_length (s : jsstring) :
  length (trimStart s) = length s -> trimStart s = s.
Proof.
  destruct s as [|c r]; [done|]. simpl.
  destruct (is_whitespace c); [|done].
  pose proof (trimStart_length r). simpl. lia.
Qed.

Lemma padded_is_trimmed (n : jsstring) : padded n -> trim n <> n.
Proof.
  intros [(c & r & -> & W)|(c & r & -> & W)] E.
  - pose proof (trimStart_leading c r W).
    pose proof (trimEnd_length (trimStart (c :: r))).
    unfold trim in E. rewrite E in *. lia.
  - pose proof (trimEnd_length (trimStart (r ++ [c]))) as L1.
    pose proof (trimStart_length (r ++ [c])) as L2.
    unfold trim in E. rewrite E in L1.
    rewrite (trimStart_same_length (r ++ [c])) in E by lia.
    pose proof (trimEnd_trailing c r W). rewrite E in *. lia.
Qed.

Lemma unpadded_is_kept (n : jsstring) : ~ padded n -> trim n = n.
Proof.
  intros H. destruct n as [|c r]; [done|].
  assert (is_whitespace c = false) as W.
  { apply not_true_is_false. intros W. apply H. left. by exists c, r. }
  unfold trim. simpl. rewrite W. unfold trimEnd.
  destruct (rev (c :: r)) as [|d q] eqn:E.
  - apply (f_equal (@length N)) in E. rewrite length_rev in E. done.
  - assert (c :: r = rev q ++ [d]) as E'.
    { rewrite <- (rev_involutive (c :: r)), E. done. }
    assert (is_whitespace d = false) as W'.
    { apply not_true_is_false. intros W'. apply H. right. by exists d, (rev q). }
    simpl. rewrite W'. by rewrite E'.
Qed.

(** * Filtering the account list *)

Section Refs.
Context {A : Type} (P : A -> Prop) {Pdec : ∀ x, Decision (P x)}.

Lemma refs_from_none (k : nat) (l : list A) :
  (forall j y, l !! j = Some y -> ~ P y) -> refs_from P k l = [].
Proof.
  revert k. induction l as [|x r IH]; intros k H; simpl; [done|].
  destruct (decide (P x)) as [p|_].
  - destruct (H 0%nat x eq_refl p).
  - apply IH. intros j y Hj. exact (H (S j) y Hj).
Qed.

Lemma refs_from_one (k i : nat) (l : list A) :
  (exists x, l !! i = Some x /\ P x) ->
  (forall j y, l !! j = Some y -> P y -> j = i) ->
  refs_from P k l = [(k + i)%nat].
Proof.
  revert k i. induction l as [|x r IH]; intros k i (y & Hy & Py) U.
  - discriminate.
  - simpl. destruct i as [|i].
    + injection Hy as ->. rewrite decide_True by done.
      rewrite refs_from_none; [by rewrite Nat.add_0_r|].
      intros j z Hj Pz. specialize (U (S j) z Hj Pz). discriminate.
    + destruct (decide (P x)) as [p|_].
      * specialize (U 0%nat x eq_refl p). discriminate.
      * rewrite (IH (S k) i); [f_equal; lia|by exists y|].
        intros j z Hj Pz. specialize (U (S j) z Hj Pz). lia.
Qed.

Lemma refs_from_alter (f : A -> A) (k j : nat) (l : list A) :
  (forall x, P (f x) <-> P x) ->
  refs_from P k (alter f j l) = refs_from P k l.
Proof.
  intros Hf. revert k j. induction l as [|x r IH]; intros k j; [done|].
  destruct j as [|j].
  - change (alter f 0%nat (x :: r)) with (f x :: r). simpl.
    destruct (decide (P (f x))) as [p|np], (decide (P x)) as [q|nq];
      try done; [destruct nq|destruct np]; by apply Hf.
  - change (alter f (S j) (x :: r)) with (x :: alter f j r). simpl.
    by rewrite IH.
Qed.

Lemma refs_from_empty (k : nat) (l : list A) :
  refs_from P k l = [] -> forall y, y ∈ l -> ~ P y.
Proof.
  revert k. induction l as [|x r IH]; intros k H y Hy; [by inversion Hy|].
  simpl in H. destruct (decide (P x)) as [p|np]; [discriminate|].
  apply elem_of_cons in Hy as [->|Hy]; [done|]. by eapply IH.
Qed.

Lemma filter_absent (l : list A) :
  (length (filter P l) =? 0)%nat = true <-> (forall x, x ∈ l -> ~ P x).
Proof.
  induction l as [|x l IH].
  - split; [intros _ x Hx; inversion Hx|done].
  - rewrite filter_cons. destruct (decide (P x)) as [p|np].
    + split; [done|]. intros H. destruct (H x); [left|done].
    + rewrite IH. split.
      * intros H y Hy. apply elem_of_cons in Hy as [->|Hy]; [done|by apply H].
      * intros H y Hy. apply H. by right.
Qed.

Lemma filter_present (l : list A) :
  (length (filter P l) =? 0)%nat = false <-> (exists x, x ∈ l /\ P x).
Proof.
  induction l as [|x l IH].
  - split; [done|]. intros (x & Hx & _). inversion Hx.
  - rewrite filter_cons. destruct (decide (P x)) as [p|np].
    + split; [|done]. intros _. exists x. split; [left|done].
    + rewrite IH. split.
      * intros (y & Hy & Py). exists y. split; [by right|done].
      * intros (y & Hy & Py). apply elem_of_cons in Hy as [->|Hy]; [done|].
        by exists y.
Qed.

End Refs.

(** No account carries a number as its uuid; in particular none carries
    the reservoir's 0. *)

Lemma no_account_for_number (n : Z) (l : list student) :
  filter_refs (fun x => IdStr (uuid x) = IdNum n) l = [].
Proof. apply refs_from_none. intros j y _ H. discriminate. Qed.

Lemma the_account_refs (l : list student) (uu : jsstring) (i : nat) :
  the_account l uu i ->
  filter_refs (fun x => IdStr (uuid x) = IdStr uu) l = [i].
Proof.
  intros [(x & Hx & E) U]. unfold filter_refs.
  rewrite (refs_from_one _ 0 i); [done|exists x; split; congruence|].
  intros j y Hj [= Ey]. by eapply U.
Qed.

Lemma the_account_of_refs_from (l : list student) (uu : jsstring) (k r : nat) :
  refs_from (fun x => IdStr (uuid x) = IdStr uu) k l = [r] ->
  exists j, r = (k + j)%nat /\ the_account l uu j.
Proof.
  revert k r. induction l as [|x l IH]; intros k r H; [discriminate|].
  simpl in H. destruct (decide (IdStr (uuid x) = IdStr uu)) as [e|ne].
  - injection H as <- Hr. exists 0%nat. split; [lia|]. split.
    + exists x. split; [done|congruence].
    + intros [|j] y Hj Ey; [done|]. exfalso.
      eapply (refs_from_empty _ _ _ Hr y); [|congruence].
      by eapply list_elem_of_lookup_2.
  - destruct (IH _ _ H) as (j & -> & [(y & Hy & Ey) U]).
    exists (S j). split; [lia|]. split; [by exists y|].
    intros [|j'] z Hz Ez; [simpl in Hz; congruence|].
    f_equal. by eapply U.
Qed.

Lemma the_account_of_refs (l : list student) (uu : jsstring) (i : nat) :
  filter_refs (fun x => IdStr (uuid x) = IdStr uu) l = [i] ->
  the_account l uu i.
Proof.
  intros H. by destruct (the_account_of_refs_from _ _ _ _ H) as (j & -> & Hj).
Qed.

Lemma the_account_alter (l : list student) (uu : jsstring) (i j : nat) (b : Z) :
  the_account l uu i -> the_account (alter (set_balance b) j l) uu i.
Proof.
  intros [(x & Hx & E) U]. split.
  - destruct (decide (j = i)) as [->|ne].
    + exists (set_balance b x). rewrite list_lookup_alter_eq, Hx. done.
    + exists x. by rewrite list_lookup_alter_ne.
  - intros k y Hk Ey. destruct (decide (j = k)) as [->|ne].
    + rewrite list_lookup_alter_eq in Hk.
      destruct (l !! k) as [z|] eqn:Hz; [|discriminate].
      injection Hk as <-. by eapply U.
    + rewrite list_lookup_alter_ne in Hk by done. by eapply U.
Qed.

(** * What the methods compute *)

Lemma scheduleWrite_db (s : store) : this_db (scheduleWrite s).2 = this_db s.
Proof. unfold scheduleWrite. by destruct (writeP s). Qed.

Lemma scheduleWrite_returns (s : store) :
  exists r, scheduleWrite s = (Return r, (scheduleWrite s).2).
Proof. unfold scheduleWrite. destruct (writeP s); by eexists. Qed.

Lemma scheduleWrite_pending (s : store) : is_Some (writeP (scheduleWrite s).2).
Proof. unfold scheduleWrite. destruct (writeP s) eqn:E; simpl; by eauto. Qed.

Lemma getStudentByUUID_found (s : store) (uu : jsstring) (i : nat) :
  the_account (students (this_db s)) uu i ->
  getStudentByUUID (IdStr uu) s = (Return (Some i), s).
Proof.
  intros H. unfold getStudentByUUID, bind, get_students.
  by rewrite (the_account_refs _ _ _ H).
Qed.

Lemma getStudentByUUID_number (s : store) (n : Z) :
  getStudentByUUID (IdNum n) s = (Return None, s).
Proof.
  unfold getStudentByUUID, bind, get_students.
  by rewrite no_account_for_number.
Qed.

Lemma recalculated_log u i s :
  transactions (this_db (recalculated u i s)) = transactions (this_db s).
Proof. unfold recalculated. by rewrite scheduleWrite_db. Qed.

Lemma recalculated_students u i s :
  students (this_db (recalculated u i s))
  = alter (set_balance (replay u (transactions (this_db s)))) i (students (this_db s)).
Proof. unfold recalculated. by rewrite scheduleWrite_db. Qed.

Lemma set_balance_twice (b : Z) (l : list student) (i : nat) :
  alter (set_balance b) i (alter (set_balance b) i l) = alter (set_balance b) i l.
Proof.
  rewrite list_alter_alter_eq. apply list_alter_ext; [|done].
  by intros [] _.
Qed.

Lemma recalculated_twice u i s :
  recalculated u i (recalculated u i s) = recalculated u i s.
Proof.
  unfold recalculated at 1. rewrite recalculated_log, recalculated_students.
  rewrite set_balance_twice. unfold recalculated, scheduleWrite, with_db.
  destruct (writeP s) eqn:E; simpl; by rewrite ?E.
Qed.

Lemma getStudentBalance_recalc (s : store) (uu : jsstring) (i : nat) :
  the_account (students (this_db s)) uu i ->
  getStudentBalance (IdStr uu) true s
  = (Return (replay (IdStr uu) (transactions (this_db s))),
     recalculated (IdStr uu) i s).
Proof.
  intros H. unfold getStudentBalance. rewrite decide_False by done.
  unfold bind at 1. rewrite (getStudentByUUID_found _ _ _ H).
  unfold recalculated, bind, get_transactions, write_balance, get_students, ret.
  destruct (scheduleWrite_returns (with_db
    (Db (alter (set_balance (replay (IdStr uu) (transactions (this_db s)))) i
        (students (this_db s))) (transactions (this_db s))) s)) as [r ->].
  rewrite scheduleWrite_db. simpl.
  destruct H as [(x & Hx & _) _].
  by rewrite list_lookup_alter_eq, Hx.
Qed.

Lemma uuid_loop_fresh (draws : list jsstring) (l : list student) (u : jsstring) :
  uuid_loop draws l = Some u -> u ∈ draws /\ (forall x, x ∈ l -> uuid x <> u).
Proof.
  induction draws as [|d draws IH]; simpl; [done|].
  destruct (length (filter (fun x => uuid x = d) l) =? 0)%nat eqn:E; simpl.
  - intros [= <-]. split; [left|]. by apply (filter_absent (fun x => uuid x = d)).
  - intros H. destruct (IH H). split; [by right|done].
Qed.

Lemma uuid_loop_ends (draws : list jsstring) (l : list student) :
  (exists u, u ∈ draws /\ forall x, x ∈ l -> uuid x <> u) ->
  is_Some (uuid_loop draws l).
Proof.
  induction draws as [|d draws IH]; simpl.
  - intros (u & Hu & _). inversion Hu.
  - intros (u & Hu & F).
    destruct (length (filter (fun x => uuid x = d) l) =? 0)%nat eqn:E; simpl; [done|].
    apply IH. exists u. split; [|done].
    apply elem_of_cons in Hu as [->|Hu]; [|done].
    apply (filter_present (fun x => uuid x = d)) in E as (x & Hx & Ex).
    by destruct (F x Hx).
Qed.

Lemma verifyStudent_pure cmp n p s : (verifyStudent cmp n p s).2 = s.
Proof.
  unfold verifyStudent. destruct (negb _); [done|].
  unfold bind, get_students.
  destruct (1 <? length _)%nat; [done|].
  destruct (filter _ _); [done|]. by destruct (negb _).
Qed.

(** * Rules for store predicates *)

Section Hoare.
Context {A B : Type}.

Lemma hoare_ret (I : store -> Prop) (a : A) : hoare I (ret a) I.
Proof. by intros s. Qed.

Lemma hoare_throw (I : store -> Prop) (e : error) : hoare I (throw (A:=A) e) I.
Proof. by intros s. Qed.

Lemma hoare_exit (I : store -> Prop) (c : bool) : hoare I (process_exit (A:=A) c) I.
Proof. by intros s. Qed.

Lemma hoare_bind (P R Q : store -> Prop) (m : M A) (k : A -> M B) :
  hoare P m R -> (forall s, R s -> Q s) -> (forall a, hoare R (k a) Q) ->
  hoare P (bind m k) Q.
Proof.
  intros Hm HRQ Hk s Hs. specialize (Hm s Hs). unfold bind.
  destruct (m s) as [[a|e|c|] s1]; simpl in *; auto. by apply Hk.
Qed.

Lemma hoare_seq (I : store -> Prop) (m : M A) (k : A -> M B) :
  hoare I m I -> (forall a, hoare I (k a) I) -> hoare I (bind m k) I.
Proof. intros Hm Hk. by apply hoare_bind with (R := I). Qed.

Lemma hoare_post (P Q Q' : store -> Prop) (m : M A) :
  hoare P m Q -> (forall s, Q s -> Q' s) -> hoare P m Q'.
Proof. intros H HQ s Hs. by apply HQ, H. Qed.

End Hoare.

Lemma hoare_get_students I : hoare I get_students I.
Proof. by intros s. Qed.

Lemma hoare_get_transactions I : hoare I get_transactions I.
Proof. by intros s. Qed.

Lemma hoare_scheduleWrite I : ignores_schedule I -> hoare I scheduleWrite I.
Proof. intros H s. apply H. Qed.

Lemma hoare_write_balance I i b : ignores_students I -> hoare I (write_balance i b) I.
Proof. intros H s Hs. apply H, Hs. Qed.

Lemma hoare_push_student I x : ignores_students I -> hoare I (push_student x) I.
Proof. intros H s Hs. apply H, Hs. Qed.

Lemma hoare_getStudentCheck I found : hoare I (getStudentCheck found) I.
Proof.
  unfold getStudentCheck.
  destruct (1 <? length found)%nat; [apply hoare_exit|apply hoare_ret].
Qed.

Lemma hoare_getStudentByUUID I u : hoare I (getStudentByUUID u) I.
Proof.
  apply hoare_seq; [apply hoare_get_students|].
  intros l. apply hoare_getStudentCheck.
Qed.

Lemma hoare_getStudentBalance I u recalc :
  ignores_students I -> ignores_schedule I ->
  hoare I (getStudentBalance u recalc) I.
Proof.
  intros H1 H2. unfold getStudentBalance.
  destruct (decide (u = IdNum 0)); [apply hoare_ret|].
  apply hoare_seq; [apply hoare_getStudentByUUID|].
  intros [i|]; [|apply hoare_throw].
  apply hoare_seq.
  - destruct recalc; [|apply hoare_ret].
    apply hoare_seq; [apply hoare_get_transactions|]. intros log.
    apply hoare_seq; [by apply hoare_write_balance|]. intros _.
    apply hoare_seq; [by apply hoare_scheduleWrite|]. intros _.
    apply hoare_ret.
  - intros _. apply hoare_seq; [apply hoare_get_students|].
    intros l. apply hoare_ret.
Qed.

Lemma hoare_createStudent I hash draws n p :
  ignores_students I -> ignores_schedule I ->
  hoare I (createStudent hash draws n p) I.
Proof.
  intros H1 H2. unfold createStudent.
  destruct (negb _); [apply hoare_throw|].
  destruct (length n =? 0)%nat; [apply hoare_throw|].
  destruct (length p <? 10)%nat; [apply hoare_throw|].
  apply hoare_seq; [apply hoare_get_students|]. intros l.
  destruct (negb _); [apply hoare_throw|].
  destruct (uuid_loop draws l); [|intros s Hs; exact Hs].
  apply hoare_seq; [by apply hoare_push_student|]. intros _.
  apply hoare_seq; [by apply hoare_scheduleWrite|]. intros _.
  apply hoare_ret.
Qed.

(** [createTransaction]: [I] holds up to the push, [J] from the push on. *)

Lemma hoare_createTransaction (I J Q : store -> Prop) now f t a m :
  ignores_students I -> ignores_schedule I ->
  ignores_students J -> ignores_schedule J ->
  (forall s, I s -> Q s) -> (forall s, J s -> Q s) ->
  (f <> t -> accepted_amount a ->
   hoare I (push_transaction (Transaction now f t a m)) J) ->
  hoare I (createTransaction now f t a m) Q.
Proof.
  intros I1 I2 J1 J2 IQ JQ Hpush. unfold createTransaction.
  destruct (decide (f = t)) as [|ne]; [eapply hoare_post; [apply hoare_throw|done]|].
  destruct (strict_eq a (of_Z (toInt32 a))) eqn:Eint; simpl;
    [|eapply hoare_post; [apply hoare_throw|done]].
  destruct (le a (of_Z 0)) eqn:Epos; [eapply hoare_post; [apply hoare_throw|done]|].
  assert (accepted_amount a) as Ha.
  { apply integral_check in Eint as (z & R & Hz). exists z. split; [|done].
    destruct a as [q| |]; simpl in *; try done.
    destruct (Z_le_gt_dec z 0) as [Hle|Hgt]; [|lia].
    exfalso. rewrite Zle_Qle in Hle. rewrite <- Hz in Hle.
    apply Qle_bool_iff in Hle. unfold of_Z in Epos. congruence. }
  apply hoare_bind with (R := I); [|done|].
  { destruct (decide (f = IdNum 0)); [apply hoare_ret|].
    apply hoare_seq; [by apply hoare_getStudentBalance|]. intros b. apply hoare_ret. }
  intros [|]; [eapply hoare_post; [apply hoare_ret|done]|].
  apply hoare_bind with (R := I); [apply hoare_getStudentByUUID|done|]. intros r.
  apply hoare_bind with (R := I); [|done|].
  { destruct r; [apply hoare_ret|apply hoare_throw]. }
  intros _. apply hoare_bind with (R := J); [by apply Hpush|done|]. intros _.
  apply hoare_post with J; [|done].
  apply hoare_seq; [by apply hoare_getStudentBalance|]. intros bf.
  apply hoare_seq; [by apply hoare_getStudentBalance|]. intros bt.
  apply hoare_seq; [by apply hoare_scheduleWrite|]. intros _.
  apply hoare_ret.
Qed.

Lemma hoare_createTransaction_blind (I : store -> Prop) now f t a m :
  ignores_students I -> ignores_schedule I ->
  (forall s tx, I s ->
     I (with_db (Db (students (this_db s)) (transactions (this_db s) ++ [tx])) s)) ->
  hoare I (createTransaction now f t a m) I.
Proof.
  intros H1 H2 H3. apply (hoare_createTransaction I I I); try done.
  intros _ _ s H. by apply H3.
Qed.

Lemma log_ignores_students (L : list transaction) :
  ignores_students (fun s => transactions (this_db s) = L).
Proof. by intros s l H. Qed.

Lemma log_ignores_schedule (L : list transaction) :
  ignores_schedule (fun s => transactions (this_db s) = L).
Proof. intros s H. by rewrite scheduleWrite_db. Qed.

Lemma getStudentBalance_log u recalc s :
  transactions (this_db (getStudentBalance u recalc s).2) = transactions (this_db s).
Proof.
  by apply (hoare_getStudentBalance _ u recalc
              (log_ignores_students _) (log_ignores_schedule _)).
Qed.

(** * Balances *)

(** On a log of 32-bit amounts the replay of the code is the ledger balance
    of the specification. *)

Lemma ledger_agrees (u : ident) (log : list transaction) (b : Z) (q : Q) :
  Qeq q (inject_Z b) ->
  Forall (fun tx => int32_amount (amount tx)) log ->
  exists q', foldl (ledger_step u) (Finite q) log = Finite q'
             /\ Qeq q' (inject_Z (foldl (reducer u) b log)).
Proof.
  intros Hq Hlog. revert b q Hq.
  induction Hlog as [|tx log (z & R & Hz) _ IH]; intros b q Hq; simpl.
  - by exists q.
  - unfold ledger_step at 2, reducer at 2.
    rewrite (toInt32_integer _ _ Hz R).
    destruct (amount tx) as [qa| |]; simpl in Hz; try done.
    repeat case_decide; repeat case_bool_decide; try congruence;
      simpl; apply IH;
      rewrite ?Hq, ?Hz, <- ?inject_Z_opp, <- ?inject_Z_plus;
      apply inject_Z_injective; lia.
Qed.

Lemma replay_is_ledger_balance (u : ident) (log : list transaction) :
  Forall (fun tx => int32_amount (amount tx)) log ->
  strict_eq (of_Z (replay u log)) (ledger_balance u log) = true.
Proof.
  intros H. unfold ledger_balance, replay, of_Z at 2.
  destruct (ledger_agrees u log 0 (inject_Z 0) ltac:(reflexivity) H) as (q & -> & E).
  simpl. apply Qeq_eq_bool. by symmetry.
Qed.

(** C1 (as amended).  For a store whose logged amounts are all integers of
    the signed 32-bit range, and the uuid of exactly one stored account,
    [getStudentBalance(uuid, true)] returns the ledger balance of the full
    log: 0, plus the amount of every transfer to the account, minus the
    amount of every transfer from it.  The log is left as it was; the result
    is the same from any store with the same log, whatever the cached
    balances are; and a second call in a row returns the same number. *)
Theorem recalculated_balance_is_the_ledger_balance
    (s : store) (uu : jsstring) (i : nat) :
  the_account (students (this_db s)) uu i ->
  Forall (fun tx => int32_amount (amount tx)) (transactions (this_db s)) ->
  exists b s',
    getStudentBalance (IdStr uu) true s = (Return b, s')
    /\ strict_eq (of_Z b)
         (ledger_balance (IdStr uu) (transactions (this_db s))) = true
    /\ transactions (this_db s') = transactions (this_db s)
    /\ (forall s2 j,
          the_account (students (this_db s2)) uu j ->
          transactions (this_db s2) = transactions (this_db s) ->
          (getStudentBalance (IdStr uu) true s2).1 = Return b)
    /\ getStudentBalance (IdStr uu) true s' = (Return b, s').
Proof.
  intros Hacc Hlog.
  exists (replay (IdStr uu) (transactions (this_db s))),
         (recalculated (IdStr uu) i s).
  split; [by apply getStudentBalance_recalc|].
  split; [by apply replay_is_ledger_balance|].
  split; [apply recalculated_log|]. split.
  - intros s2 j H2 E. by rewrite (getStudentBalance_recalc _ _ _ H2), E.
  - rewrite (getStudentBalance_recalc _ uu i).
    + by rewrite recalculated_log, recalculated_twice.
    + rewrite recalculated_students. by apply the_account_alter.
Qed.

(** The statement applied to the demo store after the deposit of 20. *)
Lemma recalculated_balance_is_the_ledger_balance_witness :
  exists b s',
    getStudentBalance (IdStr Demo.cortana_id) true Demo.funded = (Return b, s')
    /\ strict_eq (of_Z b)
         (ledger_balance (IdStr Demo.cortana_id)
            (transactions (this_db Demo.funded))) = true
    /\ transactions (this_db s') = transactions (this_db Demo.funded)
    /\ (forall s2 j,
          the_account (students (this_db s2)) Demo.cortana_id j ->
          transactions (this_db s2) = transactions (this_db Demo.funded) ->
          (getStudentBalance (IdStr Demo.cortana_id) true s2).1 = Return b)
    /\ getStudentBalance (IdStr Demo.cortana_id) true s' = (Return b, s').
Proof.
  apply (recalculated_balance_is_the_ledger_balance
           Demo.funded Demo.cortana_id 0%nat).
  - apply the_account_of_refs. reflexivity.
  - constructor; [|constructor].
    exists 20. split; [lia|reflexivity].
Defined.

(** C1 as stated fails on a log that holds an amount outside the 32-bit
    range: the replay adds [amount | 0].  With one deposit of 2^31 logged
    for Cortana, the call returns -2147483648 and the ledger balance is
    2147483648. *)
Lemma recalculation_wraps_a_logged_amount_of_2_pow_31 :
  the_account (students (this_db Demo.big_deposit)) Demo.cortana_id 0%nat
  /\ (getStudentBalance (IdStr Demo.cortana_id) true Demo.big_deposit).1
     = Return (-2147483648)
  /\ ledger_balance (IdStr Demo.cortana_id)
       (transactions (this_db Demo.big_deposit)) = of_Z 2147483648
  /\ strict_eq (of_Z (-2147483648)) (of_Z 2147483648) = false.
Proof.
  split; [apply the_account_of_refs; reflexivity|].
  split; [vm_compute; reflexivity|].
  split; [vm_compute; reflexivity|reflexivity].
Qed.

(** * Transfers *)

(** C6.  A call with [amount <= 0], with an amount that is not an integer,
    or with [from === to] throws a validation error and leaves the store,
    and so the log, as it was. *)
Theorem invalid_transfer_is_rejected
    (now : Z) (f t : ident) (a : number) (m : jsstring) (s : store) :
  le a (of_Z 0) = true \/ ~ (exists z, is_integer a z) \/ f = t ->
  exists e,
    createTransaction now f t a m s = (Throw e, s)
    /\ kind_of e = ValidationError
    /\ transactions (this_db (createTransaction now f t a m s).2)
       = transactions (this_db s).
Proof.
  intros H. unfold createTransaction.
  destruct (decide (f = t)) as [|ne]; [by exists SelfTransfer|].
  destruct (strict_eq a (of_Z (toInt32 a))) eqn:Eint; simpl;
    [|by exists AmountNotInteger].
  destruct (le a (of_Z 0)) eqn:Epos; [by exists AmountNotPositive|].
  exfalso. destruct H as [H|[H|H]]; [done| |done].
  apply H. apply integral_check in Eint as (z & _ & Hz). by exists z.
Qed.

(** The statement applied to a transfer of -3. *)
Lemma invalid_transfer_is_rejected_witness :
  exists e,
    createTransaction 4 (IdStr Demo.cortana_id) (IdStr Demo.zangetsu_id)
      (Finite (-3 # 1)) [] Demo.funded = (Throw e, Demo.funded)
    /\ kind_of e = ValidationError
    /\ transactions (this_db (createTransaction 4 (IdStr Demo.cortana_id)
                               (IdStr Demo.zangetsu_id) (Finite (-3 # 1)) []
                               Demo.funded).2)
       = transactions (this_db Demo.funded).
Proof.
  apply (invalid_transfer_is_rejected 4 (IdStr Demo.cortana_id)
           (IdStr Demo.zangetsu_id) (Finite (-3 # 1)) [] Demo.funded).
  left. reflexivity.
Defined.

(** C3 (as amended).  When [from] is the uuid of exactly one account, differs
    from [to], the amount is an integer between 1 and 2^31 - 1 and the
    replayed balance of [from] is below it, the call returns [null]; the log
    is unchanged; the account list changes only in that the cached balance
    of [from] is overwritten with the replayed value; and a write is
    pending afterwards. *)
Theorem declined_transfer_rewrites_only_the_cache
    (now : Z) (s : store) (uu : jsstring) (i : nat) (t : ident)
    (a : number) (z : Z) (m : jsstring) :
  the_account (students (this_db s)) uu i ->
  IdStr uu <> t ->
  is_integer a z -> 1 <= z < 2 ^ 31 ->
  replay (IdStr uu) (transactions (this_db s)) < z ->
  exists s',
    createTransaction now (IdStr uu) t a m s = (Return None, s')
    /\ transactions (this_db s') = transactions (this_db s)
    /\ students (this_db s')
       = alter (set_balance (replay (IdStr uu) (transactions (this_db s)))) i
               (students (this_db s))
    /\ is_Some (writeP s').
Proof.
  intros Hacc Hne Hz R Hlow. exists (recalculated (IdStr uu) i s).
  split; [|split; [apply recalculated_log|split; [apply recalculated_students|]]].
  - destruct (accepted_passes_the_checks _ _ Hz R) as [E1 E2].
    unfold createTransaction. rewrite decide_False, E1 by done.
    cbn [negb]. rewrite E2, decide_False by done. unfold bind.
    rewrite (getStudentBalance_recalc _ _ _ Hacc). unfold ret.
    rewrite (lt_integer _ _ _ Hz).
    by destruct (Z.ltb_spec (replay (IdStr uu) (transactions (this_db s))) z); [|lia].
  - apply scheduleWrite_pending.
Qed.

(** The statement applied to a transfer of 100 out of a balance of 20. *)
Lemma declined_transfer_rewrites_only_the_cache_witness :
  exists s',
    createTransaction 3 (IdStr Demo.cortana_id) (IdStr Demo.zangetsu_id)
      (of_Z 100) [] Demo.funded = (Return None, s')
    /\ transactions (this_db s') = transactions (this_db Demo.funded)
    /\ students (this_db s')
       = alter (set_balance (replay (IdStr Demo.cortana_id)
                               (transactions (this_db Demo.funded)))) 0%nat
               (students (this_db Demo.funded))
    /\ is_Some (writeP s').
Proof.
  apply (declined_transfer_rewrites_only_the_cache
           3 Demo.funded Demo.cortana_id 0%nat (IdStr Demo.zangetsu_id)
           (of_Z 100) 100 []).
  - apply the_account_of_refs. reflexivity.
  - discriminate.
  - reflexivity.
  - lia.
  - vm_compute. reflexivity.
Defined.

(** C3 as stated fails: a declined transfer does mutate the store.  Cortana
    is cached at 7 over an empty log; a transfer of 5 is declined, her
    cached balance becomes 0 and a write cycle is started. *)
Lemma declined_transfer_mutates_the_store :
  let s := Demo.stale in
  let r := createTransaction 3 (IdStr Demo.cortana_id) (IdStr Demo.zangetsu_id)
             (of_Z 5) [] s in
  replay (IdStr Demo.cortana_id) (transactions (this_db s)) = 0
  /\ r.1 = Return None
  /\ students (this_db s) = [Demo.cortana 7; Demo.zangetsu 0]
  /\ students (this_db r.2) = [Demo.cortana 0; Demo.zangetsu 0]
  /\ writeP s = None
  /\ writeP r.2 = Some 0%nat
  /\ r.2 <> s.
Proof. vm_compute. repeat split; discriminate. Qed.

(** A transfer to the reservoir never returns balances and never appends:
    the lookup of [to] is made for the reservoir too, and finds nothing. *)
Lemma withdrawal_never_completes now f a m s :
  (forall bal, (createTransaction now f (IdNum 0) a m s).1 <> Return (Some bal))
  /\ transactions (this_db (createTransaction now f (IdNum 0) a m s).2)
     = transactions (this_db s).
Proof.
  pose proof (getStudentBalance_log f true s) as H.
  split; [intros bal|]; unfold createTransaction;
    (destruct (decide (f = IdNum 0)); [by unfold throw|]);
    (destruct (negb _); [by unfold throw|]);
    (destruct (le _ _); [by unfold throw|]);
    unfold bind;
    destruct (getStudentBalance f true s) as [[b| | |] s1]; try done;
    unfold ret; (destruct (lt (of_Z b) a); [done|]);
    by rewrite getStudentByUUID_number.
Qed.

(** C2, at the failing input.  Cortana holds 20; withdrawing 5 to the
    reservoir throws the not-found error for uuid 0 and appends nothing. *)
Theorem withdrawal_to_the_reservoir_throws :
  let r := createTransaction 2 (IdStr Demo.cortana_id) (IdNum 0) (of_Z 5) []
             Demo.funded in
  (getStudentBalance (IdStr Demo.cortana_id) true Demo.funded).1 = Return 20
  /\ r.1 = Throw (StudentMissing (IdNum 0))
  /\ transactions (this_db r.2) = transactions (this_db Demo.funded).
Proof. by vm_compute. Qed.

(** * Accounts *)

(** C5.  [createStudent] throws a validation error when the name is padded
    with white space, when it is empty, or when the password has fewer than
    10 code units; otherwise it throws a conflict error when an account has
    exactly this name; otherwise, as soon as the generator draws a uuid that
    no account carries, it appends the account with balance 0 under that
    uuid and returns it. *)
Theorem createStudent_validates_then_stores
    (hash : jsstring -> Z -> jsstring) (draws : list jsstring)
    (n p : jsstring) (s : store) :
  let l := students (this_db s) in
  let taken := exists x, x ∈ l /\ name x = n in
  (padded n \/ n = [] \/ (length p < 10)%nat ->
   exists e, createStudent hash draws n p s = (Throw e, s)
             /\ kind_of e = ValidationError)
  /\ (~ padded n -> n <> [] -> (10 <= length p)%nat -> taken ->
      exists e, createStudent hash draws n p s = (Throw e, s)
                /\ kind_of e = ConflictError)
  /\ (~ padded n -> n <> [] -> (10 <= length p)%nat -> ~ taken ->
      (exists u, u ∈ draws /\ forall x, x ∈ l -> uuid x <> u) ->
      exists u s',
        createStudent hash draws n p s = (Return u, s')
        /\ students (this_db s') = l ++ [Student u n (hash p 10) 0]
        /\ (forall x, x ∈ l -> uuid x <> u)
        /\ transactions (this_db s') = transactions (this_db s)).
Proof.
  intros l taken. split; [|split].
  - intros H. unfold createStudent. case_bool_decide as E1; simpl.
    + destruct n as [|c r]; [by exists NameMissing|]. simpl.
      destruct (length p <? 10)%nat eqn:E3; [by exists PasswordTooShort|].
      exfalso. destruct H as [H|[H|H]]; [by apply padded_is_trimmed in H|done|].
      apply Nat.ltb_ge in E3. lia.
    + by exists NameHasSpaces.
  - intros Hp Hn Hlen (x & Hx & Ex). exists (UserExists n).
    unfold createStudent.
    rewrite (bool_decide_eq_true_2 _ (unpadded_is_kept _ Hp)). simpl.
    destruct n as [|c r]; [done|]. simpl.
    rewrite (proj2 (Nat.ltb_ge _ _) Hlen). unfold bind, get_students.
    rewrite (proj2 (filter_present (fun y => name y = c :: r) _)); [done|].
    by exists x.
  - subst l taken. intros Hp Hn Hlen Hfree Hdraw.
    destruct (uuid_loop_ends _ _ Hdraw) as [u Hu].
    destruct (uuid_loop_fresh _ _ _ Hu) as [_ Hfresh].
    exists u. eexists. unfold createStudent.
    rewrite (bool_decide_eq_true_2 _ (unpadded_is_kept _ Hp)). simpl.
    destruct n as [|c r]; [done|]. simpl.
    rewrite (proj2 (Nat.ltb_ge _ _) Hlen). unfold bind at 1, get_students.
    rewrite (proj2 (filter_absent (fun y => name y = c :: r) _)).
    2:{ intros x Hx Ex. apply Hfree. by exists x. }
    simpl. rewrite Hu. unfold bind, push_student.
    destruct (scheduleWrite_returns
                (with_db (Db (students (this_db s)
                              ++ [Student u (c :: r) (hash p 10) 0])
                             (transactions (this_db s))) s)) as [r0 ->].
    unfold ret. split; [reflexivity|]. rewrite scheduleWrite_db. done.
Qed.

(** The statement applied to a new account whose first drawn uuid is
    already taken. *)
Lemma createStudent_validates_then_stores_witness :
  exists u s',
    createStudent Demo.hash [Demo.cortana_id; lit "f00d"]
      (lit "Master Chief") (lit "Spartan-117") Demo.funded = (Return u, s')
    /\ students (this_db s')
       = students (this_db Demo.funded)
         ++ [Student u (lit "Master Chief") (Demo.hash (lit "Spartan-117") 10) 0]
    /\ (forall x, x ∈ students (this_db Demo.funded) -> uuid x <> u)
    /\ transactions (this_db s') = transactions (this_db Demo.funded).
Proof.
  apply (createStudent_validates_then_stores Demo.hash
           [Demo.cortana_id; lit "f00d"] (lit "Master Chief")
           (lit "Spartan-117") Demo.funded).
  - intros H. by apply padded_is_trimmed in H.
  - discriminate.
  - simpl. lia.
  - intros (x & Hx & Ex).
    repeat (apply elem_of_cons in Hx as [->|Hx]; [discriminate Ex|]).
    inversion Hx.
  - exists (lit "f00d"). split; [right; left|].
    intros x Hx.
    repeat (apply elem_of_cons in Hx as [->|Hx]; [discriminate|]).
    inversion Hx.
Defined.

Section Verify.
Variable cmp : jsstring -> jsstring -> bool.

Lemma verifyStudent_unknown_name (n p : jsstring) (s : store) :
  n <> [] -> p <> [] ->
  (forall x, x ∈ students (this_db s) -> name x <> n) ->
  verifyStudent cmp n p s
  = (Return (Some (VerifyResult None [DoesNotExist n])), s).
Proof.
  intros Hn Hp H. unfold verifyStudent.
  destruct n as [|c r]; [done|]. destruct p as [|d q]; [done|]. simpl.
  unfold bind, get_students.
  assert (filter (fun x => name x = c :: r) (students (this_db s)) = []) as ->; [|done].
  apply length_zero_iff_nil, Nat.eqb_eq.
  by apply (filter_absent (fun x => name x = c :: r)).
Qed.

Lemma verifyStudent_one_match (n p : jsstring) (s : store) (x : student) :
  n <> [] -> p <> [] ->
  filter (fun y => name y = n) (students (this_db s)) = [x] ->
  verifyStudent cmp n p s
  = (Return (if cmp p (pash x) then None
             else Some (VerifyResult None [WrongPassword])), s).
Proof.
  intros Hn Hp H. unfold verifyStudent.
  destruct n as [|c r]; [done|]. destruct p as [|d q]; [done|]. simpl.
  unfold bind, get_students. rewrite H. simpl.
  by destruct (cmp (d :: q) (pash x)).
Qed.

End Verify.

(** C4, at the failing input.  With the right password for the one account
    named Cortana the call returns [undefined], not a result holding the
    account; a wrong password and an unknown name give the two failure
    lists. *)
Theorem verifyStudent_drops_the_verified_account :
  let r := verifyStudent Demo.compare (lit "Cortana") (lit "GuiltySpark343")
             Demo.funded in
  filter (fun y => name y = lit "Cortana") (students (this_db Demo.funded))
  = [Demo.cortana 20]
  /\ Demo.compare (lit "GuiltySpark343") (pash (Demo.cortana 20)) = true
  /\ r.1 = Return None
  /\ (verifyStudent Demo.compare (lit "Cortana") (lit "GuiltySpark117")
        Demo.funded).1
     = Return (Some (VerifyResult None [WrongPassword]))
  /\ (verifyStudent Demo.compare (lit "Arbiter") (lit "GuiltySpark343")
        Demo.funded).1
     = Return (Some (VerifyResult None [DoesNotExist (lit "Arbiter")])).
Proof. by vm_compute. Qed.

(** * Startup *)

(** C9, at the failing inputs.  An unreadable file and a file that does not
    start with a brace end the process with the same code, the boolean
    [false]. *)
Theorem read_and_parse_failures_exit_alike (parse : jsstring -> option parsed) :
  constructor parse Unreadable = Exit ERRORS.READ
  /\ constructor parse (Text (lit "[]")) = Exit ERRORS.PARSE
  /\ ERRORS.READ = ERRORS.PARSE
  /\ ERRORS.READ = false
  /\ ERRORS.DUPLICATE = true.
Proof. repeat split. Qed.

(** * The write scheduler *)

Lemma single_slot_boot (d : db) : single_slot (boot d).
Proof. split; [done|]. intros h [=]. Qed.

Lemma single_slot_with_db (d : db) (s : store) :
  single_slot s -> single_slot (with_db d s).
Proof. by intros H. Qed.

Lemma single_slot_idle (s : store) :
  single_slot s -> writeP s = None -> tasks s = [].
Proof.
  intros [H _] E. destruct (tasks s) as [|t [|t' r]]; [done| |done].
  destruct H as [H _]. congruence.
Qed.

Lemma single_slot_schedule : ignores_schedule single_slot.
Proof.
  intros s H. unfold scheduleWrite. destruct (writeP s) as [h|] eqn:E; [done|].
  rewrite (single_slot_idle s H E). split; simpl.
  - split; [done|]. by rewrite lookup_app_r, Nat.sub_diag.
  - intros h [= <-]. by rewrite lookup_app_r, Nat.sub_diag.
Qed.

Lemma single_slot_task (s : store) (i : nat) (t : task) :
  single_slot s -> tasks s !! i = Some t ->
  i = 0%nat /\ tasks s = [t] /\ writeP s = Some (t_handle t)
  /\ calls s !! t_call t = Some Running
  /\ promises s !! t_handle t = Some Unsettled.
Proof.
  intros [H1 H2] Hi. destruct (tasks s) as [|t0 [|t1 r]]; [done| |done].
  destruct i as [|i]; [|done]. injection Hi as ->.
  destruct H1 as [H1 H1']. repeat split; try done. by apply H2.
Qed.

Section Steps.
Variable hash : jsstring -> Z -> jsstring.
Variable cmp : jsstring -> jsstring -> bool.

Lemma after_hoare {A} (I : store -> Prop) (m : M A) (s s' : store) :
  hoare I m I -> I s -> after (m s) = Some s' -> I s'.
Proof.
  intros H Hs. specialize (H s Hs). unfold after.
  destruct (m s) as [[a|e|c|] s1]; simpl in *; congruence.
Qed.

Lemma hoare_call (I : store -> Prop) (a : action) (s s' : store) :
  ignores_students I -> ignores_schedule I ->
  (forall now f t a m, hoare I (createTransaction now f t a m) I) ->
  (forall i, I s -> timer_fires i s = Some s' -> I s') ->
  (forall i, I s -> write_done i s = Some s' -> I s') ->
  (forall i e, I s -> write_failed i e s = Some s' -> I s') ->
  I s -> step hash cmp a s = Some s' -> I s'.
Proof.
  intros H1 H2 H3 Ht Hd Hf Hs.
  destruct a as [draws n p|n p|u r|now f t a m| |i|i|i e]; simpl.
  - apply after_hoare; [by apply hoare_createStudent|done].
  - unfold after. pose proof (verifyStudent_pure cmp n p s) as E.
    destruct (verifyStudent cmp n p s) as [[?|?|?|] s1]; simpl in *; congruence.
  - apply after_hoare; [by apply hoare_getStudentBalance|done].
  - apply after_hoare; [apply H3|done].
  - apply after_hoare; [by apply hoare_scheduleWrite|done].
  - by apply Ht.
  - by apply Hd.
  - by apply Hf.
Qed.

Lemma step_single_slot (a : action) (s s' : store) :
  single_slot s -> step hash cmp a s = Some s' -> single_slot s'.
Proof.
  apply hoare_call.
  - intros s0 l. apply single_slot_with_db.
  - apply single_slot_schedule.
  - intros now f t a0 m. apply hoare_createTransaction_blind.
    + intros s0 l. apply single_slot_with_db.
    + apply single_slot_schedule.
    + intros s0 tx. apply single_slot_with_db.
  - intros i H. unfold timer_fires.
    destruct (tasks s !! i) as [[c h [|]]|] eqn:E; try done. intros [= <-].
    destruct (single_slot_task _ _ _ H E) as (-> & Et & Ew & Ec & Ep).
    split; simpl; [by rewrite Et|apply H].
  - intros i H. unfold write_done.
    destruct (tasks s !! i) as [[c h [|text]]|] eqn:E; try done. intros [= <-].
    destruct (single_slot_task _ _ _ H E) as (-> & Et & Ew & Ec & Ep).
    split; simpl; [by rewrite Et|done].
  - intros i e H. unfold write_failed.
    destruct (tasks s !! i) as [[c h [|text]]|] eqn:E; try done. intros [= <-].
    destruct (single_slot_task _ _ _ H E) as (-> & Et & Ew & Ec & Ep).
    split; simpl; [by rewrite Et|apply H].
Qed.

Lemma run_single_slot (l : list action) (s s' : store) :
  single_slot s -> run hash cmp l s = Some s' -> single_slot s'.
Proof.
  revert s. induction l as [|a l IH]; intros s H; simpl; [congruence|].
  destruct (step hash cmp a s) as [s1|] eqn:E; [|done]. simpl.
  apply IH. by eapply step_single_slot.
Qed.

(** C7.  In every store reached from a fresh one by calls and event-loop
    steps, at most one [scheduleWrite] invocation is suspended; while one
    is, its handle is unsettled and a further call returns that handle and
    changes nothing; and whenever [this.writeP] is set, a call returns it
    and changes nothing. *)
Theorem at_most_one_write_cycle (d : db) (l : list action) (s : store) :
  run hash cmp l (boot d) = Some s ->
  (length (tasks s) <= 1)%nat
  /\ (forall t, t ∈ tasks s ->
      settled s (t_handle t) = Unsettled
      /\ scheduleWrite s = (Return (Settles_with (t_handle t)), s))
  /\ (forall h, writeP s = Some h ->
      scheduleWrite s = (Return (Settles_with h), s)).
Proof.
  intros Hrun.
  pose proof (run_single_slot _ _ _ (single_slot_boot d) Hrun) as H.
  split; [|split].
  - destruct H as [H _]. by destruct (tasks s) as [|t [|t' r]]; simpl; [lia|lia|].
  - intros t Ht. apply list_elem_of_lookup_1 in Ht as [i Hi].
    destruct (single_slot_task _ _ _ H Hi) as (_ & _ & Ew & _ & Ep).
    unfold settled, scheduleWrite. by rewrite Ep, Ew.
  - intros h E. unfold scheduleWrite. by rewrite E.
Qed.

(** A successful write settles the handle for the starter and for every
    caller that joined, frees the slot and leaves the file holding the
    database as it was when the timer fired. *)
Lemma write_success_reaches_everyone
    (s s' : store) (i c : nat) (h : handle) (text : db) :
  single_slot s ->
  tasks s !! i = Some (Task c h (Flushing text)) ->
  write_done i s = Some s' ->
  observe s' (Own c) = Fulfilled
  /\ observe s' (Settles_with h) = Fulfilled
  /\ writeP s' = None /\ tasks s' = [] /\ bank_json s' = Some text.
Proof.
  intros H E. unfold write_done. rewrite E. intros [= <-].
  destruct (single_slot_task _ _ _ H E) as (-> & Et & Ew & Ec & Ep).
  simpl in *. unfold observe, settled; simpl.
  rewrite !list_lookup_insert_eq by (by eapply lookup_lt_Some).
  by rewrite Et.
Qed.

(** A failed write is reported to the starter alone; the handle stays
    unsettled and the slot stays taken. *)
Lemma write_failure_reaches_only_the_starter
    (s s' : store) (i c : nat) (h : handle) (text : db) (e : io_error) :
  single_slot s ->
  tasks s !! i = Some (Task c h (Flushing text)) ->
  write_failed i e s = Some s' ->
  observe s' (Own c) = Rejected e
  /\ observe s' (Settles_with h) = Unsettled
  /\ wedged h s'
  /\ this_db s' = this_db s /\ bank_json s' = bank_json s.
Proof.
  intros H E. unfold write_failed. rewrite E. intros [= <-].
  destruct (single_slot_task _ _ _ H E) as (-> & Et & Ew & Ec & Ep).
  simpl in *. unfold observe, settled, wedged; simpl.
  rewrite list_lookup_insert_eq by (by eapply lookup_lt_Some).
  rewrite Ep, Et. repeat split; try done.
  unfold settled; simpl. by rewrite Ep.
Qed.

(** From then on no call and no event changes that: nothing is written
    again. *)
Lemma wedged_forever (h : handle) (l : list action) (s s' : store) :
  wedged h s -> run hash cmp l s = Some s' ->
  wedged h s' /\ bank_json s' = bank_json s.
Proof.
  revert s. induction l as [|a l IH]; intros s H; simpl; [by intros [= <-]|].
  destruct (step hash cmp a s) as [s1|] eqn:E; [|done]. simpl. intros Hrun.
  assert (wedged h s1 /\ bank_json s1 = bank_json s) as [H1 E1].
  { revert E.
    apply (hoare_call (fun x => wedged h x /\ bank_json x = bank_json s)).
    - by intros s0 l0 H0.
    - intros s0 [(Hw & Ht & Hs) Hb]. unfold scheduleWrite. by rewrite Hw.
    - intros now f t a0 m. apply hoare_createTransaction_blind.
      + by intros s0 l0 H0.
      + intros s0 [(Hw & Ht & Hs) Hb]. unfold scheduleWrite. by rewrite Hw.
      + by intros s0 tx H0.
    - intros i [(_ & Ht & _) _]. unfold timer_fires. by rewrite Ht.
    - intros i [(_ & Ht & _) _]. unfold write_done. by rewrite Ht.
    - intros i e [(_ & Ht & _) _]. unfold write_failed. by rewrite Ht.
    - done. }
  destruct (IH s1 H1 Hrun) as [H2 E2]. split; [done|congruence].
Qed.

(** Every transfer logged by the methods has an accepted amount. *)
Lemma step_logged_amounts (a : action) (s s' : store) :
  logged_amounts_accepted s -> step hash cmp a s = Some s' ->
  logged_amounts_accepted s'.
Proof.
  apply hoare_call.
  - by intros s0 l H.
  - intros s0 H. unfold logged_amounts_accepted. by rewrite scheduleWrite_db.
  - intros now f t a0 m.
    apply (hoare_createTransaction logged_amounts_accepted
             logged_amounts_accepted logged_amounts_accepted).
    + by intros s0 l H.
    + intros s0 H. unfold logged_amounts_accepted. by rewrite scheduleWrite_db.
    + by intros s0 l H.
    + intros s0 H. unfold logged_amounts_accepted. by rewrite scheduleWrite_db.
    + done.
    + done.
    + intros ne Ha s0 H. apply Forall_app. split; [done|]. by constructor.
  - intros i H. unfold timer_fires.
    destruct (tasks s !! i) as [[c h [|]]|]; try done. by intros [= <-].
  - intros i H. unfold write_done.
    destruct (tasks s !! i) as [[c h [|]]|]; try done. by intros [= <-].
  - intros i e H. unfold write_failed.
    destruct (tasks s !! i) as [[c h [|]]|]; try done. by intros [= <-].
Qed.

Lemma run_logged_amounts (l : list action) (s s' : store) :
  logged_amounts_accepted s -> run hash cmp l s = Some s' ->
  logged_amounts_accepted s'.
Proof.
  revert s. induction l as [|a l IH]; intros s H; simpl; [congruence|].
  destruct (step hash cmp a s) as [s1|] eqn:E; [|done]. simpl.
  apply IH. by eapply step_logged_amounts.
Qed.

(** So, from a store loaded with an empty log, whatever the methods and the
    event loop do, a recalculated balance is the ledger balance. *)
Lemma balance_after_any_run
    (accounts : list student) (l : list action) (s : store)
    (uu : jsstring) (i : nat) :
  run hash cmp l (boot (Db accounts [])) = Some s ->
  the_account (students (this_db s)) uu i ->
  exists b s',
    getStudentBalance (IdStr uu) true s = (Return b, s')
    /\ strict_eq (of_Z b)
         (ledger_balance (IdStr uu) (transactions (this_db s))) = true.
Proof.
  intros Hrun Hacc.
  exists (replay (IdStr uu) (transactions (this_db s))),
         (recalculated (IdStr uu) i s).
  split; [by apply getStudentBalance_recalc|].
  apply replay_is_ledger_balance.
  assert (logged_amounts_accepted s) as H.
  { eapply run_logged_amounts; [|exact Hrun]. constructor. }
  eapply Forall_impl; [exact H|].
  intros tx [(z & R & Hz) _]. exists z. split; [lia|done].
Qed.

End Steps.

(** The statement of C7 applied to a run in which two callers request a
    write, an account is created and the timer fires. *)
Lemma at_most_one_write_cycle_witness :
  exists s,
    run Demo.hash Demo.compare
      [CallScheduleWrite; CallScheduleWrite;
       CallCreateStudent [lit "f00d"] (lit "Master Chief") (lit "Spartan-117");
       TimerFires 0]
      (boot (Db [Demo.cortana 0] [])) = Some s
    /\ (length (tasks s) <= 1)%nat
    /\ (forall t, t ∈ tasks s ->
        settled s (t_handle t) = Unsettled
        /\ scheduleWrite s = (Return (Settles_with (t_handle t)), s))
    /\ (forall h, writeP s = Some h ->
        scheduleWrite s = (Return (Settles_with h), s)).
Proof.
  eexists. split; [vm_compute; reflexivity|].
  apply (at_most_one_write_cycle Demo.hash Demo.compare
           (Db [Demo.cortana 0] [])
           [CallScheduleWrite; CallScheduleWrite;
            CallCreateStudent [lit "f00d"] (lit "Master Chief") (lit "Spartan-117");
            TimerFires 0]).
  vm_compute. reflexivity.
Defined.

(** C8, at the failing input.  One caller starts a cycle, a second joins
    it, the timer fires and the write fails.  The starter's own promise is
    rejected; the handle the second caller holds stays unsettled;
    [this.writeP] still holds it although nothing is suspended; and the
    next call is handed the same handle and starts nothing. *)
Theorem failed_write_wedges_the_scheduler :
  let e := WriteError 28 in
  let d := Db [Demo.cortana 0] [] in
  let s1 := (scheduleWrite (boot d)).2 in
  (scheduleWrite (boot d)).1 = Return (Own 0%nat)
  /\ scheduleWrite s1 = (Return (Settles_with 0%nat), s1)
  /\ timer_fires 0 s1 = Some Demo.flushing
  /\ exists s2,
       write_failed 0 e Demo.flushing = Some s2
       /\ observe s2 (Own 0%nat) = Rejected e
       /\ observe s2 (Settles_with 0%nat) = Unsettled
       /\ writeP s2 = Some 0%nat
       /\ tasks s2 = []
       /\ scheduleWrite s2 = (Return (Settles_with 0%nat), s2)
       /\ bank_json s2 = None.
Proof. vm_compute. repeat split. eexists. repeat split. Qed.

(** * Looking accounts up *)

Lemma getStudentByUUID_absent (s : store) (u : ident) :
  absent (students (this_db s)) u ->
  getStudentByUUID u s = (Return None, s).
Proof.
  intros H. unfold getStudentByUUID, bind, get_students, filter_refs.
  rewrite refs_from_none; [done|].
  intros j y Hj. apply H. by eapply list_elem_of_lookup_2.
Qed.

Lemma refs_from_unique_uuid (l : list student) (u : ident) (k : nat) :
  NoDup (uuid <$> l) ->
  (length (refs_from (fun x => IdStr (uuid x) = u) k l) <= 1)%nat.
Proof.
  revert k. induction l as [|x l IH]; intros k H; simpl; [lia|].
  rewrite fmap_cons in H. apply NoDup_cons in H as [Hx Hl].
  destruct (decide (IdStr (uuid x) = u)) as [<-|ne]; [|by apply IH].
  rewrite refs_from_none; simpl; [lia|].
  intros j y Hj [= E]. apply Hx. rewrite <- E.
  apply list_elem_of_fmap. exists y. split; [done|].
  by eapply list_elem_of_lookup_2.
Qed.

Lemma filter_unique_name (l : list student) (n : jsstring) :
  NoDup (name <$> l) ->
  (length (filter (fun x => name x = n) l) <= 1)%nat.
Proof.
  induction l as [|x l IH]; intros H; [rewrite filter_nil; simpl; lia|].
  rewrite fmap_cons in H. apply NoDup_cons in H as [Hx Hl].
  rewrite filter_cons. destruct (decide (name x = n)) as [<-|ne]; [|by apply IH].
  assert (filter (fun y => name y = name x) l = []) as ->; [|simpl; lia].
  apply length_zero_iff_nil, Nat.eqb_eq.
  apply (filter_absent (fun y => name y = name x)).
  intros y Hy E. apply Hx. rewrite <- E.
  apply list_elem_of_fmap. by exists y.
Qed.

Lemma refs_from_unique_name (l : list student) (n : jsstring) (k : nat) :
  NoDup (name <$> l) ->
  (length (refs_from (fun x => name x = n) k l) <= 1)%nat.
Proof.
  revert k. induction l as [|x l IH]; intros k H; simpl; [lia|].
  rewrite fmap_cons in H. apply NoDup_cons in H as [Hx Hl].
  destruct (decide (name x = n)) as [<-|ne]; [|by apply IH].
  rewrite refs_from_none; simpl; [lia|].
  intros j y Hj E. apply Hx. rewrite <- E.
  apply list_elem_of_fmap. exists y. split; [done|].
  by eapply list_elem_of_lookup_2.
Qed.

(** What [getStudentByUUID(u, true)] can do: find the one account, find
    none, or end the process because several accounts match. *)
Lemma getStudentByUUID_cases (s : store) (u : ident) :
  (exists uu i, u = IdStr uu /\ the_account (students (this_db s)) uu i
                /\ getStudentByUUID u s = (Return (Some i), s))
  \/ (absent (students (this_db s)) u
      /\ getStudentByUUID u s = (Return None, s))
  \/ (~ NoDup (uuid <$> students (this_db s))
      /\ getStudentByUUID u s = (Exit ERRORS.DUPLICATE, s)).
Proof.
  unfold getStudentByUUID, bind, get_students, getStudentCheck.
  destruct (filter_refs (fun x => IdStr (uuid x) = u) (students (this_db s)))
    as [|i [|i' r]] eqn:E.
  - right; left. split; [|done]. intros x Hx.
    by apply (refs_from_empty _ _ _ E).
  - left. destruct u as [n|uu].
    + by rewrite no_account_for_number in E.
    + exists uu, i. split; [done|]. split; [|done]. by apply the_account_of_refs.
  - right; right. split; [|done]. intros H.
    pose proof (refs_from_unique_uuid _ u 0 H) as L.
    unfold filter_refs in E. rewrite E in L. simpl in L. lia.
Qed.

Lemma getStudentBalance_cached (s : store) (uu : jsstring) (i : nat) (x : student) :
  the_account (students (this_db s)) uu i ->
  students (this_db s) !! i = Some x ->
  getStudentBalance (IdStr uu) false s = (Return (balance x), s).
Proof.
  intros Hacc Hx. unfold getStudentBalance. rewrite decide_False by done.
  unfold bind at 1. rewrite (getStudentByUUID_found _ _ _ Hacc).
  unfold bind, ret, get_students. by rewrite Hx.
Qed.

(** What [getStudentBalance(u, recalc)] can do. *)
Lemma getStudentBalance_cases (s : store) (u : ident) (recalc : bool) :
  (u = IdNum 0 /\ getStudentBalance u recalc s = (Return 10000, s))
  \/ (exists uu i x,
        u = IdStr uu /\ the_account (students (this_db s)) uu i
        /\ students (this_db s) !! i = Some x
        /\ getStudentBalance u recalc s
           = if recalc
             then (Return (replay u (transactions (this_db s))),
                   recalculated u i s)
             else (Return (balance x), s))
  \/ (u <> IdNum 0 /\ absent (students (this_db s)) u
      /\ getStudentBalance u recalc s = (Throw (StudentMissing u), s))
  \/ (~ NoDup (uuid <$> students (this_db s))
      /\ getStudentBalance u recalc s = (Exit ERRORS.DUPLICATE, s)).
Proof.
  destruct (decide (u = IdNum 0)) as [->|ne]; [by left|]. right.
  destruct (getStudentByUUID_cases s u)
    as [(uu & i & -> & Hacc & E)|[[Ha E]|[Hd E]]].
  - left. destruct (Hacc) as [(x & Hx & Ex) _]. exists uu, i, x.
    split; [done|]. split; [done|]. split; [done|].
    destruct recalc; [by apply getStudentBalance_recalc|].
    unfold getStudentBalance. rewrite decide_False by done.
    unfold bind at 1. rewrite E. unfold bind, ret, get_students. by rewrite Hx.
  - right; left. split; [done|]. split; [done|].
    unfold getStudentBalance. rewrite decide_False by done.
    unfold bind. by rewrite E.
  - right; right. split; [done|].
    unfold getStudentBalance. rewrite decide_False by done.
    unfold bind. by rewrite E.
Qed.

(** * Replaying a longer log *)

Lemma replay_snoc (u : ident) (log : list transaction) (tx : transaction) :
  replay u (log ++ [tx]) = reducer u (replay u log) tx.
Proof. unfold replay. by rewrite foldl_snoc. Qed.

Lemma replay_received (u : ident) (log : list transaction) (tx : transaction) (z : Z) :
  to tx = u -> from tx <> u -> is_integer (amount tx) z ->
  - 2 ^ 31 <= z < 2 ^ 31 ->
  replay u (log ++ [tx]) = replay u log + z.
Proof.
  intros Ht Hf Hz R. rewrite replay_snoc. unfold reducer.
  rewrite (toInt32_integer _ _ Hz R).
  rewrite (bool_decide_eq_true_2 (to tx = u)),
    (bool_decide_eq_false_2 (from tx = u)) by done. simpl. lia.
Qed.

Lemma replay_sent (u : ident) (log : list transaction) (tx : transaction) (z : Z) :
  from tx = u -> to tx <> u -> is_integer (amount tx) z ->
  - 2 ^ 31 <= z < 2 ^ 31 ->
  replay u (log ++ [tx]) = replay u log - z.
Proof.
  intros Hf Ht Hz R. rewrite replay_snoc. unfold reducer.
  rewrite (toInt32_integer _ _ Hz R).
  rewrite (bool_decide_eq_true_2 (from tx = u)),
    (bool_decide_eq_false_2 (to tx = u)) by done. simpl. lia.
Qed.

Lemma replay_bystander (u : ident) (log : list transaction) (tx : transaction) :
  from tx <> u -> to tx <> u -> replay u (log ++ [tx]) = replay u log.
Proof.
  intros Hf Ht. rewrite replay_snoc. unfold reducer.
  rewrite !bool_decide_eq_false_2 by done. simpl. lia.
Qed.

Lemma replay_stranger (u : ident) (log : list transaction) :
  Forall (fun tx => from tx <> u /\ to tx <> u) log -> replay u log = 0.
Proof.
  induction log as [|tx log IH] using rev_ind; [done|].
  intros H. apply Forall_app in H as [H1 H2].
  apply Forall_singleton in H2 as [Hf Ht].
  rewrite replay_bystander by done. by apply IH.
Qed.

(** * What a transfer does, case by case *)

Lemma scheduleWrite_set (s : store) :
  is_Some (writeP s) -> exists r, scheduleWrite s = (Return r, s).
Proof. intros [h E]. unfold scheduleWrite. rewrite E. by eexists. Qed.

Lemma recalculated_pending (u : ident) (i : nat) (s : store) :
  is_Some (writeP (recalculated u i s)).
Proof. apply scheduleWrite_pending. Qed.

Lemma the_account_recalculated (s : store) (u : ident) (i : nat)
    (uu : jsstring) (j : nat) :
  the_account (students (this_db s)) uu j ->
  the_account (students (this_db (recalculated u i s))) uu j.
Proof. rewrite recalculated_students. apply the_account_alter. Qed.

Lemma the_account_inj (l : list student) (uu : jsstring) (i j : nat) :
  the_account l uu i -> the_account l uu j -> i = j.
Proof. intros [(x & Hx & E) _] [_ U]. by eapply U. Qed.

Lemma the_account_known (l : list student) (uu : jsstring) (i : nat) :
  the_account l uu i -> known l (IdStr uu).
Proof.
  intros [(x & Hx & E) _]. exists x. split; [|by rewrite E].
  by eapply list_elem_of_lookup_2.
Qed.

Lemma accepted_checks (a : number) :
  accepted_amount a ->
  strict_eq a (of_Z (toInt32 a)) = true /\ le a (of_Z 0) = false.
Proof.
  intros (z & R & Hz). apply (accepted_passes_the_checks a z); [done|lia].
Qed.

Lemma checks_accepted (a : number) :
  strict_eq a (of_Z (toInt32 a)) = true -> le a (of_Z 0) = false ->
  accepted_amount a.
Proof.
  intros E1 E2. apply integral_check in E1 as (z & R & Hz).
  exists z. split; [|done]. rewrite (le_integer _ _ _ Hz) in E2. lia.
Qed.

(** A deposit to the one account with uuid [tu]. *)
Lemma createTransaction_deposit
    (now : Z) (tu : jsstring) (j : nat) (a : number) (m : jsstring) (s : store) :
  the_account (students (this_db s)) tu j ->
  accepted_amount a ->
  let tx := Transaction now (IdNum 0) (IdStr tu) a m in
  createTransaction now (IdNum 0) (IdStr tu) a m s
  = (Return (Some (10000, replay (IdStr tu) (transactions (this_db s) ++ [tx]))),
     recalculated (IdStr tu) j (pushed tx s)).
Proof.
  intros Hacc Ha tx. destruct (accepted_checks _ Ha) as [E1 E2].
  unfold createTransaction. rewrite decide_False, E1 by done.
  cbn [negb]. rewrite E2, decide_True by done.
  unfold bind at 1. unfold ret at 1.
  unfold bind at 1. rewrite (getStudentByUUID_found _ _ _ Hacc).
  unfold bind at 1. unfold ret at 1.
  unfold bind at 1. fold tx.
  change (push_transaction tx s) with (Return tt, pushed tx s).
  unfold bind at 1. unfold getStudentBalance at 1. rewrite decide_True by done.
  unfold ret at 1. unfold bind at 1.
  rewrite (getStudentBalance_recalc (pushed tx s) tu j) by done.
  unfold bind.
  destruct (scheduleWrite_set _ (recalculated_pending (IdStr tu) j (pushed tx s)))
    as [r ->].
  done.
Qed.

(** A transfer between two accounts that the balance of the sender
    covers. *)
Lemma createTransaction_transfer
    (now : Z) (fu tu : jsstring) (i j : nat) (a : number) (z : Z)
    (m : jsstring) (s : store) :
  the_account (students (this_db s)) fu i ->
  the_account (students (this_db s)) tu j ->
  fu <> tu ->
  is_integer a z -> 1 <= z <= 2 ^ 31 - 1 ->
  z <= replay (IdStr fu) (transactions (this_db s)) ->
  let tx := Transaction now (IdStr fu) (IdStr tu) a m in
  let log' := transactions (this_db s) ++ [tx] in
  createTransaction now (IdStr fu) (IdStr tu) a m s
  = (Return (Some (replay (IdStr fu) log', replay (IdStr tu) log')),
     recalculated (IdStr tu) j
       (recalculated (IdStr fu) i
          (pushed tx (recalculated (IdStr fu) i s)))).
Proof.
  intros Hf Ht Hne Hz R Hb tx log'.
  destruct (accepted_passes_the_checks a z Hz ltac:(lia)) as [E1 E2].
  unfold createTransaction. rewrite decide_False, E1 by congruence.
  cbn [negb]. rewrite E2, decide_False by done.
  unfold bind at 1. unfold bind at 1.
  rewrite (getStudentBalance_recalc _ _ _ Hf). unfold ret at 1.
  rewrite (lt_integer _ _ _ Hz).
  destruct (Z.ltb_spec (replay (IdStr fu) (transactions (this_db s))) z); [lia|].
  set (s1 := recalculated (IdStr fu) i s).
  assert (the_account (students (this_db s1)) fu i) as Hf1
    by by apply the_account_recalculated.
  assert (the_account (students (this_db s1)) tu j) as Ht1
    by by apply the_account_recalculated.
  unfold bind at 1. rewrite (getStudentByUUID_found _ _ _ Ht1).
  unfold bind at 1. unfold ret at 1.
  unfold bind at 1. fold tx.
  change (push_transaction tx s1) with (Return tt, pushed tx s1).
  unfold bind at 1.
  rewrite (getStudentBalance_recalc (pushed tx s1) fu i) by done.
  set (s3 := recalculated (IdStr fu) i (pushed tx s1)).
  unfold bind at 1.
  rewrite (getStudentBalance_recalc s3 tu j)
    by (by apply the_account_recalculated).
  unfold bind.
  destruct (scheduleWrite_set _ (recalculated_pending (IdStr tu) j s3)) as [r ->].
  unfold s3. rewrite recalculated_log. unfold pushed; simpl.
  unfold s1. rewrite recalculated_log. done.
Qed.

(** The receiver is not a stored account (the reservoir included). *)
Lemma createTransaction_deposit_to_nobody
    (now : Z) (t : ident) (a : number) (m : jsstring) (s : store) :
  t <> IdNum 0 -> absent (students (this_db s)) t -> accepted_amount a ->
  createTransaction now (IdNum 0) t a m s = (Throw (StudentMissing t), s).
Proof.
  intros Hne Habs Ha. destruct (accepted_checks _ Ha) as [E1 E2].
  unfold createTransaction. rewrite decide_False, E1 by done.
  cbn [negb]. rewrite E2, decide_True by done.
  unfold bind at 1. unfold ret at 1.
  unfold bind at 1. by rewrite (getStudentByUUID_absent _ _ Habs).
Qed.

Lemma createTransaction_transfer_to_nobody
    (now : Z) (fu : jsstring) (i : nat) (t : ident) (a : number) (z : Z)
    (m : jsstring) (s : store) :
  the_account (students (this_db s)) fu i ->
  IdStr fu <> t -> absent (students (this_db s)) t ->
  is_integer a z -> 1 <= z <= 2 ^ 31 - 1 ->
  z <= replay (IdStr fu) (transactions (this_db s)) ->
  createTransaction now (IdStr fu) t a m s
  = (Throw (StudentMissing t), recalculated (IdStr fu) i s).
Proof.
  intros Hf Hne Habs Hz R Hb.
  destruct (accepted_passes_the_checks a z Hz ltac:(lia)) as [E1 E2].
  unfold createTransaction. rewrite decide_False, E1 by congruence.
  cbn [negb]. rewrite E2, decide_False by done.
  unfold bind at 1. unfold bind at 1.
  rewrite (getStudentBalance_recalc _ _ _ Hf). unfold ret at 1.
  rewrite (lt_integer _ _ _ Hz).
  destruct (Z.ltb_spec (replay (IdStr fu) (transactions (this_db s))) z); [lia|].
  unfold bind at 1. rewrite getStudentByUUID_absent; [done|].
  rewrite recalculated_students. intros x Hx.
  apply list_elem_of_lookup_1 in Hx as [k Hk].
  destruct (decide (i = k)) as [->|nk].
  - rewrite list_lookup_alter_eq in Hk.
    destruct (students (this_db s) !! k) as [y|] eqn:Hy; [|done].
    injection Hk as <-. simpl. eapply Habs. by eapply list_elem_of_lookup_2.
  - rewrite list_lookup_alter_ne in Hk by done.
    eapply Habs. by eapply list_elem_of_lookup_2.
Qed.

Lemma getStudentBalance_absent (u : ident) (recalc : bool) (s : store) :
  u <> IdNum 0 -> absent (students (this_db s)) u ->
  getStudentBalance u recalc s = (Throw (StudentMissing u), s).
Proof.
  intros Hne Habs. unfold getStudentBalance. rewrite decide_False by done.
  unfold bind. by rewrite (getStudentByUUID_absent _ _ Habs).
Qed.

(** The sender is not a stored account. *)
Lemma createTransaction_from_nobody
    (now : Z) (f t : ident) (a : number) (m : jsstring) (s : store) :
  f <> IdNum 0 -> f <> t -> absent (students (this_db s)) f ->
  accepted_amount a ->
  createTransaction now f t a m s = (Throw (StudentMissing f), s).
Proof.
  intros Hne Hft Habs Ha. destruct (accepted_checks _ Ha) as [E1 E2].
  unfold createTransaction. rewrite decide_False, E1 by done.
  cbn [negb]. rewrite E2, decide_False by done.
  unfold bind at 1. unfold bind at 1.
  by rewrite (getStudentBalance_absent _ _ _ Hne Habs).
Qed.

Lemma absent_recalculated (s : store) (u : ident) (i : nat) (t : ident) :
  absent (students (this_db (recalculated u i s))) t <->
  absent (students (this_db s)) t.
Proof.
  rewrite recalculated_students. unfold absent. split; intros H x Hx.
  - apply list_elem_of_lookup_1 in Hx as [k Hk].
    destruct (decide (i = k)) as [->|nk].
    + apply (H (set_balance (replay u (transactions (this_db s))) x)).
      eapply list_elem_of_lookup_2. by rewrite list_lookup_alter_eq, Hk.
    + apply (H x). eapply list_elem_of_lookup_2.
      by rewrite list_lookup_alter_ne.
  - apply list_elem_of_lookup_1 in Hx as [k Hk].
    destruct (decide (i = k)) as [->|nk].
    + rewrite list_lookup_alter_eq in Hk.
      destruct (students (this_db s) !! k) as [y|] eqn:Hy; [|done].
      injection Hk as <-. simpl. eapply H. by eapply list_elem_of_lookup_2.
    + rewrite list_lookup_alter_ne in Hk by done.
      eapply H. by eapply list_elem_of_lookup_2.
Qed.

Lemma uuids_recalculated (s : store) (u : ident) (i : nat) :
  uuid <$> students (this_db (recalculated u i s))
  = uuid <$> students (this_db s).
Proof.
  rewrite recalculated_students. apply list_eq. intros k.
  rewrite !list_lookup_fmap. destruct (decide (i = k)) as [->|nk].
  - rewrite list_lookup_alter_eq. by destruct (students (this_db s) !! k).
  - by rewrite list_lookup_alter_ne.
Qed.

Lemma getStudentByUUID_recalculated (t u : ident) (i : nat) (s : store) :
  getStudentByUUID t (recalculated u i s)
  = ((getStudentByUUID t s).1, recalculated u i s).
Proof.
  unfold getStudentByUUID, bind, get_students, filter_refs.
  rewrite recalculated_students, refs_from_alter by done.
  unfold getStudentCheck. by destruct (1 <? length _)%nat.
Qed.

Lemma createTransaction_cases
    (now : Z) (f t : ident) (a : number) (m : jsstring) (s : store) :
  transfer_case now f t a m s
    (createTransaction now f t a m s).1 (createTransaction now f t a m s).2.
Proof.
  destruct (decide (f = t)) as [e|Hft].
  { unfold createTransaction. rewrite decide_True by done. by constructor. }
  destruct (strict_eq a (of_Z (toInt32 a))) eqn:E1.
  2:{ unfold createTransaction. rewrite decide_False, E1 by done.
      by constructor. }
  destruct (le a (of_Z 0)) eqn:E2.
  { unfold createTransaction. rewrite decide_False, E1 by done. cbn [negb].
    rewrite E2. by constructor. }
  pose proof (checks_accepted _ E1 E2) as Ha.
  destruct Ha as (z & R & Hz).
  assert (accepted_amount a) as Ha by by exists z.
  destruct (decide (f = IdNum 0)) as [->|Hf0].
  - destruct (getStudentByUUID_cases s t)
      as [(tu & j & -> & Ht & _)|[[Habs _]|[Hd E]]].
    + rewrite (createTransaction_deposit _ _ _ _ _ _ Ht Ha). by econstructor.
    + rewrite (createTransaction_deposit_to_nobody _ _ _ _ _ ltac:(done) Habs Ha).
      by constructor.
    + assert (createTransaction now (IdNum 0) t a m s
              = (Exit ERRORS.DUPLICATE, s)) as ->; [|constructor; by auto].
      unfold createTransaction. rewrite decide_False, E1 by done. cbn [negb].
      rewrite E2, decide_True by done.
      unfold bind at 1. unfold ret at 1. unfold bind. by rewrite E.
  - destruct (getStudentBalance_cases s f true)
      as [[-> _]|[(fu & i & x & -> & Hf & _ & Ef)|[(_ & Habs & _)|[Hd Ef]]]];
      [done| | |].
    + destruct (Z_lt_le_dec (replay (IdStr fu) (transactions (this_db s))) z)
        as [Hlow|Hok].
      * assert (createTransaction now (IdStr fu) t a m s
                = (Return None, recalculated (IdStr fu) i s)) as ->.
        { unfold createTransaction. rewrite decide_False, E1 by done.
          cbn [negb]. rewrite E2, decide_False by done.
          unfold bind at 1. unfold bind at 1. rewrite Ef. unfold ret at 1.
          rewrite (lt_integer _ _ _ Hz).
          by destruct (Z.ltb_spec (replay (IdStr fu) (transactions (this_db s))) z);
            [|lia]. }
        by econstructor.
      * destruct (getStudentByUUID_cases s t)
          as [(tu & j & -> & Ht & _)|[[Habs _]|[Hd E]]].
        -- rewrite (createTransaction_transfer now fu tu i j a z m s);
             try done; [|congruence].
           econstructor; try done. congruence.
        -- rewrite (createTransaction_transfer_to_nobody now fu i t a z m s);
             try done.
           by econstructor.
        -- assert (createTransaction now (IdStr fu) t a m s
                   = (Exit ERRORS.DUPLICATE, recalculated (IdStr fu) i s)) as ->.
           2:{ constructor; [done|]. right. by exists fu, i. }
           unfold createTransaction. rewrite decide_False, E1 by done.
           cbn [negb]. rewrite E2, decide_False by done.
           unfold bind at 1. unfold bind at 1. rewrite Ef. unfold ret at 1.
           rewrite (lt_integer _ _ _ Hz).
           destruct (Z.ltb_spec (replay (IdStr fu) (transactions (this_db s))) z);
             [lia|].
           unfold bind. rewrite getStudentByUUID_recalculated. by rewrite E.
    + rewrite (createTransaction_from_nobody _ _ _ _ _ _ Hf0 Hft Habs Ha).
      by constructor.
    + assert (createTransaction now f t a m s = (Exit ERRORS.DUPLICATE, s)) as ->;
        [|constructor; by auto].
      unfold createTransaction. rewrite decide_False, E1 by done.
      cbn [negb]. rewrite E2, decide_False by done.
      unfold bind at 1. unfold bind at 1. by rewrite Ef.
Qed.

(** * What creating an account does, case by case *)

Lemma uuid_loop_exhausted (draws : list jsstring) (l : list student) :
  uuid_loop draws l = None -> forall u, u ∈ draws -> known l (IdStr u).
Proof.
  induction draws as [|d draws IH]; simpl; [by intros _ u Hu; inversion Hu|].
  destruct (length (filter (fun x => uuid x = d) l) =? 0)%nat eqn:E; [done|].
  simpl. intros H u Hu. apply elem_of_cons in Hu as [->|Hu]; [|by apply IH].
  apply (filter_present (fun x => uuid x = d)) in E as (x & Hx & Ex).
  exists x. split; [done|by rewrite Ex].
Qed.

Lemma createStudent_cases
    (hash : jsstring -> Z -> jsstring) (draws : list jsstring)
    (n p : jsstring) (s : store) :
  let l := students (this_db s) in
  (exists e, createStudent hash draws n p s = (Throw e, s)
             /\ (kind_of e = ValidationError
                 \/ (e = UserExists n /\ exists x, x ∈ l /\ name x = n)))
  \/ (createStudent hash draws n p s = (Unfinished, s)
      /\ forall u, u ∈ draws -> known l (IdStr u))
  \/ (exists u,
        createStudent hash draws n p s
        = (Return u, created (Student u n (hash p 10) 0) s)
        /\ uuid_loop draws l = Some u /\ absent l (IdStr u)
        /\ (forall y, y ∈ l -> name y <> n)
        /\ trim n = n /\ n <> [] /\ (10 <= length p)%nat).
Proof.
  intros l. subst l. unfold createStudent.
  case_bool_decide as E1; simpl; [|left; exists NameHasSpaces; by auto].
  destruct n as [|c r]; [left; exists NameMissing; by auto|]. simpl.
  destruct (length p <? 10)%nat eqn:E3; [left; exists PasswordTooShort; by auto|].
  apply Nat.ltb_ge in E3.
  destruct (length (filter (fun x => name x = c :: r) (students (this_db s)))
            =? 0)%nat eqn:E4.
  2:{ left. exists (UserExists (c :: r)). unfold bind, get_students.
      rewrite E4. split; [done|]. right. split; [done|].
      by apply (filter_present (fun x => name x = c :: r)). }
  destruct (uuid_loop draws (students (this_db s))) as [u|] eqn:Eu.
  - right; right. exists u. destruct (uuid_loop_fresh _ _ _ Eu) as [Hu Hf].
    split.
    + unfold bind, push_student, created, get_students. rewrite E4, Eu. simpl.
      destruct (scheduleWrite_returns
                  (with_db (Db (students (this_db s)
                                ++ [Student u (c :: r) (hash p 10) 0])
                               (transactions (this_db s))) s)) as [r0 ->].
      done.
    + split; [done|]. split; [intros x Hx [= E]; by apply (Hf x)|].
      split; [by apply (filter_absent (fun x => name x = c :: r))|done].
  - right; left. unfold bind, get_students. rewrite E4, Eu.
    split; [done|]. by apply uuid_loop_exhausted.
Qed.

(** * Every call changes the database in one of five ways *)

Lemma recalculated_db (u : ident) (i : nat) (s : store) :
  this_db (recalculated u i s)
  = Db (alter (set_balance (replay u (transactions (this_db s)))) i
              (students (this_db s)))
       (transactions (this_db s)).
Proof. unfold recalculated. by rewrite scheduleWrite_db. Qed.

Lemma created_db (x : student) (s : store) :
  this_db (created x s)
  = Db (students (this_db s) ++ [x]) (transactions (this_db s)).
Proof. unfold created. by rewrite scheduleWrite_db. Qed.

Lemma set_balance_over (b b' : Z) (l : list student) (i : nat) :
  alter (set_balance b') i (alter (set_balance b) i l)
  = alter (set_balance b') i l.
Proof.
  rewrite list_alter_alter_eq. apply list_alter_ext; [|done]. by intros [] _.
Qed.

Lemma createStudent_db_step hash draws n p s :
  db_step (this_db s) (this_db (createStudent hash draws n p s).2).
Proof.
  destruct (createStudent_cases hash draws n p s)
    as [(e & -> & _)|[[-> _]|(u & -> & _ & Hu & Hn & _)]]; simpl;
    try apply db_same.
  rewrite created_db.
  by apply (db_create _ (Student u n (hash p 10) 0)).
Qed.

Lemma getStudentBalance_db_step u recalc s :
  db_step (this_db s) (this_db (getStudentBalance u recalc s).2).
Proof.
  destruct (getStudentBalance_cases s u recalc)
    as [[_ ->]|[(uu & i & x & -> & Hacc & _ & ->)|[(_ & _ & ->)|[_ ->]]]];
    simpl; try apply db_same.
  destruct recalc; simpl; [|apply db_same].
  rewrite recalculated_db. by apply db_recalc.
Qed.

Lemma createTransaction_db_step now f t a m s :
  db_step (this_db s) (this_db (createTransaction now f t a m s).2).
Proof.
  pose proof (createTransaction_cases now f t a m s) as H.
  destruct (createTransaction now f t a m s) as [r s']. simpl in *.
  inversion H as [| |s1 Hd [->|(fu & i & -> & Hf & ->)]| | | | |]; subst;
    try apply db_same.
  - rewrite recalculated_db. by apply db_recalc.
  - rewrite recalculated_db. by apply db_recalc.
  - rewrite recalculated_db. by apply db_recalc.
  - rewrite recalculated_db. unfold pushed; simpl.
    by apply (db_deposit _ (Transaction now (IdNum 0) (IdStr tu) a m) tu j).
  - rewrite !recalculated_db. unfold pushed; simpl.
    rewrite recalculated_db; simpl. rewrite set_balance_over.
    by apply (db_transfer _ (Transaction now (IdStr fu) (IdStr tu) a m)
                fu tu i j z).
Qed.

(** * What the five changes keep *)

Lemma lookup_set_balance (b : Z) (i k : nat) (l : list student) (y : student) :
  alter (set_balance b) i l !! k = Some y ->
  exists x, l !! k = Some x
            /\ uuid y = uuid x /\ name y = name x /\ pash y = pash x
            /\ ((k = i /\ balance y = b) \/ (k <> i /\ y = x)).
Proof.
  destruct (decide (i = k)) as [->|ne].
  - rewrite list_lookup_alter_eq. destruct (l !! k) as [x|]; [|done].
    intros [= <-]. exists x. by auto 10.
  - rewrite list_lookup_alter_ne by done. intros H. exists y. by auto 10.
Qed.

Lemma set_balance_lookup (b : Z) (i k : nat) (l : list student) (x : student) :
  l !! k = Some x ->
  alter (set_balance b) i l !! k
  = Some (if decide (i = k) then set_balance b x else x).
Proof.
  intros H. destruct (decide (i = k)) as [->|ne].
  - by rewrite list_lookup_alter_eq, H.
  - by rewrite list_lookup_alter_ne.
Qed.

Lemma uuids_set_balance (b : Z) (i : nat) (l : list student) :
  uuid <$> alter (set_balance b) i l = uuid <$> l.
Proof.
  apply list_eq. intros k. rewrite !list_lookup_fmap.
  destruct (l !! k) as [x|] eqn:E.
  - rewrite (set_balance_lookup _ _ _ _ _ E). by destruct (decide (i = k)).
  - destruct (alter (set_balance b) i l !! k) as [y|] eqn:E'; [|done].
    apply lookup_set_balance in E' as (x & ? & _). congruence.
Qed.

Lemma names_set_balance (b : Z) (i : nat) (l : list student) :
  name <$> alter (set_balance b) i l = name <$> l.
Proof.
  apply list_eq. intros k. rewrite !list_lookup_fmap.
  destruct (l !! k) as [x|] eqn:E.
  - rewrite (set_balance_lookup _ _ _ _ _ E). by destruct (decide (i = k)).
  - destruct (alter (set_balance b) i l !! k) as [y|] eqn:E'; [|done].
    apply lookup_set_balance in E' as (x & ? & _). congruence.
Qed.

Lemma known_uuids (l l' : list student) (u : ident) :
  uuid <$> l = uuid <$> l' -> known l u -> known l' u.
Proof.
  intros E (x & Hx & <-). apply list_elem_of_lookup_1 in Hx as [k Hk].
  assert ((uuid <$> l') !! k = Some (uuid x)) as H.
  { by rewrite <- E, list_lookup_fmap, Hk. }
  rewrite list_lookup_fmap in H. destruct (l' !! k) as [y|] eqn:Hy; [|done].
  injection H as H. exists y. split; [by eapply list_elem_of_lookup_2|].
  by rewrite H.
Qed.

Lemma known_grows (l : list student) (x : student) (u : ident) :
  known l u -> known (l ++ [x]) u.
Proof.
  intros (y & Hy & E). exists y. split; [|done].
  apply elem_of_app. by left.
Qed.

Lemma absent_not_known (l : list student) (u : ident) :
  absent l u -> ~ known l u.
Proof. intros H (x & Hx & E). by apply (H x). Qed.

Lemma db_step_unique (d d' : db) :
  db_step d d' -> unique_accounts d -> unique_accounts d'.
Proof.
  intros H [Hu Hn]. destruct H as [|x Hx Hnx _|uu i _|tx tu j _ _ _ _|tx fu tu i j z];
    unfold unique_accounts; simpl;
    rewrite ?uuids_set_balance, ?names_set_balance; try done.
  rewrite !fmap_app. simpl. split; apply NoDup_app.
  - split; [done|]. split; [|apply NoDup_singleton].
    intros u Hu1 Hu2. apply list_elem_of_singleton in Hu2 as ->.
    apply list_elem_of_fmap in Hu1 as (y & Ey & Hy).
    apply (Hx y Hy). by rewrite Ey.
  - split; [done|]. split; [|apply NoDup_singleton].
    intros u Hu1 Hu2. apply list_elem_of_singleton in Hu2 as ->.
    apply list_elem_of_fmap in Hu1 as (y & Ey & Hy).
    by apply (Hnx y Hy).
Qed.

Lemma sound_log_students (l l' : list student) (log : list transaction) :
  (forall u, known l u -> known l' u) ->
  sound_log (Db l log) -> sound_log (Db l' log).
Proof.
  intros H. unfold sound_log; simpl. intros Hs.
  eapply Forall_impl; [exact Hs|].
  intros tx (Ha & Hne & Hf & Ht). repeat split; try done; [|by apply H].
  destruct Hf as [Hf|Hf]; [by left|right; by apply H].
Qed.

Lemma db_step_sound_log (d d' : db) :
  db_step d d' -> sound_log d -> sound_log d'.
Proof.
  intros H Hs.
  destruct H as [|x Hx Hnx _|uu i _|tx tu j Ef Et Ht Ha
                 |tx fu tu i j z Ef Et Hne Hf Ht Hz R Hb].
  - done.
  - apply (sound_log_students (students d)); [|by destruct d].
    intros u. apply known_grows.
  - apply (sound_log_students (students d)); [|by destruct d].
    intros u. apply known_uuids. by rewrite uuids_set_balance.
  - apply (sound_log_students (students d)).
    { intros u. apply known_uuids. by rewrite uuids_set_balance. }
    unfold sound_log; simpl. apply Forall_app. split; [done|].
    apply Forall_singleton. repeat split; try done.
    + rewrite Ef, Et. done.
    + by left.
    + rewrite Et. by eapply the_account_known.
  - apply (sound_log_students (students d)).
    { intros u. apply known_uuids. by rewrite !uuids_set_balance. }
    unfold sound_log; simpl. apply Forall_app. split; [done|].
    apply Forall_singleton. repeat split.
    + by exists z.
    + rewrite Ef, Et. congruence.
    + right. rewrite Ef. by eapply the_account_known.
    + rewrite Et. by eapply the_account_known.
Qed.

Lemma db_step_solvent (d d' : db) :
  db_step d d' -> solvent d -> solvent d'.
Proof.
  intros H Hs.
  destruct H as [|x Hx Hnx _|uu i _|tx tu j Ef Et Ht (z & R & Hz)
                 |tx fu tu i j z Ef Et Hne Hf Ht Hz R Hb]; try done;
    intros u Hu; simpl.
  - destruct (decide (to tx = u)) as [E|E].
    + rewrite (replay_received u _ tx z); try done; [|congruence|lia].
      specialize (Hs u Hu). lia.
    + rewrite replay_bystander; [by apply Hs|congruence|done].
  - destruct (decide (from tx = u)) as [E|E].
    + rewrite (replay_sent u _ tx z); try done; [|congruence|lia].
      rewrite <- E, Ef. lia.
    + destruct (decide (to tx = u)) as [E'|E'].
      * rewrite (replay_received u _ tx z); try done; [|lia].
        specialize (Hs u Hu). lia.
      * rewrite replay_bystander; [by apply Hs|done|done].
Qed.

Lemma db_step_grows (d d' : db) :
  db_step d d' ->
  transactions d `prefix_of` transactions d'
  /\ continues (students d) (students d').
Proof.
  intros H.
  assert (forall b i l, continues l (alter (set_balance b) i l)) as Halter.
  { intros b i l k x Hk. rewrite (set_balance_lookup _ _ _ _ _ Hk).
    eexists. split; [done|]. by destruct (decide (i = k)). }
  destruct H as [|x _ _ _|uu i _|tx tu j _ _ _ _|tx fu tu i j z _ _ _ _ _ _ _ _];
    simpl.
  - split; [done|]. intros k x Hk. by exists x.
  - split; [done|]. intros k y Hk. exists y. split; [|done].
    by apply lookup_app_l_Some.
  - split; [done|]. apply Halter.
  - split; [by apply prefix_app_r|]. apply Halter.
  - split; [by apply prefix_app_r|]. intros k x Hk.
    destruct (Halter (replay (IdStr fu) (transactions d ++ [tx])) i (students d)
                k x Hk) as (y & Hy & E1 & E2 & E3).
    destruct (Halter (replay (IdStr tu) (transactions d ++ [tx])) j _ k y Hy)
      as (y' & Hy' & E1' & E2' & E3').
    exists y'. split; [done|]. repeat split; congruence.
Qed.

Lemma db_step_cache (d d' : db) :
  db_step d d' -> sound_log d -> cache_current d -> cache_current d'.
Proof.
  intros H Hs Hc.
  destruct H as [|x Hx Hnx Hb|uu i Hacc|tx tu j Ef Et Ht (z & R & Hz)
                 |tx fu tu i j z Ef Et Hne Hf Ht Hz R Hb]; try done;
    intros y Hy; simpl in *.
  - apply elem_of_app in Hy as [Hy|Hy]; [by apply Hc|].
    apply list_elem_of_singleton in Hy as ->. rewrite Hb. symmetry.
    apply replay_stranger. eapply Forall_impl; [exact Hs|].
    intros tx (_ & _ & Hf & Ht). split.
    + destruct Hf as [->|Hf]; [done|]. intros E. rewrite E in Hf.
      by apply (absent_not_known _ _ Hx).
    + intros E. rewrite E in Ht. by apply (absent_not_known _ _ Hx).
  - apply list_elem_of_lookup_1 in Hy as [k Hk].
    apply lookup_set_balance in Hk as (x & Hx & Eu & _ & _ & [[-> Eb]|[ne ->]]).
    + rewrite Eb, Eu. destruct Hacc as [(x0 & Hx0 & E0) _]. congruence.
    + apply Hc. by eapply list_elem_of_lookup_2.
  - apply list_elem_of_lookup_1 in Hy as [k Hk].
    apply lookup_set_balance in Hk as (x & Hx & Eu & _ & _ & [[-> Eb]|[ne ->]]).
    + rewrite Eb, Eu. destruct Ht as [(x0 & Hx0 & E0) _]. congruence.
    + rewrite replay_bystander.
      * apply Hc. by eapply list_elem_of_lookup_2.
      * by rewrite Ef.
      * rewrite Et. intros [= E]. destruct Ht as [_ U]. by apply ne, (U k x).
  - apply list_elem_of_lookup_1 in Hy as [k Hk].
    apply lookup_set_balance in Hk as (x & Hx & Eu & _ & _ & [[-> Eb]|[ne ->]]).
    + rewrite Eb, Eu.
      apply lookup_set_balance in Hx as (x' & Hx' & Eu' & _).
      destruct Ht as [(x0 & Hx0 & E0) _]. congruence.
    + apply lookup_set_balance in Hx as (x' & Hx' & Eu' & _ & _ & [[-> Eb]|[ne' ->]]).
      * rewrite Eb, Eu'. destruct Hf as [(x0 & Hx0 & E0) _]. congruence.
      * rewrite replay_bystander.
        -- apply Hc. by eapply list_elem_of_lookup_2.
        -- rewrite Ef. intros [= E]. destruct Hf as [_ U]. by apply ne', (U k x').
        -- rewrite Et. intros [= E]. destruct Ht as [_ U]. by apply ne, (U k x').
Qed.

(** * Runs *)

Section Runs.
Variable hash : jsstring -> Z -> jsstring.
Variable cmp : jsstring -> jsstring -> bool.

Lemma after_state {A} (m : M A) (s s' : store) :
  after (m s) = Some s' -> s' = (m s).2.
Proof. unfold after. destruct (m s) as [[?|?|?|] ?]; simpl; congruence. Qed.

Lemma step_db_step (a : action) (s s' : store) :
  step hash cmp a s = Some s' -> db_step (this_db s) (this_db s').
Proof.
  destruct a as [draws n p|n p|u r|now f t a m| |i|i|i e]; simpl; intros H.
  - apply after_state in H as ->. apply createStudent_db_step.
  - apply after_state in H as ->. rewrite verifyStudent_pure. apply db_same.
  - apply after_state in H as ->. apply getStudentBalance_db_step.
  - apply after_state in H as ->. apply createTransaction_db_step.
  - apply after_state in H as ->. rewrite scheduleWrite_db. apply db_same.
  - unfold timer_fires in H.
    destruct (tasks s !! i) as [[c h [|]]|]; try done. injection H as <-.
    apply db_same.
  - unfold write_done in H.
    destruct (tasks s !! i) as [[c h [|]]|]; try done. injection H as <-.
    apply db_same.
  - unfold write_failed in H.
    destruct (tasks s !! i) as [[c h [|]]|]; try done. injection H as <-.
    apply db_same.
Qed.

Lemma run_db_invariant (I : db -> Prop) (l : list action) (s s' : store) :
  (forall d d', db_step d d' -> I d -> I d') ->
  I (this_db s) -> run hash cmp l s = Some s' -> I (this_db s').
Proof.
  intros HI. revert s. induction l as [|a l IH]; intros s H; simpl.
  - by intros [= <-].
  - destruct (step hash cmp a s) as [s1|] eqn:E; [|done]. simpl.
    apply IH. eapply HI; [|done]. by eapply step_db_step.
Qed.

End Runs.

(** * Transfers that go through, and transfers that cannot *)

(** Membership goals over a concrete account list. *)
Ltac each_account H :=
  repeat (let E := fresh in
          apply elem_of_cons in H as [E|H];
          [try discriminate E; try subst; try discriminate|]);
  try solve [inversion H].

(** X1.  A deposit from the reservoir to the one account with uuid [tu],
    of an integer amount [z] between 1 and 2^31 - 1, returns 10000 for the
    reservoir and the account's replayed balance plus [z]; it appends
    exactly the requested transfer, stores the new balance in the account's
    cache and leaves a write pending. *)
Theorem deposit_credits_the_account
    (now : Z) (tu : jsstring) (j : nat) (a : number) (z : Z) (m : jsstring)
    (s : store) :
  the_account (students (this_db s)) tu j ->
  is_integer a z -> 1 <= z <= 2 ^ 31 - 1 ->
  let before := replay (IdStr tu) (transactions (this_db s)) in
  exists s',
    createTransaction now (IdNum 0) (IdStr tu) a m s
    = (Return (Some (10000, before + z)), s')
    /\ transactions (this_db s')
       = transactions (this_db s) ++ [Transaction now (IdNum 0) (IdStr tu) a m]
    /\ students (this_db s')
       = alter (set_balance (before + z)) j (students (this_db s))
    /\ is_Some (writeP s').
Proof.
  intros Hacc Hz R before.
  set (tx := Transaction now (IdNum 0) (IdStr tu) a m).
  assert (replay (IdStr tu) (transactions (this_db s) ++ [tx]) = before + z) as E.
  { apply replay_received; try done. lia. }
  exists (recalculated (IdStr tu) j (pushed tx s)).
  split; [|split; [|split]].
  - rewrite (createTransaction_deposit now tu j a m s Hacc) by by exists z.
    fold tx. by rewrite E.
  - by rewrite recalculated_log.
  - rewrite recalculated_students. unfold pushed; simpl. by rewrite E.
  - apply recalculated_pending.
Qed.

Lemma deposit_credits_the_account_witness :
  exists s',
    createTransaction 6 (IdNum 0) (IdStr Demo.cortana_id) (of_Z 7) [] Demo.funded
    = (Return (Some (10000, 20 + 7)), s')
    /\ transactions (this_db s')
       = transactions (this_db Demo.funded)
         ++ [Transaction 6 (IdNum 0) (IdStr Demo.cortana_id) (of_Z 7) []]
    /\ students (this_db s')
       = alter (set_balance (20 + 7)) 0%nat (students (this_db Demo.funded))
    /\ is_Some (writeP s').
Proof.
  apply (deposit_credits_the_account 6 Demo.cortana_id 0%nat (of_Z 7) 7 []
           Demo.funded).
  - apply the_account_of_refs. reflexivity.
  - reflexivity.
  - lia.
Defined.

(** X2.  A transfer of [z] between two distinct accounts, when the sender's
    replayed balance is at least [z], returns the sender's balance minus
    [z] and the receiver's plus [z] (their sum is unchanged); it appends
    exactly the requested transfer and stores both new balances. *)
Theorem transfer_moves_the_amount
    (now : Z) (fu tu : jsstring) (i j : nat) (a : number) (z : Z)
    (m : jsstring) (s : store) :
  the_account (students (this_db s)) fu i ->
  the_account (students (this_db s)) tu j ->
  fu <> tu ->
  is_integer a z -> 1 <= z <= 2 ^ 31 - 1 ->
  z <= replay (IdStr fu) (transactions (this_db s)) ->
  let bf := replay (IdStr fu) (transactions (this_db s)) in
  let bt := replay (IdStr tu) (transactions (this_db s)) in
  exists s',
    createTransaction now (IdStr fu) (IdStr tu) a m s
    = (Return (Some (bf - z, bt + z)), s')
    /\ transactions (this_db s')
       = transactions (this_db s) ++ [Transaction now (IdStr fu) (IdStr tu) a m]
    /\ students (this_db s')
       = alter (set_balance (bt + z)) j
           (alter (set_balance (bf - z)) i (students (this_db s)))
    /\ is_Some (writeP s').
Proof.
  intros Hf Ht Hne Hz R Hb bf bt.
  set (tx := Transaction now (IdStr fu) (IdStr tu) a m).
  assert (replay (IdStr fu) (transactions (this_db s) ++ [tx]) = bf - z) as Ef.
  { apply replay_sent; try done; [simpl; congruence|lia]. }
  assert (replay (IdStr tu) (transactions (this_db s) ++ [tx]) = bt + z) as Et.
  { apply replay_received; try done; [simpl; congruence|lia]. }
  exists (recalculated (IdStr tu) j
            (recalculated (IdStr fu) i (pushed tx (recalculated (IdStr fu) i s)))).
  split; [|split; [|split]].
  - rewrite (createTransaction_transfer now fu tu i j a z m s) by done.
    fold tx. by rewrite Ef, Et.
  - rewrite !recalculated_log. unfold pushed; simpl. by rewrite recalculated_log.
  - rewrite !recalculated_students, !recalculated_log. unfold pushed; simpl.
    rewrite !recalculated_students, !recalculated_log.
    fold tx. by rewrite set_balance_over, Ef, Et.
  - apply recalculated_pending.
Qed.

Lemma transfer_moves_the_amount_witness :
  exists s',
    createTransaction 7 (IdStr Demo.cortana_id) (IdStr Demo.zangetsu_id)
      (of_Z 5) [] Demo.funded
    = (Return (Some (20 - 5, 0 + 5)), s')
    /\ transactions (this_db s')
       = transactions (this_db Demo.funded)
         ++ [Transaction 7 (IdStr Demo.cortana_id) (IdStr Demo.zangetsu_id)
               (of_Z 5) []]
    /\ students (this_db s')
       = alter (set_balance (0 + 5)) 1%nat
           (alter (set_balance (20 - 5)) 0%nat (students (this_db Demo.funded)))
    /\ is_Some (writeP s').
Proof.
  apply (transfer_moves_the_amount 7 Demo.cortana_id Demo.zangetsu_id
           0%nat 1%nat (of_Z 5) 5 [] Demo.funded).
  - apply the_account_of_refs. reflexivity.
  - apply the_account_of_refs. reflexivity.
  - discriminate.
  - reflexivity.
  - lia.
  - vm_compute. discriminate.
Defined.

(** X3.  When the receiver is not a stored account, no call returns
    balances and no call appends to the log, whoever the sender and
    whatever the amount. *)
Theorem no_receiver_no_transfer
    (now : Z) (f t : ident) (a : number) (m : jsstring) (s : store) :
  absent (students (this_db s)) t ->
  (forall bal, (createTransaction now f t a m s).1 <> Return (Some bal))
  /\ transactions (this_db (createTransaction now f t a m s).2)
     = transactions (this_db s).
Proof.
  intros Habs. pose proof (createTransaction_cases now f t a m s) as H.
  destruct (createTransaction now f t a m s) as [r s']. simpl in *.
  inversion H as [| |s1 Hd [->|(fu & i & -> & Hf & ->)]| | | 
                  |tu j E1 E2 Ht|fu tu i j z E1 E2 Hne Hf Ht]; subst;
    rewrite ?recalculated_log; try done.
  - exfalso. by apply (absent_not_known _ _ Habs), (the_account_known _ _ j).
  - exfalso. by apply (absent_not_known _ _ Habs), (the_account_known _ _ j).
Qed.

Lemma no_receiver_no_transfer_witness :
  (forall bal,
     (createTransaction 8 (IdNum 0) (IdStr (lit "nobody")) (of_Z 5) []
        Demo.funded).1 <> Return (Some bal))
  /\ transactions
       (this_db (createTransaction 8 (IdNum 0) (IdStr (lit "nobody")) (of_Z 5) []
                   Demo.funded).2)
     = transactions (this_db Demo.funded).
Proof.
  apply (no_receiver_no_transfer 8 (IdNum 0) (IdStr (lit "nobody")) (of_Z 5) []
           Demo.funded).
  intros x Hx. simpl in Hx. each_account Hx.
Defined.

(** X4.  When the sender is neither the reservoir nor a stored account, the
    call throws (a validation error, or else the not-found error for the
    sender) and leaves the whole store as it was. *)
Theorem unknown_sender_changes_nothing
    (now : Z) (f t : ident) (a : number) (m : jsstring) (s : store) :
  f <> IdNum 0 -> absent (students (this_db s)) f ->
  exists e,
    createTransaction now f t a m s = (Throw e, s)
    /\ (kind_of e = ValidationError \/ e = StudentMissing f).
Proof.
  intros Hne Habs.
  destruct (decide (f = t)) as [e|Hft].
  { exists SelfTransfer. unfold createTransaction.
    rewrite decide_True by done. by auto. }
  destruct (strict_eq a (of_Z (toInt32 a))) eqn:E1.
  2:{ exists AmountNotInteger. unfold createTransaction.
      rewrite decide_False, E1 by done. by auto. }
  destruct (le a (of_Z 0)) eqn:E2.
  { exists AmountNotPositive. unfold createTransaction.
    rewrite decide_False, E1 by done. cbn [negb]. rewrite E2. by auto. }
  exists (StudentMissing f). split; [|by right].
  apply createTransaction_from_nobody; try done. by apply checks_accepted.
Qed.

Lemma unknown_sender_changes_nothing_witness :
  exists e,
    createTransaction 9 (IdStr (lit "nobody")) (IdStr Demo.cortana_id)
      (of_Z 5) [] Demo.funded = (Throw e, Demo.funded)
    /\ (kind_of e = ValidationError \/ e = StudentMissing (IdStr (lit "nobody"))).
Proof.
  apply (unknown_sender_changes_nothing 9 (IdStr (lit "nobody"))
           (IdStr Demo.cortana_id) (of_Z 5) [] Demo.funded).
  - discriminate.
  - intros x Hx. simpl in Hx. each_account Hx.
Defined.

(** X5.  A call appends to the log exactly when it returns balances, and
    then it appends exactly the requested transfer; in every other case
    (an error, a declined transfer, an exit) the log is as it was. *)
Theorem log_grows_exactly_on_success
    (now : Z) (f t : ident) (a : number) (m : jsstring) (s : store) :
  let r := createTransaction now f t a m s in
  ((exists bal, r.1 = Return (Some bal))
   /\ transactions (this_db r.2)
      = transactions (this_db s) ++ [Transaction now f t a m])
  \/ ((forall bal, r.1 <> Return (Some bal))
      /\ transactions (this_db r.2) = transactions (this_db s)).
Proof.
  intros r. subst r. pose proof (createTransaction_cases now f t a m s) as H.
  destruct (createTransaction now f t a m s) as [r s']. simpl in *.
  inversion H as [| |s1 Hd [->|(fu & i & -> & Hf & ->)]| | | | |]; subst;
    rewrite ?recalculated_log; try (right; done).
  - left. split; [by eexists|]. done.
  - left. split; [by eexists|]. unfold pushed; simpl.
    by rewrite recalculated_log.
Qed.

(** X6.  Asking for the balance of an identifier that is neither the
    reservoir nor a stored account throws the not-found error, with or
    without recalculation, and changes nothing. *)
Theorem balance_of_an_unknown_id
    (u : ident) (recalc : bool) (s : store) :
  u <> IdNum 0 -> absent (students (this_db s)) u ->
  getStudentBalance u recalc s = (Throw (StudentMissing u), s)
  /\ kind_of (StudentMissing u) = NotFoundError.
Proof. intros Hne Habs. split; [by apply getStudentBalance_absent|done]. Qed.

Lemma balance_of_an_unknown_id_witness :
  getStudentBalance (IdNum 7) true Demo.funded
  = (Throw (StudentMissing (IdNum 7)), Demo.funded)
  /\ kind_of (StudentMissing (IdNum 7)) = NotFoundError.
Proof.
  apply (balance_of_an_unknown_id (IdNum 7) true Demo.funded).
  - discriminate.
  - intros x Hx. discriminate.
Defined.

(** * The integer check *)

Section Throws.
Context {A B : Type} (P : error -> Prop).

Lemma throws_only_ret (a : A) : throws_only P (ret a).
Proof. by intros s e. Qed.

Lemma throws_only_throw (e : error) : P e -> throws_only P (@throw A e).
Proof. intros H s e' [= <-]. done. Qed.

Lemma throws_only_bind (m : M A) (k : A -> M B) :
  throws_only P m -> (forall a, throws_only P (k a)) ->
  throws_only P (bind m k).
Proof.
  intros Hm Hk s e. unfold bind. specialize (Hm s).
  destruct (m s) as [[a|e'| |] s']; simpl in *; try done.
  - apply Hk.
  - intros [= <-]. by apply Hm.
Qed.

End Throws.

Lemma throws_only_getStudentByUUID (P : error -> Prop) (u : ident) :
  throws_only P (getStudentByUUID u).
Proof.
  intros s e.
  by destruct (getStudentByUUID_cases s u)
    as [(uu & i & _ & _ & ->)|[[_ ->]|[_ ->]]].
Qed.

Lemma throws_only_getStudentBalance (P : error -> Prop) (u : ident) (recalc : bool) :
  P (StudentMissing u) -> throws_only P (getStudentBalance u recalc).
Proof.
  intros H s e.
  destruct (getStudentBalance_cases s u recalc)
    as [[_ ->]|[(uu & i & x & _ & _ & _ & ->)|[(_ & _ & ->)|[_ ->]]]];
    try done.
  - by destruct recalc.
  - by intros [= <-].
Qed.

Lemma throws_only_scheduleWrite (P : error -> Prop) : throws_only P scheduleWrite.
Proof. intros s e. by destruct (scheduleWrite_returns s) as [r ->]. Qed.

(** Past its three checks, the only error a call of [createTransaction]
    throws is the not-found error, for the sender or for the receiver. *)
Lemma createTransaction_checked_throws
    (now : Z) (f t : ident) (a : number) (m : jsstring) (s : store) (e : error) :
  f <> t ->
  strict_eq a (of_Z (toInt32 a)) = true -> le a (of_Z 0) = false ->
  (createTransaction now f t a m s).1 = Throw e ->
  e = StudentMissing f \/ e = StudentMissing t.
Proof.
  intros Hft E1 E2. unfold createTransaction.
  rewrite decide_False, E1 by done. cbn [negb]. rewrite E2. revert s e.
  apply throws_only_bind.
  - case_decide; [apply throws_only_ret|].
    apply throws_only_bind; [|intros b; apply throws_only_ret].
    apply throws_only_getStudentBalance. by left.
  - intros [|]; [apply throws_only_ret|].
    apply throws_only_bind; [apply throws_only_getStudentByUUID|].
    intros r. apply throws_only_bind.
    { destruct r; [apply throws_only_ret|]. apply throws_only_throw. by right. }
    intros _. apply throws_only_bind; [by intros s e|].
    intros _. apply throws_only_bind.
    { apply throws_only_getStudentBalance. by left. }
    intros bf. apply throws_only_bind.
    { apply throws_only_getStudentBalance. by right. }
    intros bt. apply throws_only_bind; [apply throws_only_scheduleWrite|].
    intros _. apply throws_only_ret.
Qed.

(** The check of line 143 is reached when [from] and [to] differ, and
    throws exactly on the amounts outside the 32-bit integers. *)
Lemma createTransaction_not_integer
    (now : Z) (f t : ident) (a : number) (m : jsstring) (s : store) :
  f <> t -> ~ int32_amount a ->
  createTransaction now f t a m s = (Throw AmountNotInteger, s).
Proof.
  intros ne Hw. unfold createTransaction. rewrite decide_False by done.
  destruct (strict_eq a (of_Z (toInt32 a))) eqn:E; [|done].
  destruct Hw. by apply integral_check.
Qed.

(** C10 (as amended).  A call of [createTransaction] ends with 'Amounts
    must be integers' exactly when [from] and [to] differ and the amount
    is not an integer of the signed 32-bit range [-2^31, 2^31 - 1]; the
    store is then as it was.  (When they are the same, the call throws
    the self-transfer error, whatever the amount.)  So between distinct
    parties every integer amount of 2^31 or more is rejected with
    'Amounts must be integers'.  A call either leaves the log as it was
    or appends the requested transfer, whose amount is then an integer
    between 1 and 2^31 - 1; and every such amount does enter the log when
    it is deposited to a stored account. *)
Theorem integer_check_is_a_32_bit_check
    (now : Z) (f t : ident) (a : number) (m : jsstring) (s : store) :
  ((createTransaction now f t a m s).1 = Throw AmountNotInteger
   <-> f <> t /\ ~ int32_amount a)
  /\ (f = t -> createTransaction now f t a m s = (Throw SelfTransfer, s))
  /\ (f <> t -> ~ int32_amount a ->
      createTransaction now f t a m s = (Throw AmountNotInteger, s))
  /\ (forall z, is_integer a z -> 2 ^ 31 <= z -> f <> t ->
      createTransaction now f t a m s = (Throw AmountNotInteger, s))
  /\ (let s' := (createTransaction now f t a m s).2 in
      transactions (this_db s') = transactions (this_db s)
      \/ (transactions (this_db s')
          = transactions (this_db s) ++ [Transaction now f t a m]
          /\ accepted_amount a))
  /\ (forall tu j,
        f = IdNum 0 -> t = IdStr tu ->
        the_account (students (this_db s)) tu j -> accepted_amount a ->
        transactions (this_db (createTransaction now f t a m s).2)
        = transactions (this_db s) ++ [Transaction now f t a m]).
Proof.
  split; [split|split; [|split; [|split; [|split]]]].
  - intros H. destruct (decide (f = t)) as [e|ne].
    { unfold createTransaction in H. by rewrite decide_True in H. }
    split; [done|]. intros Hin. apply integral_check in Hin as E1.
    destruct (le a (of_Z 0)) eqn:E2.
    { unfold createTransaction in H.
      rewrite decide_False, E1 in H by done. cbn [negb] in H.
      by rewrite E2 in H. }
    by destruct (createTransaction_checked_throws _ _ _ _ _ _ _ ne E1 E2 H).
  - intros [ne Hw]. by rewrite createTransaction_not_integer.
  - intros e. unfold createTransaction. by rewrite decide_True.
  - apply createTransaction_not_integer.
  - intros z Hz R ne. apply createTransaction_not_integer; [done|].
    intros Hin. apply integral_check in Hin.
    by rewrite (int32_check_rejects_wide_integers _ z) in Hin.
  - set (L := transactions (this_db s)).
    apply (hoare_createTransaction
             (fun s' => transactions (this_db s') = L)
             (fun s' => transactions (this_db s') = L ++ [Transaction now f t a m]
                        /\ accepted_amount a)).
    + apply log_ignores_students.
    + apply log_ignores_schedule.
    + by intros s1 l H.
    + intros s1 [H1 H2]. split; [|done]. by rewrite scheduleWrite_db.
    + intros s1 H. by left.
    + intros s1 H. by right.
    + intros _ Ha s1 H1. simpl. by rewrite H1.
    + done.
  - intros tu j -> -> Ht Ha.
    rewrite (createTransaction_deposit _ _ _ _ _ _ Ht Ha).
    cbn [snd]. by rewrite recalculated_log.
Qed.

(** The statement applied to two deposits to Cortana: 2^31 is refused as
    not an integer, 40000 enters the log. *)
Lemma integer_check_is_a_32_bit_check_witness :
  createTransaction 5 (IdNum 0) (IdStr Demo.cortana_id) (of_Z 2147483648) []
    Demo.funded = (Throw AmountNotInteger, Demo.funded)
  /\ transactions
       (this_db (createTransaction 5 (IdNum 0) (IdStr Demo.cortana_id)
                   (of_Z 40000) [] Demo.funded).2)
     = transactions (this_db Demo.funded)
       ++ [Transaction 5 (IdNum 0) (IdStr Demo.cortana_id) (of_Z 40000) []].
Proof.
  split.
  - destruct (integer_check_is_a_32_bit_check 5 (IdNum 0) (IdStr Demo.cortana_id)
                (of_Z 2147483648) [] Demo.funded) as (_ & _ & _ & H & _).
    apply (H 2147483648); [reflexivity|lia|discriminate].
  - destruct (integer_check_is_a_32_bit_check 5 (IdNum 0) (IdStr Demo.cortana_id)
                (of_Z 40000) [] Demo.funded) as (_ & _ & _ & _ & _ & H).
    apply (H Demo.cortana_id 0%nat); [done|done| |].
    + apply the_account_of_refs. reflexivity.
    + exists 40000. split; [lia|reflexivity].
Defined.

(** C10 as stated fails when [from] and [to] are the same account: 2^31
    is a positive integer, and the call is rejected by line 142 with the
    self-transfer error, not with 'Amounts must be integers'. *)
Lemma wide_amount_to_oneself_is_a_self_transfer :
  is_integer (of_Z 2147483648) 2147483648
  /\ 0 < 2147483648 /\ 2 ^ 31 <= 2147483648
  /\ createTransaction 5 (IdStr Demo.cortana_id) (IdStr Demo.cortana_id)
       (of_Z 2147483648) [] Demo.funded = (Throw SelfTransfer, Demo.funded)
  /\ SelfTransfer <> AmountNotInteger.
Proof. repeat split; try done; try lia. Qed.

(** * What a call keeps when it runs alone *)

Section Single.
Variable hash : jsstring -> Z -> jsstring.
Variable cmp : jsstring -> jsstring -> bool.

(** X7.  A call that runs from its first statement to its end with no
    other call in flight keeps account uuids pairwise distinct and account
    names pairwise distinct, whichever method is called and whatever its
    arguments. *)
Theorem a_call_alone_keeps_accounts_unique (s : store) :
  unique_accounts (this_db s) ->
  (forall draws n p,
     unique_accounts (this_db (createStudent hash draws n p s).2))
  /\ (forall n p, unique_accounts (this_db (verifyStudent cmp n p s).2))
  /\ (forall u recalc,
        unique_accounts (this_db (getStudentBalance u recalc s).2))
  /\ (forall now f t a m,
        unique_accounts (this_db (createTransaction now f t a m s).2)).
Proof.
  intros H. split; [|split; [|split]]; intros.
  - by eapply db_step_unique; [apply createStudent_db_step|].
  - by rewrite verifyStudent_pure.
  - by eapply db_step_unique; [apply getStudentBalance_db_step|].
  - by eapply db_step_unique; [apply createTransaction_db_step|].
Qed.

(** X8.  A call that runs from its first statement to its end with no
    other call in flight overdraws no account: if no identifier but the
    reservoir's has a negative replayed balance before the call, none has
    after it. *)
Theorem a_call_alone_never_overdraws (s : store) :
  solvent (this_db s) ->
  (forall draws n p, solvent (this_db (createStudent hash draws n p s).2))
  /\ (forall n p, solvent (this_db (verifyStudent cmp n p s).2))
  /\ (forall u recalc, solvent (this_db (getStudentBalance u recalc s).2))
  /\ (forall now f t a m,
        solvent (this_db (createTransaction now f t a m s).2)).
Proof.
  intros H. split; [|split; [|split]]; intros.
  - by eapply db_step_solvent; [apply createStudent_db_step|].
  - by rewrite verifyStudent_pure.
  - by eapply db_step_solvent; [apply getStudentBalance_db_step|].
  - by eapply db_step_solvent; [apply createTransaction_db_step|].
Qed.

End Single.

(** The two statements applied to the demo store: an account is opened, 5
    is sent, and 15 is sent twice, the second time in vain. *)

Lemma a_call_alone_keeps_accounts_unique_witness :
  unique_accounts
    (this_db (createStudent Demo.hash [lit "f00d"] (lit "Master Chief")
                (lit "Spartan-117") Demo.funded).2)
  /\ unique_accounts
       (this_db (createTransaction 7 (IdStr Demo.cortana_id)
                   (IdStr Demo.zangetsu_id) (of_Z 5) [] Demo.funded).2).
Proof.
  destruct (a_call_alone_keeps_accounts_unique Demo.hash Demo.compare Demo.funded)
    as (H1 & _ & _ & H4).
  - split; apply (bool_decide_unpack _); vm_compute; exact I.
  - split; [apply H1|apply H4].
Defined.

Lemma a_call_alone_never_overdraws_witness :
  solvent
    (this_db (createTransaction 7 (IdStr Demo.cortana_id)
                (IdStr Demo.zangetsu_id) (of_Z 15) [] Demo.funded).2)
  /\ solvent
       (this_db (createTransaction 8 (IdStr Demo.cortana_id)
                   (IdStr Demo.zangetsu_id) (of_Z 15) []
                   (createTransaction 7 (IdStr Demo.cortana_id)
                      (IdStr Demo.zangetsu_id) (of_Z 15) [] Demo.funded).2).2).
Proof.
  destruct (a_call_alone_never_overdraws Demo.hash Demo.compare Demo.funded)
    as (_ & _ & _ & H4).
  - intros u Hu. unfold replay, reducer. cbn [foldl transactions this_db
      Demo.funded boot from to amount].
    change (toInt32 (of_Z 20)) with 20.
    rewrite (bool_decide_eq_false_2 (IdNum 0 = u)) by congruence.
    case_bool_decide; simpl; lia.
  - split; [apply H4|].
    destruct (a_call_alone_never_overdraws Demo.hash Demo.compare
                (createTransaction 7 (IdStr Demo.cortana_id)
                   (IdStr Demo.zangetsu_id) (of_Z 15) [] Demo.funded).2
                (H4 7 (IdStr Demo.cortana_id) (IdStr Demo.zangetsu_id)
                   (of_Z 15) []))
      as (_ & _ & _ & H5).
    apply H5.
Defined.

(** * What every run keeps *)

Section Kept.
Variable hash : jsstring -> Z -> jsstring.
Variable cmp : jsstring -> jsstring -> bool.

(** X9.  The log stays sound: every transfer in it has an integer amount
    between 1 and 2^31 - 1 and distinct parties, goes to a stored account
    and comes from the reservoir or from a stored account. *)
Theorem log_stays_sound (l : list action) (s s' : store) :
  sound_log (this_db s) ->
  run hash cmp l s = Some s' ->
  sound_log (this_db s').
Proof. apply run_db_invariant. apply db_step_sound_log. Qed.

(** X10.  Over a sound log the cached balances stay current, so that
    [getStudentBalance(uuid)] without recalculation returns the replayed
    balance of the account, and changes nothing. *)
Theorem cache_stays_current (l : list action) (s s' : store) :
  sound_log (this_db s) -> cache_current (this_db s) ->
  run hash cmp l s = Some s' ->
  cache_current (this_db s')
  /\ (forall uu i,
        the_account (students (this_db s')) uu i ->
        getStudentBalance (IdStr uu) false s'
        = (Return (replay (IdStr uu) (transactions (this_db s'))), s')).
Proof.
  intros Hs Hc Hrun.
  assert (sound_log (this_db s') /\ cache_current (this_db s')) as [_ Hc'].
  { apply (run_db_invariant hash cmp
             (fun d => sound_log d /\ cache_current d) l s s'); [|done|done].
    intros d d' Hd [H1 H2]. split; [by eapply db_step_sound_log|].
    by eapply db_step_cache. }
  split; [done|]. intros uu i Hacc.
  destruct (Hacc) as [(x & Hx & E) _].
  rewrite (getStudentBalance_cached _ _ _ _ Hacc Hx).
  rewrite (Hc' x); [by rewrite E|]. by eapply list_elem_of_lookup_2.
Qed.

Lemma continues_trans (l1 l2 l3 : list student) :
  continues l1 l2 -> continues l2 l3 -> continues l1 l3.
Proof.
  intros H1 H2 i x Hx. destruct (H1 i x Hx) as (y & Hy & ? & ? & ?).
  destruct (H2 i y Hy) as (w & Hw & ? & ? & ?).
  exists w. split; [done|]. repeat split; congruence.
Qed.

(** X11.  The log is only ever appended to, and an account, once stored,
    stays at its index with its uuid, its name and its password hash. *)
Theorem ledger_is_append_only (l : list action) (s s' : store) :
  run hash cmp l s = Some s' ->
  transactions (this_db s) `prefix_of` transactions (this_db s')
  /\ continues (students (this_db s)) (students (this_db s')).
Proof.
  revert s. induction l as [|a l IH]; intros s; simpl.
  - intros [= <-]. split; [done|]. intros i x Hx. by exists x.
  - destruct (step hash cmp a s) as [s1|] eqn:E; [|done]. simpl. intros Hrun.
    destruct (db_step_grows _ _ (step_db_step hash cmp _ _ _ E)) as [P1 C1].
    destruct (IH _ Hrun) as [P2 C2].
    split; [by etrans|by eapply continues_trans].
Qed.

End Kept.

(** The statements applied to the demo session, from an empty database. *)

Lemma log_stays_sound_witness :
  exists s',
    run Demo.hash Demo.compare Demo2.session (boot (Db [] [])) = Some s'
    /\ sound_log (this_db s').
Proof.
  eexists. split; [vm_compute; reflexivity|].
  apply (log_stays_sound Demo.hash Demo.compare Demo2.session (boot (Db [] []))).
  - constructor.
  - vm_compute. reflexivity.
Defined.

Lemma cache_stays_current_witness :
  exists s',
    run Demo.hash Demo.compare Demo2.session (boot (Db [] [])) = Some s'
    /\ cache_current (this_db s')
    /\ (forall uu i,
          the_account (students (this_db s')) uu i ->
          getStudentBalance (IdStr uu) false s'
          = (Return (replay (IdStr uu) (transactions (this_db s'))), s')).
Proof.
  eexists. split; [vm_compute; reflexivity|].
  apply (cache_stays_current Demo.hash Demo.compare Demo2.session
           (boot (Db [] []))).
  - constructor.
  - intros x Hx. inversion Hx.
  - vm_compute. reflexivity.
Defined.

Lemma ledger_is_append_only_witness :
  exists s',
    run Demo.hash Demo.compare
      [CallCreateTransaction 2 (IdStr Demo.cortana_id) (IdStr Demo.zangetsu_id)
         (of_Z 5) []] Demo.funded = Some s'
    /\ transactions (this_db Demo.funded) `prefix_of` transactions (this_db s')
    /\ continues (students (this_db Demo.funded)) (students (this_db s')).
Proof.
  eexists. split; [vm_compute; reflexivity|].
  apply (ledger_is_append_only Demo.hash Demo.compare
           [CallCreateTransaction 2 (IdStr Demo.cortana_id)
              (IdStr Demo.zangetsu_id) (of_Z 5) []] Demo.funded).
  vm_compute. reflexivity.
Defined.

(** * Duplicates are the only way out *)

Lemma getStudentByName_unique (n : jsstring) (s : store) :
  NoDup (name <$> students (this_db s)) ->
  forall c, (getStudentByName n s).1 <> Exit c.
Proof.
  intros H c. unfold getStudentByName, bind, get_students, getStudentCheck.
  pose proof (refs_from_unique_name (students (this_db s)) n 0 H) as L.
  unfold filter_refs.
  destruct (Nat.ltb_spec 1 (length (refs_from (fun x => name x = n) 0
                                      (students (this_db s))))); [lia|done].
Qed.

(** X12.  On a database whose accounts have distinct uuids and distinct
    names no method ends the process: [process.exit] is reached only
    through duplicated accounts. *)
Theorem unique_accounts_never_exit
    (hash : jsstring -> Z -> jsstring) (cmp : jsstring -> jsstring -> bool)
    (s : store) (c : bool) :
  unique_accounts (this_db s) ->
  (forall draws n p, (createStudent hash draws n p s).1 <> Exit c)
  /\ (forall n p, (verifyStudent cmp n p s).1 <> Exit c)
  /\ (forall u recalc, (getStudentBalance u recalc s).1 <> Exit c)
  /\ (forall now f t a m, (createTransaction now f t a m s).1 <> Exit c)
  /\ (forall u, (getStudentByUUID_copy u s).1 <> Exit c)
  /\ (forall n, (getStudentByName_copy n s).1 <> Exit c).
Proof.
  intros [Hu Hn]. repeat split.
  - intros draws n p.
    by destruct (createStudent_cases hash draws n p s)
      as [(e & -> & _)|[[-> _]|(u & -> & _)]].
  - intros n p. unfold verifyStudent.
    destruct (negb _); [done|]. unfold bind, get_students.
    pose proof (filter_unique_name (students (this_db s)) n Hn) as L.
    destruct (Nat.ltb_spec 1 (length (filter (fun x => name x = n)
                                        (students (this_db s))))); [lia|].
    destruct (filter _ _); [done|]. by destruct (negb _).
  - intros u recalc.
    destruct (getStudentBalance_cases s u recalc)
      as [[_ ->]|[(uu & i & x & _ & _ & _ & ->)|[(_ & _ & ->)|[Hd _]]]];
      try done. by destruct recalc.
  - intros now f t a m.
    pose proof (createTransaction_cases now f t a m s) as H.
    destruct (createTransaction now f t a m s) as [r s']. simpl in *.
    by inversion H.
  - intros u. unfold getStudentByUUID_copy, bind.
    by destruct (getStudentByUUID_cases s u)
      as [(uu & i & _ & _ & ->)|[[_ ->]|[Hd _]]].
  - intros n. unfold getStudentByName_copy, bind.
    pose proof (getStudentByName_unique n s Hn c) as H.
    pose proof (hoare_getStudentCheck (fun x => x = s)
                  (filter_refs (fun x => name x = n) (students (this_db s)))
                  s eq_refl) as E.
    unfold getStudentByName, bind, get_students in *.
    destruct (getStudentCheck _ s) as [[r|e|c'|] s1]; simpl in *;
      try done.
    intros [= ->]. by apply H.
Qed.

Lemma unique_accounts_never_exit_witness :
  (forall draws n p, (createStudent Demo.hash draws n p Demo.funded).1 <> Exit true)
  /\ (forall n p, (verifyStudent Demo.compare n p Demo.funded).1 <> Exit true)
  /\ (forall u recalc, (getStudentBalance u recalc Demo.funded).1 <> Exit true)
  /\ (forall now f t a m,
        (createTransaction now f t a m Demo.funded).1 <> Exit true)
  /\ (forall u, (getStudentByUUID_copy u Demo.funded).1 <> Exit true)
  /\ (forall n, (getStudentByName_copy n Demo.funded).1 <> Exit true).
Proof.
  apply (unique_accounts_never_exit Demo.hash Demo.compare Demo.funded true).
  split; apply (bool_decide_unpack _); vm_compute; exact I.
Defined.

(** * Creating an account, then finding it *)

Lemma createStudent_stores
    (hash : jsstring -> Z -> jsstring) (draws : list jsstring)
    (n p : jsstring) (s s' : store) (u : jsstring) :
  createStudent hash draws n p s = (Return u, s') ->
  s' = created (Student u n (hash p 10) 0) s
  /\ uuid_loop draws (students (this_db s)) = Some u
  /\ absent (students (this_db s)) (IdStr u)
  /\ (forall y, y ∈ students (this_db s) -> name y <> n).
Proof.
  intros H.
  destruct (createStudent_cases hash draws n p s)
    as [(e & E & _)|[[E _]|(u' & E & Hu & Ha & Hn & _)]];
    rewrite E in H; try done.
  by injection H as -> <-.
Qed.

Lemma refs_of_the_last {A} (P : A -> Prop) {Pdec : ∀ x, Decision (P x)}
    (l : list A) (x : A) :
  (forall y, y ∈ l -> ~ P y) -> P x ->
  filter_refs P (l ++ [x]) = [length l].
Proof.
  intros Hl Hx. unfold filter_refs.
  rewrite (refs_from_one P 0 (length l)); [done| |].
  - exists x. split; [|done]. by rewrite lookup_app_r, Nat.sub_diag.
  - intros j y Hj Py. apply lookup_app_Some in Hj as [Hj|[Hlen Hj]].
    + exfalso. eapply Hl; [|done]. by eapply list_elem_of_lookup_2.
    + destruct (j - length l)%nat as [|k] eqn:E; [lia|done].
Qed.

(** X13.  An account that [createStudent] has just returned the uuid of is
    found again: by its uuid and by its name the getters return a copy of
    the stored account (that uuid, that name, the hash of the password,
    balance 0), its cached balance reads 0, and [getAllStudents] lists it
    last, after the accounts that were there. *)
Theorem created_account_is_found
    (hash : jsstring -> Z -> jsstring) (draws : list jsstring)
    (n p : jsstring) (s s' : store) (u : jsstring) :
  createStudent hash draws n p s = (Return u, s') ->
  let x := Student u n (hash p 10) 0 in
  getStudentByUUID_copy (IdStr u) s' = (Return (Some x), s')
  /\ getStudentByName_copy n s' = (Return (Some x), s')
  /\ getStudentBalance (IdStr u) false s' = (Return 0, s')
  /\ getAllStudents s' = (Return (students (this_db s) ++ [x]), s').
Proof.
  intros H x. destruct (createStudent_stores _ _ _ _ _ _ _ H) as (-> & _ & Ha & Hn).
  fold x.
  assert (students (this_db (created x s)) = students (this_db s) ++ [x]) as El
    by by rewrite created_db.
  assert (filter_refs (fun y => IdStr (uuid y) = IdStr u)
            (students (this_db (created x s)))
          = [length (students (this_db s))]) as Eu.
  { rewrite El. apply (refs_of_the_last (fun y => IdStr (uuid y) = IdStr u));
      [|done]. intros y Hy. by apply Ha. }
  assert (filter_refs (fun y => name y = n) (students (this_db (created x s)))
          = [length (students (this_db s))]) as En.
  { rewrite El. by apply (refs_of_the_last (fun y => name y = n)). }
  assert (students (this_db (created x s)) !! length (students (this_db s))
          = Some x) as Ex.
  { rewrite El. by rewrite lookup_app_r, Nat.sub_diag. }
  repeat split.
  - unfold getStudentByUUID_copy, getStudentByUUID, copy_of, bind, get_students.
    rewrite Eu. simpl. by rewrite Ex.
  - unfold getStudentByName_copy, getStudentByName, copy_of, bind, get_students.
    rewrite En. simpl. by rewrite Ex.
  - by rewrite (getStudentBalance_cached _ u _ x (the_account_of_refs _ _ _ Eu) Ex).
  - unfold getAllStudents, bind, get_students, ret, breakRefs. by rewrite El.
Qed.

Lemma created_account_is_found_witness :
  exists u s',
    createStudent Demo.hash [Demo.cortana_id; lit "f00d"]
      (lit "Master Chief") (lit "Spartan-117") Demo.funded = (Return u, s')
    /\ let x := Student u (lit "Master Chief")
                  (Demo.hash (lit "Spartan-117") 10) 0 in
       getStudentByUUID_copy (IdStr u) s' = (Return (Some x), s')
       /\ getStudentByName_copy (lit "Master Chief") s' = (Return (Some x), s')
       /\ getStudentBalance (IdStr u) false s' = (Return 0, s')
       /\ getAllStudents s'
          = (Return (students (this_db Demo.funded) ++ [x]), s').
Proof.
  eexists. eexists. split; [vm_compute; reflexivity|].
  apply (created_account_is_found Demo.hash [Demo.cortana_id; lit "f00d"]
           (lit "Master Chief") (lit "Spartan-117") Demo.funded).
  vm_compute. reflexivity.
Defined.

(** * Verifying with a blank input *)

(** X14.  With a blank name or a blank password [verifyStudent] returns a
    result without an account whose list holds 'Name must not be blank'
    exactly when the name is blank, 'Password must not be blank' exactly
    when the password is, and nothing else; it does so before looking at
    the accounts, and changes nothing. *)
Theorem verifyStudent_blank_inputs
    (cmp : jsstring -> jsstring -> bool) (n p : jsstring) (s : store) :
  n = [] \/ p = [] ->
  exists errs,
    verifyStudent cmp n p s = (Return (Some (VerifyResult None errs)), s)
    /\ (NameBlank ∈ errs <-> n = [])
    /\ (PasswordBlank ∈ errs <-> p = [])
    /\ (forall e, e ∈ errs -> e = NameBlank \/ e = PasswordBlank).
Proof.
  intros H. unfold verifyStudent.
  destruct n as [|c n], p as [|d p]; simpl.
  - exists [NameBlank; PasswordBlank]. split; [done|].
    split; [split; [done|intros _; left]|].
    split; [split; [done|intros _; right; left]|].
    intros e He. each_account He; by auto.
  - exists [NameBlank]. split; [done|].
    split; [split; [done|intros _; left]|].
    split; [split; [intros He; each_account He|done]|].
    intros e He. each_account He; by auto.
  - exists [PasswordBlank]. split; [done|].
    split; [split; [intros He; each_account He|done]|].
    split; [split; [done|intros _; left]|].
    intros e He. each_account He; by auto.
  - by destruct H.
Qed.

Lemma verifyStudent_blank_inputs_witness :
  exists errs,
    verifyStudent Demo.compare [] (lit "GuiltySpark343") Demo.funded
    = (Return (Some (VerifyResult None errs)), Demo.funded)
    /\ (NameBlank ∈ errs <-> @nil N = [])
    /\ (PasswordBlank ∈ errs <-> lit "GuiltySpark343" = [])
    /\ (forall e, e ∈ errs -> e = NameBlank \/ e = PasswordBlank).
Proof.
  apply (verifyStudent_blank_inputs Demo.compare [] (lit "GuiltySpark343")
           Demo.funded).
  left. reflexivity.
Defined.

(** * Loading the file *)

Lemma trimStart_blank (s : jsstring) :
  Forall (fun c => is_whitespace c = true) s -> trimStart s = [].
Proof. induction 1 as [|c s Hc _ IH]; simpl; [done|]. by rewrite Hc. Qed.

(** X15.  A file that holds nothing but white space loads exactly as a
    missing file does: as a database with no accounts and no transfers,
    with no write pending, and without [JSON.parse] being consulted. *)
Theorem blank_file_loads_empty
    (parse : jsstring -> option parsed) (text : jsstring) :
  Forall (fun c => is_whitespace c = true) text ->
  constructor parse (Text text) = constructor parse Absent
  /\ constructor parse (Text text) = Return (boot (Db [] [])).
Proof.
  intros H. assert (trim text = []) as E.
  { unfold trim. by rewrite (trimStart_blank _ H). }
  unfold constructor. by rewrite E.
Qed.

Lemma blank_file_loads_empty_witness :
  constructor (fun _ => None) (Text (lit "  ")) = constructor (fun _ => None) Absent
  /\ constructor (fun _ => None) (Text (lit "  ")) = Return (boot (Db [] [])).
Proof.
  apply (blank_file_loads_empty (fun _ => None) (lit "  ")).
  repeat constructor.
Defined.

(** * Bursts of calls and the write they share *)

Section Bursts.
Variable hash : jsstring -> Z -> jsstring.
Variable cmp : jsstring -> jsstring -> bool.

Lemma call_keeps (I : store -> Prop) (a : action) (s s' : store) :
  is_call a = true ->
  ignores_students I -> ignores_schedule I ->
  (forall s tx, I s -> I (pushed tx s)) ->
  I s -> step hash cmp a s = Some s' -> I s'.
Proof.
  intros Ha H1 H2 H3 Hs.
  destruct a as [draws n p|n p|u r|now f t a m| |i|i|i e]; simpl; try done.
  - apply after_hoare; [by apply hoare_createStudent|done].
  - unfold after. pose proof (verifyStudent_pure cmp n p s) as E.
    destruct (verifyStudent cmp n p s) as [[?|?|?|] s1]; simpl in *; congruence.
  - apply after_hoare; [by apply hoare_getStudentBalance|done].
  - apply after_hoare; [|done]. by apply hoare_createTransaction_blind.
  - apply after_hoare; [by apply hoare_scheduleWrite|done].
Qed.



(** X17.  What a call changes while the write is in progress is not in
    the file when that write completes, and no further write is pending
    then: the file holds the database as it was when the timer fired. *)
Theorem late_mutation_misses_the_flush
    (a : action) (s s1 : store) (c : nat) (h : handle) (text : db) :
  single_slot s ->
  tasks s = [Task c h (Flushing text)] ->
  is_call a = true ->
  step hash cmp a s = Some s1 ->
  exists s2,
    write_done 0 s1 = Some s2
    /\ bank_json s2 = Some text
    /\ this_db s2 = this_db s1
    /\ writeP s2 = None /\ tasks s2 = [].
Proof.
  intros Hs Ht Ha Hstep.
  set (I := fun x : store =>
    tasks x = [Task c h (Flushing text)] /\ writeP x = Some h).
  assert (I s1) as [Ht1 Hw1].
  { apply (call_keeps I a s s1 Ha).
    - intros x tx Hx. exact Hx.
    - intros x [Hx1 Hx2]. unfold scheduleWrite. by rewrite Hx2.
    - intros x tx Hx. exact Hx.
    - split; [done|].
      by destruct (single_slot_task s 0 _ Hs ltac:(by rewrite Ht))
        as (_ & _ & ? & _).
    - done. }
  unfold write_done. rewrite Ht1. simpl. by eexists.
Qed.

End Bursts.


Lemma late_mutation_misses_the_flush_witness :
  exists s1 s2,
    step Demo.hash Demo.compare
      (CallCreateStudent [lit "f00d"] (lit "Master Chief") (lit "Spartan-117"))
      Demo.flushing = Some s1
    /\ write_done 0 s1 = Some s2
    /\ bank_json s2 = Some (Db [Demo.cortana 0] [])
    /\ this_db s2 = this_db s1
    /\ writeP s2 = None /\ tasks s2 = [].
Proof.
  destruct (step Demo.hash Demo.compare
              (CallCreateStudent [lit "f00d"] (lit "Master Chief")
                 (lit "Spartan-117")) Demo.flushing) as [s1|] eqn:E;
    [|vm_compute in E; discriminate E].
  destruct (late_mutation_misses_the_flush Demo.hash Demo.compare
              (CallCreateStudent [lit "f00d"] (lit "Master Chief")
                 (lit "Spartan-117"))
              Demo.flushing s1 0%nat 0%nat (Db [Demo.cortana 0] []))
    as (s2 & H).
  - split; [split; reflexivity|]. intros h [= <-]. reflexivity.
  - reflexivity.
  - reflexivity.
  - exact E.
  - exists s1, s2. split; [reflexivity|exact H].
Defined.

(** * The seeding script *)

Lemma createStudent_first_draw
    (hash : jsstring -> Z -> jsstring) (u : jsstring) (rest : list jsstring)
    (n p : jsstring) (s : store) :
  trim n = n -> n <> [] -> (10 <= length p)%nat ->
  (forall y, y ∈ students (this_db s) -> name y <> n) ->
  absent (students (this_db s)) (IdStr u) ->
  createStudent hash (u :: rest) n p s
  = (Return u, created (Student u n (hash p 10) 0) s).
Proof.
  intros Ht Hn Hp Hfree Habs. unfold createStudent.
  rewrite (bool_decide_eq_true_2 _ Ht). simpl.
  destruct n as [|c r]; [done|]. simpl.
  rewrite (proj2 (Nat.ltb_ge _ _) Hp). unfold bind at 1, get_students.
  rewrite (proj2 (filter_absent (fun y => name y = c :: r) _)) by done.
  simpl.
  rewrite (proj2 (filter_absent (fun y => uuid y = u) _)).
  2:{ intros y Hy E. apply (Habs y Hy). by rewrite E. }
  simpl. unfold bind, push_student, created.
  by destruct (scheduleWrite_returns
                 (with_db (Db (students (this_db s)
                               ++ [Student u (c :: r) (hash p 10) 0])
                              (transactions (this_db s))) s)) as [r0 ->].
Qed.

Lemma createStudent_taken
    (hash : jsstring -> Z -> jsstring) (draws : list jsstring)
    (n p : jsstring) (s : store) :
  trim n = n -> n <> [] -> (10 <= length p)%nat ->
  (exists y, y ∈ students (this_db s) /\ name y = n) ->
  createStudent hash draws n p s = (Throw (UserExists n), s).
Proof.
  intros Ht Hn Hp Htaken. unfold createStudent.
  rewrite (bool_decide_eq_true_2 _ Ht). simpl.
  destruct n as [|c r]; [done|]. simpl.
  rewrite (proj2 (Nat.ltb_ge _ _) Hp). unfold bind, get_students.
  by rewrite (proj2 (filter_present (fun y => name y = c :: r) _)).
Qed.

Lemma the_account_first (x : student) (l : list student) :
  absent l (IdStr (uuid x)) -> the_account (x :: l) (uuid x) 0.
Proof.
  intros H. split; [by exists x|].
  intros [|j] y Hj Ey; [done|]. exfalso. simpl in Hj.
  apply (H y); [by eapply list_elem_of_lookup_2|by rewrite Ey].
Qed.

Lemma the_account_second (x y : student) :
  uuid x <> uuid y -> the_account [x; y] (uuid y) 1.
Proof.
  intros H. split; [by exists y|].
  intros [|[|j]] w Hj Ew; simpl in Hj; [|done|done].
  injection Hj as <-. done.
Qed.

Lemma pushed_db (tx : transaction) (s : store) :
  this_db (pushed tx s)
  = Db (students (this_db s)) (transactions (this_db s) ++ [tx]).
Proof. done. Qed.

(** X18.  Run where [bank.json] is missing, with two distinct uuids drawn
    first, the seeding script completes: the constructor returns an empty
    database, Cortana ends with a cached balance of 15 and Zangetsu with 5,
    the log holds the deposit of 20 and the transfer of 5, and a write is
    pending. *)
Theorem seeding_script_seeds
    (hash : jsstring -> Z -> jsstring) (parse : jsstring -> option parsed)
    (u1 u2 : jsstring) (r1 r2 : list jsstring) (now1 now2 : Z) :
  u1 <> u2 ->
  exists s0 s',
    constructor parse Absent = Return s0
    /\ mock_bank_data_init hash (u1 :: r1) (u2 :: r2) now1 now2 s0
       = (Return tt, s')
    /\ students (this_db s')
       = [Student u1 (lit "Cortana") (hash (lit "GuiltySpark343") 10) 15;
          Student u2 (lit "Zangetsu") (hash (lit "GetsugaTensho") 10) 5]
    /\ transactions (this_db s')
       = [Transaction now1 (IdNum 0) (IdStr u1) (of_Z 20) [];
          Transaction now2 (IdStr u1) (IdStr u2) (of_Z 5) []]
    /\ is_Some (writeP s').
Proof.
  intros Hne. exists (boot (Db [] [])).
  cut (exists s',
    mock_bank_data_init hash (u1 :: r1) (u2 :: r2) now1 now2 (boot (Db [] []))
    = (Return tt, s')
    /\ students (this_db s')
       = [Student u1 (lit "Cortana") (hash (lit "GuiltySpark343") 10) 15;
          Student u2 (lit "Zangetsu") (hash (lit "GetsugaTensho") 10) 5]
    /\ transactions (this_db s')
       = [Transaction now1 (IdNum 0) (IdStr u1) (of_Z 20) [];
          Transaction now2 (IdStr u1) (IdStr u2) (of_Z 5) []]
    /\ is_Some (writeP s')).
  { intros (s' & H). exists s'. split; [reflexivity|exact H]. }
  unfold mock_bank_data_init.
  set (c := Student u1 (lit "Cortana") (hash (lit "GuiltySpark343") 10) 0).
  set (z := Student u2 (lit "Zangetsu") (hash (lit "GetsugaTensho") 10) 0).
  set (s0 := boot (Db [] [])).
  unfold bind at 1.
  rewrite (createStudent_first_draw hash u1 r1 _ _ s0);
    [|reflexivity|discriminate|simpl; lia
     |intros y Hy; inversion Hy|intros y Hy; inversion Hy].
  fold c. set (s1 := created c s0).
  assert (students (this_db s1) = [c]) as E1
    by (unfold s1; by rewrite created_db).
  unfold bind at 1.
  rewrite (createStudent_first_draw hash u2 r2 _ _ s1);
    [|reflexivity|discriminate|simpl; lia| |].
  2:{ rewrite E1. intros y Hy. each_account Hy. }
  2:{ rewrite E1. intros y Hy. each_account Hy. simpl. congruence. }
  fold z. set (s2 := created z s1).
  assert (this_db s2 = Db [c; z] []) as E2.
  { unfold s2. rewrite created_db, E1. unfold s1. by rewrite created_db. }
  assert (the_account (students (this_db s2)) u1 0) as A1.
  { rewrite E2. apply (the_account_first c). intros y Hy.
    each_account Hy. simpl. congruence. }
  assert (the_account (students (this_db s2)) u2 1) as A2.
  { rewrite E2. by apply (the_account_second c z). }
  unfold bind at 1.
  rewrite (createTransaction_deposit now1 u1 0 (of_Z 20) [] s2 A1);
    [|exists 20; split; [lia|reflexivity]].
  set (tx1 := Transaction now1 (IdNum 0) (IdStr u1) (of_Z 20) []).
  set (s3 := recalculated (IdStr u1) 0 (pushed tx1 s2)).
  assert (replay (IdStr u1) [tx1] = 20) as R1.
  { change [tx1] with ([] ++ [tx1]).
    rewrite (replay_received (IdStr u1) [] tx1 20);
      [done|done|done|reflexivity|lia]. }
  assert (this_db s3 = Db [set_balance 20 c; z] [tx1]) as E3.
  { unfold s3. rewrite recalculated_db, pushed_db, E2.
    cbn [students transactions app alter list_alter]. by rewrite R1. }
  unfold bind at 1.
  rewrite (createTransaction_transfer now2 u1 u2 0 1 (of_Z 5) 5 [] s3);
    [|unfold s3; by apply the_account_recalculated
     |unfold s3; by apply the_account_recalculated
     |done|reflexivity|lia|rewrite E3; simpl; rewrite R1; lia].
  set (tx2 := Transaction now2 (IdStr u1) (IdStr u2) (of_Z 5) []).
  assert (replay (IdStr u1) [tx1; tx2] = 15) as R2.
  { change [tx1; tx2] with ([tx1] ++ [tx2]).
    rewrite (replay_sent (IdStr u1) [tx1] tx2 5), R1;
      [done|done|simpl; congruence|reflexivity|lia]. }
  assert (replay (IdStr u2) [tx1; tx2] = 5) as R3.
  { change [tx1; tx2] with ([tx1] ++ [tx2]).
    rewrite (replay_received (IdStr u2) [tx1] tx2 5);
      [|done|simpl; congruence|reflexivity|lia].
    change [tx1] with ([] ++ [tx1]).
    rewrite (replay_bystander (IdStr u2) [] tx1);
      [done|done|simpl; congruence]. }
  unfold ret. eexists. split; [reflexivity|].
  rewrite !recalculated_db, pushed_db, recalculated_db, E3.
  cbn [students transactions app alter list_alter].
  fold tx2. rewrite R2, R3. repeat split. apply recalculated_pending.
Qed.

Lemma seeding_script_seeds_witness :
  exists s0 s',
    constructor (fun _ => None) Absent = Return s0
    /\ mock_bank_data_init Demo.hash [Demo.cortana_id] [Demo.zangetsu_id] 1 2 s0
       = (Return tt, s')
    /\ students (this_db s')
       = [Student Demo.cortana_id (lit "Cortana")
            (Demo.hash (lit "GuiltySpark343") 10) 15;
          Student Demo.zangetsu_id (lit "Zangetsu")
            (Demo.hash (lit "GetsugaTensho") 10) 5]
    /\ transactions (this_db s')
       = [Transaction 1 (IdNum 0) (IdStr Demo.cortana_id) (of_Z 20) [];
          Transaction 2 (IdStr Demo.cortana_id) (IdStr Demo.zangetsu_id)
            (of_Z 5) []]
    /\ is_Some (writeP s').
Proof.
  apply (seeding_script_seeds Demo.hash (fun _ => None)
           Demo.cortana_id Demo.zangetsu_id [] [] 1 2).
  discriminate.
Defined.

(** X19.  Run on a database that already holds an account named Cortana,
    the seeding script stops at its first call with the conflict error and
    changes nothing: it cannot be run twice. *)
Theorem seeding_twice_is_refused
    (hash : jsstring -> Z -> jsstring) (draws1 draws2 : list jsstring)
    (now1 now2 : Z) (s : store) :
  (exists y, y ∈ students (this_db s) /\ name y = lit "Cortana") ->
  mock_bank_data_init hash draws1 draws2 now1 now2 s
  = (Throw (UserExists (lit "Cortana")), s)
  /\ kind_of (UserExists (lit "Cortana")) = ConflictError.
Proof.
  intros H. split; [|done]. unfold mock_bank_data_init, bind at 1.
  rewrite (createStudent_taken hash draws1 _ _ s);
    [done|reflexivity|discriminate|simpl; lia|done].
Qed.

Lemma seeding_twice_is_refused_witness :
  mock_bank_data_init Demo.hash [lit "f00d"] [lit "beef"] 3 4 Demo.funded
  = (Throw (UserExists (lit "Cortana")), Demo.funded)
  /\ kind_of (UserExists (lit "Cortana")) = ConflictError.
Proof.
  apply (seeding_twice_is_refused Demo.hash [lit "f00d"] [lit "beef"] 3 4
           Demo.funded).
  exists (Demo.cortana 20). split; [left|reflexivity].
Defined.

(** * Looking for what is not there *)

(** X20.  Asked for a uuid or a name that no account carries, the getters
    return [null] and change nothing. *)
Theorem unknown_account_is_null (u : ident) (n : jsstring) (s : store) :
  absent (students (this_db s)) u ->
  (forall y, y ∈ students (this_db s) -> name y <> n) ->
  getStudentByUUID_copy u s = (Return None, s)
  /\ getStudentByName_copy n s = (Return None, s).
Proof.
  intros Hu Hn. split.
  - unfold getStudentByUUID_copy, bind.
    by rewrite (getStudentByUUID_absent _ _ Hu).
  - unfold getStudentByName_copy, getStudentByName, bind, get_students,
      filter_refs.
    rewrite refs_from_none; [done|].
    intros j y Hj. apply Hn. by eapply list_elem_of_lookup_2.
Qed.

Lemma unknown_account_is_null_witness :
  getStudentByUUID_copy (IdStr (lit "nobody")) Demo.funded
  = (Return None, Demo.funded)
  /\ getStudentByName_copy (lit "Arbiter") Demo.funded
     = (Return None, Demo.funded).
Proof.
  apply (unknown_account_is_null (IdStr (lit "nobody")) (lit "Arbiter")
           Demo.funded).
  - intros x Hx. simpl in Hx. each_account Hx.
  - intros x Hx. simpl in Hx. each_account Hx.
Defined.

(** * The books balance *)

Lemma total_cached_app (l1 l2 : list student) :
  total_cached (l1 ++ l2) = total_cached l1 + total_cached l2.
Proof. induction l1 as [|x l1 IH]; simpl; [done|]. rewrite IH. lia. Qed.

Lemma total_cached_set (b : Z) (i : nat) (l : list student) (x : student) :
  l !! i = Some x ->
  total_cached (alter (set_balance b) i l) = total_cached l - balance x + b.
Proof.
  revert i. induction l as [|y l IH]; intros i H; [done|].
  destruct i as [|i].
  - injection H as ->. simpl. lia.
  - change (alter (set_balance b) (S i) (y :: l))
      with (y :: alter (set_balance b) i l).
    simpl. rewrite (IH i H). lia.
Qed.

Lemma deposited_snoc (log : list transaction) (tx : transaction) :
  deposited (log ++ [tx])
  = deposited log
    + (if decide (from tx = IdNum 0) then toInt32 (amount tx) else 0).
Proof. induction log as [|y log IH]; simpl; [lia|]. rewrite IH. lia. Qed.

Lemma db_step_balanced (d d' : db) :
  db_step d d' -> cache_current d -> balanced d -> balanced d'.
Proof.
  intros H Hc Hb. unfold balanced in *.
  destruct H as [|x Hx Hnx Hbx|uu i Hacc|tx tu j Ef Et Ht (z & R & Hz)
                 |tx fu tu i j z Ef Et Hne Hf Ht Hz R Hbal]; simpl.
  - done.
  - rewrite total_cached_app. simpl. lia.
  - destruct (Hacc) as [(x & Hx & E) _].
    rewrite (total_cached_set _ _ _ _ Hx).
    rewrite (Hc x) by by eapply list_elem_of_lookup_2.
    rewrite E. lia.
  - destruct (Ht) as [(x & Hx & E) _].
    rewrite (total_cached_set _ _ _ _ Hx), deposited_snoc.
    rewrite decide_True by done.
    rewrite (Hc x) by by eapply list_elem_of_lookup_2.
    rewrite E, (replay_received (IdStr tu) _ tx z) by (done || congruence || lia).
    rewrite (toInt32_integer _ _ Hz) by lia. lia.
  - destruct (Hf) as [(x & Hx & E) _]. destruct (Ht) as [(y & Hy & E') _].
    assert (i <> j) as Hij.
    { intros ->. apply Hne. congruence. }
    rewrite (total_cached_set _ j _ y)
      by by rewrite list_lookup_alter_ne.
    rewrite (total_cached_set _ _ _ _ Hx), deposited_snoc.
    rewrite decide_False by (by rewrite Ef).
    rewrite (Hc x), (Hc y) by by eapply list_elem_of_lookup_2.
    rewrite E, E'.
    rewrite (replay_sent (IdStr fu) _ tx z) by (done || congruence || lia).
    rewrite (replay_received (IdStr tu) _ tx z) by (done || congruence || lia).
    lia.
Qed.

Section Books.
Variable hash : jsstring -> Z -> jsstring.
Variable cmp : jsstring -> jsstring -> bool.

(** X21.  Over a sound log with current caches, the cached balances keep
    adding up to the sum of the logged deposits: a transfer between
    accounts moves money and only a deposit adds any. *)
Theorem books_stay_balanced (l : list action) (s s' : store) :
  sound_log (this_db s) -> cache_current (this_db s) ->
  balanced (this_db s) ->
  run hash cmp l s = Some s' ->
  balanced (this_db s').
Proof.
  intros Hs Hc Hb Hrun.
  assert (sound_log (this_db s') /\ cache_current (this_db s')
          /\ balanced (this_db s')) as (_ & _ & H); [|done].
  apply (run_db_invariant hash cmp
           (fun d => sound_log d /\ cache_current d /\ balanced d) l s s');
    [|done|done].
  intros d d' Hd (H1 & H2 & H3).
  split; [by eapply db_step_sound_log|].
  split; [by eapply db_step_cache|by eapply db_step_balanced].
Qed.

End Books.

Lemma books_stay_balanced_witness :
  exists s',
    run Demo.hash Demo.compare Demo2.session (boot (Db [] [])) = Some s'
    /\ balanced (this_db s').
Proof.
  eexists. split; [vm_compute; reflexivity|].
  apply (books_stay_balanced Demo.hash Demo.compare Demo2.session
           (boot (Db [] []))).
  - constructor.
  - intros x Hx. inversion Hx.
  - reflexivity.
  - vm_compute. reflexivity.
Defined.

(** * Duplicates end the process *)

Lemma filter_two {A} (P : A -> Prop) {Pdec : ∀ x, Decision (P x)}
    (l : list A) (i j : nat) (x y : A) :
  i <> j -> l !! i = Some x -> l !! j = Some y -> P x -> P y ->
  (2 <= length (filter P l))%nat.
Proof.
  revert i j. induction l as [|a l IH]; intros i j Hij Hi Hj Px Py; [done|].
  rewrite filter_cons.
  assert (forall k z, l !! k = Some z -> P z -> (1 <= length (filter P l))%nat)
    as one.
  { intros k z Hk Pz.
    destruct (length (filter P l)) as [|n] eqn:E; [|lia]. exfalso.
    apply Nat.eqb_eq in E.
    eapply (proj1 (filter_absent P l) E); [|done].
    by eapply list_elem_of_lookup_2. }
  destruct i as [|i], j as [|j]; simpl in *; try done.
  - injection Hi as ->. rewrite decide_True by done. simpl.
    specialize (one j y Hj Py). lia.
  - injection Hj as ->. rewrite decide_True by done. simpl.
    specialize (one i x Hi Px). lia.
  - assert (2 <= length (filter P l))%nat by (eapply (IH i j); eauto).
    destruct (decide (P a)); simpl; lia.
Qed.

(** X22.  When two stored accounts carry the same uuid, asking for that
    uuid's account or balance ends the process with the code
    [ERRORS.DUPLICATE]; when two carry the same name, so does verifying
    that name with a non-blank password.  Nothing is changed first. *)
Theorem duplicates_end_the_process
    (cmp : jsstring -> jsstring -> bool) (s : store) (i j : nat)
    (x y : student) :
  i <> j ->
  students (this_db s) !! i = Some x ->
  students (this_db s) !! j = Some y ->
  (uuid x = uuid y ->
   forall recalc,
     getStudentByUUID_copy (IdStr (uuid x)) s = (Exit ERRORS.DUPLICATE, s)
     /\ getStudentBalance (IdStr (uuid x)) recalc s
        = (Exit ERRORS.DUPLICATE, s))
  /\ (name x = name y -> name x <> [] ->
      forall p, p <> [] ->
        verifyStudent cmp (name x) p s = (Exit ERRORS.DUPLICATE, s)).
Proof.
  intros Hij Hi Hj. split.
  - intros E recalc.
    assert (getStudentByUUID (IdStr (uuid x)) s = (Exit ERRORS.DUPLICATE, s))
      as Ex.
    { destruct (getStudentByUUID_cases s (IdStr (uuid x)))
        as [(uu & k & [= <-] & [_ U] & _)|[[Ha _]|[_ Ex]]]; [| |done].
      - exfalso. apply Hij. rewrite (U i x Hi eq_refl). symmetry.
        by apply (U j y Hj).
      - exfalso. apply (Ha x); [by eapply list_elem_of_lookup_2|done]. }
    split.
    + unfold getStudentByUUID_copy, bind. by rewrite Ex.
    + unfold getStudentBalance. rewrite decide_False by done.
      unfold bind. by rewrite Ex.
  - intros E Hn p Hp. unfold verifyStudent.
    destruct (name x) as [|c n] eqn:En; [done|].
    destruct p as [|d p]; [done|]. simpl.
    unfold bind, get_students.
    pose proof (filter_two (fun w => name w = c :: n) (students (this_db s))
                  i j x y Hij Hi Hj En ltac:(congruence)) as L.
    by destruct (Nat.ltb_spec 1 (length (filter (fun w => name w = c :: n)
                                           (students (this_db s))))); [|lia].
Qed.

Lemma duplicates_end_the_process_witness :
  let s := boot (Db [Demo.cortana 0; Demo.cortana 5] []) in
  (uuid (Demo.cortana 0) = uuid (Demo.cortana 5) ->
   forall recalc,
     getStudentByUUID_copy (IdStr (uuid (Demo.cortana 0))) s
     = (Exit ERRORS.DUPLICATE, s)
     /\ getStudentBalance (IdStr (uuid (Demo.cortana 0))) recalc s
        = (Exit ERRORS.DUPLICATE, s))
  /\ (name (Demo.cortana 0) = name (Demo.cortana 5) ->
      name (Demo.cortana 0) <> [] ->
      forall p, p <> [] ->
        verifyStudent Demo.compare (name (Demo.cortana 0)) p s
        = (Exit ERRORS.DUPLICATE, s)).
Proof.
  apply (duplicates_end_the_process Demo.compare
           (boot (Db [Demo.cortana 0; Demo.cortana 5] [])) 0%nat 1%nat
           (Demo.cortana 0) (Demo.cortana 5)).
  - discriminate.
  - reflexivity.
  - reflexivity.
Defined.

(** * Calls in flight together *)

Lemma awaits_returns {A B} (m : M A) (k : A -> started B) (s s' : store) (a : A) :
  m s = (Return a, s') -> awaits m k s = (Awaiting (k a), s').
Proof. intros E. unfold awaits. by rewrite E. Qed.

Lemma ends_with {A} (m : M A) (s s' : store) (r : outcome A) :
  m s = (r, s') -> ends m s = (Ended r, s').
Proof. intros E. unfold ends. by rewrite E. Qed.

Lemma in_flight_made {A B} (a : started A) (b : started B) (l : list turn)
    (s s1 s2 : store) (ca : async A) (cb : async B) :
  a s = (ca, s1) -> exited ca = false -> b s1 = (cb, s2) ->
  in_flight a b l s = turns l ca cb s2.
Proof.
  intros Ea E Eb. unfold in_flight. rewrite Ea. cbn [fst snd].
  by rewrite E, Eb.
Qed.

Lemma first_resumed {A B} (l : list turn) (k : started A) (ca : async A)
    (cb : async B) (s s' : store) :
  k s = (ca, s') -> exited cb = false ->
  turns (First :: l) (Awaiting k) cb s = turns l ca cb s'.
Proof.
  intros Ek E. destruct cb as [[| | |]|]; try done; simpl; by rewrite Ek.
Qed.

Lemma second_resumed {A B} (l : list turn) (k : started B) (ca : async A)
    (cb : async B) (s s' : store) :
  k s = (cb, s') -> exited ca = false ->
  turns (Second :: l) ca (Awaiting k) s = turns l ca cb s'.
Proof.
  intros Ek E. destruct ca as [[| | |]|]; try done; simpl; by rewrite Ek.
Qed.

Lemma turns_over {A B} (ca : async A) (cb : async B) (s : store) :
  exited ca = false -> exited cb = false ->
  turns [] ca cb s = Some (ca, cb, s).
Proof.
  intros E1 E2. by destruct ca as [[| | |]|], cb as [[| | |]|].
Qed.

Lemma getStudentBalance_suspends (u : ident) (s : store) :
  getStudentBalance u true s = bind (balance_begin u) (balance_end u) s.
Proof.
  unfold getStudentBalance, balance_begin. case_decide; [done|].
  unfold bind. by destruct (getStudentByUUID u s) as [[r| | |] s1].
Qed.

Lemma createStudent_suspends hash draws n p s :
  createStudent hash draws n p s
  = bind (createStudent_begin draws n p)
         (fun u => createStudent_end hash u n p) s.
Proof.
  unfold createStudent, createStudent_begin, createStudent_end.
  destruct (negb (bool_decide _)); [reflexivity|].
  destruct (length n =? 0)%nat; [reflexivity|].
  destruct (length p <? 10)%nat; [reflexivity|].
  unfold bind at 1 4 5. unfold get_students.
  destruct (negb _); [reflexivity|].
  by destruct (uuid_loop draws _).
Qed.

Lemma alone_awaits_ends {A B} (m : M A) (k : A -> M B) (s : store) :
  alone 1 (awaits m (fun a => ends (k a)) s).1
          (awaits m (fun a => ends (k a)) s).2
  = Some (bind m k s).
Proof.
  unfold awaits, bind, ends. destruct (m s) as [[a|e|c|] s1]; simpl; try done.
  by destruct (k a s1).
Qed.

(** Resumed at its [await] with nothing run in between, [createStudent]
    ends as the call taken in one piece does. *)
Lemma createStudent_alone hash draws n p s :
  alone 1 (createStudent_async hash draws n p s).1
          (createStudent_async hash draws n p s).2
  = Some (createStudent hash draws n p s).
Proof.
  rewrite createStudent_suspends. apply alone_awaits_ends.
Qed.

Lemma createStudent_begin_passes (u : jsstring) rest n p s :
  trim n = n -> n <> [] -> (10 <= length p)%nat ->
  (forall x, x ∈ students (this_db s) -> name x <> n) ->
  (forall x, x ∈ students (this_db s) -> uuid x <> u) ->
  createStudent_begin (u :: rest) n p s = (Return u, s).
Proof.
  intros Hn Hne Hp Hfree Hu. unfold createStudent_begin.
  rewrite bool_decide_eq_true_2 by done. cbn [negb].
  destruct n as [|c n']; [done|]. cbn [length Nat.eqb].
  destruct (Nat.ltb_spec (length p) 10); [lia|].
  unfold bind, get_students.
  rewrite (proj2 (filter_absent (fun x => name x = c :: n') _)) by done.
  cbn [negb uuid_loop].
  by rewrite (proj2 (filter_absent (fun x => uuid x = u) _)).
Qed.

Lemma createStudent_end_returns hash u n p s :
  createStudent_end hash u n p s
  = (Return u, created (Student u n (hash p 10) 0) s).
Proof.
  unfold createStudent_end, created, bind, push_student.
  by destruct (scheduleWrite_returns
                 (with_db (Db (students (this_db s) ++ [Student u n (hash p 10) 0])
                              (transactions (this_db s))) s)) as [r ->].
Qed.

Lemma created_students x s :
  students (this_db (created x s)) = students (this_db s) ++ [x].
Proof. unfold created. by rewrite scheduleWrite_db. Qed.

(** X23.  Two [createStudent] calls for the same name that are in flight
    together both succeed: each passes the name check before the other
    has pushed its account, because the push waits for [bcrypt.hash].
    The database then holds two accounts with that name, whereas the same
    two calls made one after the other end with the second one refused. *)
Theorem creations_in_flight_share_a_name
    (hash : jsstring -> Z -> jsstring)
    (u1 u2 : jsstring) (r1 r2 : list jsstring) (n p1 p2 : jsstring) (s : store) :
  trim n = n -> n <> [] -> (10 <= length p1)%nat -> (10 <= length p2)%nat ->
  (forall x, x ∈ students (this_db s) -> name x <> n) ->
  (forall x, x ∈ students (this_db s) -> uuid x <> u1) ->
  (forall x, x ∈ students (this_db s) -> uuid x <> u2) ->
  (exists s',
     in_flight (createStudent_async hash (u1 :: r1) n p1)
               (createStudent_async hash (u2 :: r2) n p2) [First; Second] s
     = Some (Ended (Return u1), Ended (Return u2), s')
     /\ students (this_db s')
        = students (this_db s)
          ++ [Student u1 n (hash p1 10) 0; Student u2 n (hash p2 10) 0]
     /\ ~ unique_accounts (this_db s'))
  /\ (createStudent hash (u2 :: r2) n p2
        (createStudent hash (u1 :: r1) n p1 s).2).1 = Throw (UserExists n).
Proof.
  intros Hn Hne Hp1 Hp2 Hfree Hu1 Hu2. split.
  - exists (created (Student u2 n (hash p2 10) 0)
              (created (Student u1 n (hash p1 10) 0) s)).
    split; [|split].
    + unfold createStudent_async.
      rewrite (in_flight_made _ _ _ s s s _ _
                 (awaits_returns _ _ s s u1
                    (createStudent_begin_passes u1 r1 n p1 s Hn Hne Hp1 Hfree Hu1))
                 eq_refl
                 (awaits_returns _ _ s s u2
                    (createStudent_begin_passes u2 r2 n p2 s Hn Hne Hp2 Hfree Hu2))).
      rewrite (first_resumed _ _ _ _ _ _
                 (ends_with _ _ _ _ (createStudent_end_returns _ _ _ _ _)))
        by reflexivity.
      rewrite (second_resumed _ _ _ _ _ _
                 (ends_with _ _ _ _ (createStudent_end_returns _ _ _ _ _)))
        by reflexivity.
      by rewrite turns_over.
    + rewrite !created_students. by rewrite <- app_assoc.
    + intros [_ H]. rewrite !created_students, <- app_assoc, fmap_app in H.
      apply NoDup_app in H as (_ & _ & H). simpl in H.
      apply NoDup_cons in H as [H _]. apply H. by left.
  - assert (createStudent hash (u1 :: r1) n p1 s
            = (Return u1, created (Student u1 n (hash p1 10) 0) s)) as ->.
    { rewrite createStudent_suspends. unfold bind.
      rewrite (createStudent_begin_passes u1 r1 n p1 s) by done.
      apply createStudent_end_returns. }
    cbn [snd]. unfold createStudent.
    rewrite bool_decide_eq_true_2 by done. cbn [negb].
    destruct n as [|c n']; [done|]. cbn [length Nat.eqb].
    destruct (Nat.ltb_spec (length p2) 10); [lia|].
    unfold bind, get_students.
    rewrite (proj2 (filter_present (fun x => name x = c :: n') _)); [done|].
    exists (Student u1 (c :: n') (hash p1 10) 0). split; [|done].
    rewrite created_students. apply elem_of_app. right. by left.
Qed.

Lemma balance_begin_found (s : store) (uu : jsstring) (i : nat) :
  the_account (students (this_db s)) uu i ->
  balance_begin (IdStr uu) s = (Return (inr (Some i)), s).
Proof.
  intros H. unfold balance_begin. rewrite decide_False by done.
  unfold bind. by rewrite (getStudentByUUID_found _ _ _ H).
Qed.

Lemma balance_end_found (s : store) (uu : jsstring) (i : nat) :
  the_account (students (this_db s)) uu i ->
  balance_end (IdStr uu) (inr (Some i)) s
  = (Return (replay (IdStr uu) (transactions (this_db s))),
     recalculated (IdStr uu) i s).
Proof.
  intros H. rewrite <- (getStudentBalance_recalc _ _ _ H).
  rewrite getStudentBalance_suspends. unfold bind at 1.
  by rewrite (balance_begin_found _ _ _ H).
Qed.

Lemma the_account_pushed (tx : transaction) (s : store) (uu : jsstring) (i : nat) :
  the_account (students (this_db s)) uu i ->
  the_account (students (this_db (pushed tx s))) uu i.
Proof. done. Qed.

Lemma pushed_log (tx : transaction) (s : store) :
  transactions (this_db (pushed tx s)) = transactions (this_db s) ++ [tx].
Proof. done. Qed.

(** The stages of a transfer between two stored accounts. *)
Section Stages.
Context (now : Z) (fu tu : jsstring) (i j : nat) (a : number) (z : Z)
  (m : jsstring).
Hypothesis Hne : fu <> tu.
Hypothesis Hz : is_integer a z.
Hypothesis R : 1 <= z <= 2 ^ 31 - 1.

Lemma transfer_starts (s : store) :
  the_account (students (this_db s)) fu i ->
  createTransaction_async now (IdStr fu) (IdStr tu) a m s
  = (Awaiting (transfer_sender now (IdStr fu) (IdStr tu) a m (inr (Some i))), s).
Proof.
  intros Hf. unfold createTransaction_async.
  destruct (accepted_checks a) as [E1 E2]; [by exists z|].
  rewrite decide_False by (intros [= E]; done).
  rewrite E1. cbn [negb]. rewrite E2, decide_False by done.
  apply awaits_returns. by apply balance_begin_found.
Qed.

Lemma transfer_sender_resumed (s : store) :
  the_account (students (this_db s)) fu i ->
  transfer_sender now (IdStr fu) (IdStr tu) a m (inr (Some i)) s
  = (Awaiting (transfer_compare now (IdStr fu) (IdStr tu) a m
                 (replay (IdStr fu) (transactions (this_db s)))),
     recalculated (IdStr fu) i s).
Proof. intros Hf. apply awaits_returns. by apply balance_end_found. Qed.

Lemma transfer_compare_passes (b : Z) (s : store) :
  z <= b ->
  the_account (students (this_db s)) tu j ->
  transfer_compare now (IdStr fu) (IdStr tu) a m b s
  = (Awaiting (transfer_commit now (IdStr fu) (IdStr tu) a m (Some j)), s).
Proof.
  intros Hb Ht. unfold transfer_compare. rewrite (lt_integer _ _ _ Hz).
  destruct (Z.ltb_spec b z); [lia|].
  apply awaits_returns. by apply getStudentByUUID_found.
Qed.

Lemma transfer_commit_pushes (s : store) :
  the_account (students (this_db s)) fu i ->
  the_account (students (this_db s)) tu j ->
  transfer_commit now (IdStr fu) (IdStr tu) a m (Some j) s
  = (Awaiting (transfer_balance_from (IdStr fu) (IdStr tu)
                 (inr (Some i), inr (Some j))),
     pushed (Transaction now (IdStr fu) (IdStr tu) a m) s).
Proof.
  intros Hf Ht. apply awaits_returns.
  unfold bind at 1. unfold ret at 1. unfold bind at 1.
  change (push_transaction ?tx s) with (Return tt, pushed tx s).
  cbv iota beta. unfold bind at 1.
  rewrite (balance_begin_found _ fu i) by by apply the_account_pushed.
  unfold bind at 1.
  by rewrite (balance_begin_found _ tu j) by by apply the_account_pushed.
Qed.

Lemma transfer_balance_from_resumed (s : store) :
  the_account (students (this_db s)) fu i ->
  transfer_balance_from (IdStr fu) (IdStr tu) (inr (Some i), inr (Some j)) s
  = (Awaiting (transfer_balance_to (IdStr tu) (inr (Some j))
                 (replay (IdStr fu) (transactions (this_db s)))),
     recalculated (IdStr fu) i s).
Proof. intros Hf. apply awaits_returns. by apply balance_end_found. Qed.

Lemma transfer_balance_to_resumed (bf : Z) (s : store) :
  the_account (students (this_db s)) tu j ->
  transfer_balance_to (IdStr tu) (inr (Some j)) bf s
  = (Awaiting (transfer_returns bf
                 (replay (IdStr tu) (transactions (this_db s)))),
     recalculated (IdStr tu) j s).
Proof. intros Ht. apply awaits_returns. by apply balance_end_found. Qed.

End Stages.

Lemma transfer_returns_resumed (bf bt : Z) (s : store) :
  transfer_returns bf bt s
  = (Ended (Return (Some (bf, bt))), (scheduleWrite s).2).
Proof.
  unfold transfer_returns, ends, bind, scheduleWrite. by destruct (writeP s).
Qed.

(** X24.  Two transfers from one account that are in flight together both
    go through when each amount alone is covered by the sender's balance:
    both balance checks run before either transfer is pushed.  Both calls
    return the same pair of balances, the log holds both transfers, and
    when the two amounts together exceed the balance the sender ends up
    overdrawn. *)
Theorem transfers_in_flight_overdraw
    (n1 n2 : Z) (fu tu : jsstring) (i j : nat) (a1 a2 : number) (z1 z2 : Z)
    (m1 m2 : jsstring) (s : store) :
  the_account (students (this_db s)) fu i ->
  the_account (students (this_db s)) tu j ->
  fu <> tu ->
  is_integer a1 z1 -> 1 <= z1 <= 2 ^ 31 - 1 ->
  is_integer a2 z2 -> 1 <= z2 <= 2 ^ 31 - 1 ->
  z1 <= replay (IdStr fu) (transactions (this_db s)) ->
  z2 <= replay (IdStr fu) (transactions (this_db s)) ->
  exists s',
    in_flight (createTransaction_async n1 (IdStr fu) (IdStr tu) a1 m1)
              (createTransaction_async n2 (IdStr fu) (IdStr tu) a2 m2)
              two_transfers s
    = Some (Ended (Return (Some
              (replay (IdStr fu) (transactions (this_db s)) - z1 - z2,
               replay (IdStr tu) (transactions (this_db s)) + z1 + z2))),
            Ended (Return (Some
              (replay (IdStr fu) (transactions (this_db s)) - z1 - z2,
               replay (IdStr tu) (transactions (this_db s)) + z1 + z2))),
            s')
    /\ transactions (this_db s')
       = transactions (this_db s)
         ++ [Transaction n1 (IdStr fu) (IdStr tu) a1 m1;
             Transaction n2 (IdStr fu) (IdStr tu) a2 m2]
    /\ replay (IdStr fu) (transactions (this_db s'))
       = replay (IdStr fu) (transactions (this_db s)) - z1 - z2
    /\ (replay (IdStr fu) (transactions (this_db s)) < z1 + z2 ->
        ~ solvent (this_db s')).
Proof.
  intros Hf Ht Hne Hz1 R1 Hz2 R2 Hb1 Hb2.
  pose (F := IdStr fu). pose (T := IdStr tu).
  pose (L := transactions (this_db s)).
  pose (tx1 := Transaction n1 F T a1 m1). pose (tx2 := Transaction n2 F T a2 m2).
  assert (replay F (L ++ [tx1; tx2]) = replay F L - z1 - z2) as RF.
  { change (L ++ [tx1; tx2]) with (L ++ [tx1] ++ [tx2]). rewrite app_assoc.
    rewrite (replay_sent F _ tx2 z2), (replay_sent F _ tx1 z1);
      try done; try lia; by intros [= E]. }
  assert (replay T (L ++ [tx1; tx2]) = replay T L + z1 + z2) as RT.
  { change (L ++ [tx1; tx2]) with (L ++ [tx1] ++ [tx2]). rewrite app_assoc.
    rewrite (replay_received T _ tx2 z2), (replay_received T _ tx1 z1);
      try done; try lia; by intros [= E]. }
  pose (s2 := recalculated F i s).
  pose (s4 := pushed tx2 (pushed tx1 s2)).
  pose (s5 := recalculated F i s4).
  pose (s6 := recalculated T j s5).
  pose (s7 := recalculated F i s6).
  pose (s8 := recalculated T j s7).
  assert (the_account (students (this_db s2)) fu i) as Hf2
    by by apply the_account_recalculated.
  assert (the_account (students (this_db s2)) tu j) as Ht2
    by by apply the_account_recalculated.
  assert (transactions (this_db s4) = L ++ [tx1; tx2]) as L4.
  { unfold s4, s2. rewrite !pushed_log, recalculated_log.
    by rewrite <- app_assoc. }
  assert (transactions (this_db s8) = L ++ [tx1; tx2]) as L8.
  { unfold s8, s7, s6, s5. by rewrite !recalculated_log. }
  assert (transfer_sender n2 F T a2 m2 (inr (Some i)) s2
          = (Awaiting (transfer_compare n2 F T a2 m2 (replay F L)), s2)) as B2.
  { unfold F, T. rewrite (transfer_sender_resumed n2 fu tu i a2 m2 s2 Hf2).
    unfold s2, F. by rewrite recalculated_twice, recalculated_log. }
  exists (scheduleWrite (scheduleWrite s8).2).2.
  split; [|split; [|split]].
  - (* both calls are made: each looks the sender up *)
    rewrite (in_flight_made _ _ _ s s s _ _
               (transfer_starts n1 fu tu i a1 z1 m1 Hne Hz1 R1 s Hf) eq_refl
               (transfer_starts n2 fu tu i a2 z2 m2 Hne Hz2 R2 s Hf)).
    unfold two_transfers.
    (* both recalculate the sender's balance *)
    rewrite (first_resumed _ _ _ _ _ _
               (transfer_sender_resumed n1 fu tu i a1 m1 s Hf)) by reflexivity.
    rewrite (second_resumed _ _ _ _ _ _ B2) by reflexivity.
    (* both compare it with their amount and look the receiver up *)
    rewrite (first_resumed _ _ _ _ _ _
               (transfer_compare_passes n1 fu tu j a1 z1 m1 Hz1 _ s2 Hb1 Ht2)) by reflexivity.
    rewrite (second_resumed _ _ _ _ _ _
               (transfer_compare_passes n2 fu tu j a2 z2 m2 Hz2 _ s2 Hb2 Ht2)) by reflexivity.
    (* both push their transfer *)
    rewrite (first_resumed _ _ _ _ _ _
               (transfer_commit_pushes n1 fu tu i j a1 m1 s2 Hf2 Ht2)) by reflexivity.
    rewrite (second_resumed _ _ _ _ _ _
               (transfer_commit_pushes n2 fu tu i j a2 m2 (pushed tx1 s2)
                  Hf2 Ht2)) by reflexivity.
    (* the balances are recalculated over a log that holds both *)
    rewrite (first_resumed _ _ _ _ _ _
               (transfer_balance_from_resumed fu tu i j s4 Hf2)) by reflexivity.
    rewrite (first_resumed _ _ _ _ _ _
               (transfer_balance_to_resumed tu j _ s5
                  ltac:(by apply the_account_recalculated))) by reflexivity.
    rewrite (second_resumed _ _ _ _ _ _
               (transfer_balance_from_resumed fu tu i j s6
                  ltac:(by do 2 apply the_account_recalculated))) by reflexivity.
    rewrite (second_resumed _ _ _ _ _ _
               (transfer_balance_to_resumed tu j _ s7
                  ltac:(by do 3 apply the_account_recalculated))) by reflexivity.
    (* both return *)
    rewrite (first_resumed _ _ _ _ _ _ (transfer_returns_resumed _ _ s8)) by reflexivity.
    rewrite (second_resumed _ _ _ _ _ _
               (transfer_returns_resumed _ _ (scheduleWrite s8).2)) by reflexivity.
    rewrite turns_over by done.
    unfold s7, s6, s5. rewrite !recalculated_log.
    fold F T L. by rewrite L4, RF, RT.
  - rewrite !scheduleWrite_db. by rewrite L8.
  - rewrite !scheduleWrite_db, L8. exact RF.
  - intros Hlow Hs. specialize (Hs F ltac:(done)).
    rewrite !scheduleWrite_db, L8 in Hs.
    change (0 <= replay F (L ++ [tx1; tx2])) in Hs. rewrite RF in Hs.
    unfold F, L in Hs. lia.
Qed.

(** ** A call resumed with nothing in between *)

Lemma alone_ends {A} (n : nat) (m : M A) (s : store) :
  alone n (ends m s).1 (ends m s).2 = Some (m s).
Proof. unfold ends. destruct n; simpl; by destruct (m s). Qed.

Lemma alone_awaits {A B} (n : nat) (m : M A) (k : A -> started B)
    (K : A -> M B) (s : store) :
  (forall a s', alone n (k a s').1 (k a s').2 = Some (K a s')) ->
  alone (S n) (awaits m k s).1 (awaits m k s).2 = Some (bind m K s).
Proof.
  intros H. unfold awaits, bind.
  destruct (m s) as [[a|e|c|] s1]; simpl; done.
Qed.

(** The rest of [createTransaction] from line 149 on, in the order in
    which a call that is alone runs it. *)
Lemma transfer_receiver_alone (n : nat) now f t a m s :
  alone (4 + n) (transfer_receiver now f t a m s).1
                (transfer_receiver now f t a m s).2
  = Some ((r <- getStudentByUUID t ;;
           x <- ((if r is None then nullStudentError t else ret tt) ;;;
                 push_transaction (Transaction now f t a m) ;;;
                 xf <- balance_begin f ;;
                 xt <- balance_begin t ;;
                 ret (xf, xt)) ;;
           bf <- balance_end f x.1 ;;
           bt <- balance_end t x.2 ;;
           scheduleWrite ;;; ret (Some (bf, bt))) s).
Proof.
  apply alone_awaits. intros r s1.
  apply alone_awaits. intros x s2.
  apply alone_awaits. intros bf s3.
  apply alone_awaits. intros bt s4.
  apply alone_ends.
Qed.

Lemma balance_begin_returns (u : ident) (s : store) :
  NoDup (uuid <$> students (this_db s)) ->
  exists x, balance_begin u s = (Return x, s).
Proof.
  intros Hd. unfold balance_begin. case_decide; [by eexists|].
  unfold bind.
  destruct (getStudentByUUID_cases s u)
    as [(uu & i & _ & _ & ->)|[[_ ->]|[Hdup _]]]; by eauto.
Qed.

Lemma getStudentByUUID_pushed (u : ident) (tx : transaction) (s : store) :
  getStudentByUUID u (pushed tx s) = ((getStudentByUUID u s).1, pushed tx s).
Proof.
  unfold getStudentByUUID, bind, get_students, getStudentCheck.
  rewrite pushed_db. cbn [students]. by destruct (1 <? length _)%nat.
Qed.

Lemma balance_begin_recalculated (u v : ident) (i : nat) (s : store) :
  balance_begin u (recalculated v i s)
  = ((balance_begin u s).1, recalculated v i s).
Proof.
  unfold balance_begin. case_decide; [done|]. unfold bind.
  rewrite getStudentByUUID_recalculated.
  by destruct (getStudentByUUID u s) as [[r| | |] s1].
Qed.

Lemma balance_end_cases (u : ident) (x : Z + option nat) (s : store) :
  (exists e, balance_end u x s = (Throw e, s))
  \/ (exists b, balance_end u x s = (Return b, s))
  \/ (exists b i, balance_end u x s = (Return b, recalculated u i s)).
Proof.
  destruct x as [b|[i|]].
  - right; left. by exists b.
  - right; right. unfold balance_end, getStudentBalance_resumed, recalculated.
    unfold bind, get_transactions, write_balance, get_students, ret.
    destruct (scheduleWrite_returns (with_db
      (Db (alter (set_balance (replay u (transactions (this_db s)))) i
          (students (this_db s))) (transactions (this_db s))) s)) as [r ->].
    by eexists _, i.
  - left. by eexists.
Qed.

Lemma NoDup_recalculated (u : ident) (i : nat) (s : store) :
  NoDup (uuid <$> students (this_db s)) ->
  NoDup (uuid <$> students (this_db (recalculated u i s))).
Proof. by rewrite uuids_recalculated. Qed.

Lemma bind_returned {A B} (m : M A) (k : A -> M B) (s s' : store) (a : A) :
  m s = (Return a, s') -> bind m k s = k a s'.
Proof. intros E. unfold bind. by rewrite E. Qed.

Lemma bind_thrown {A B} (m : M A) (k : A -> M B) (s s' : store) (e : error) :
  m s = (Throw e, s') -> bind m k s = (Throw e, s').
Proof. intros E. unfold bind. by rewrite E. Qed.

Lemma bind_same {A B} (m m' : M A) (k : A -> M B) (s : store) :
  m s = m' s -> bind m k s = bind m' k s.
Proof. intros E. unfold bind. by rewrite E. Qed.

Lemma bind_assoc {A B C} (m : M A) (k : A -> M B) (k' : B -> M C) (s : store) :
  bind (bind m k) k' s = bind m (fun a => bind (k a) k') s.
Proof. unfold bind. by destruct (m s) as [[a| | |] s1]. Qed.

Lemma getStudentBalance_begun (u : ident) (x : Z + option nat) (s : store) :
  balance_begin u s = (Return x, s) ->
  getStudentBalance u true s = balance_end u x s.
Proof.
  intros E. rewrite getStudentBalance_suspends. by apply bind_returned.
Qed.

(** When no two accounts share a uuid, it makes no difference whether the
    two [getStudentBalance] calls of [Promise.all] run one after the other
    or both look their account up before either recalculates. *)
Lemma balances_alone {A} (f t : ident) (K : Z -> Z -> M A) (s : store) :
  NoDup (uuid <$> students (this_db s)) ->
  (x <- (xf <- balance_begin f ;; xt <- balance_begin t ;; ret (xf, xt)) ;;
   bf <- balance_end f x.1 ;;
   bt <- balance_end t x.2 ;;
   K bf bt) s
  = (bf <- getStudentBalance f true ;;
     bt <- getStudentBalance t true ;;
     K bf bt) s.
Proof.
  intros Hd.
  destruct (balance_begin_returns f s Hd) as [xf Ef].
  destruct (balance_begin_returns t s Hd) as [xt Et].
  rewrite bind_assoc, (bind_returned _ _ _ _ _ Ef).
  rewrite bind_assoc, (bind_returned _ _ _ _ _ Et).
  unfold bind at 1. unfold ret at 1. cbn [fst snd].
  rewrite (bind_same (getStudentBalance f true) (balance_end f xf))
    by by apply getStudentBalance_begun.
  destruct (balance_end_cases f xf s) as [[e E]|[[b E]|(b & i & E)]].
  - by rewrite !(bind_thrown _ _ _ _ _ E).
  - rewrite !(bind_returned _ _ _ _ _ E). apply bind_same.
    symmetry. by apply getStudentBalance_begun.
  - rewrite !(bind_returned _ _ _ _ _ E). apply bind_same.
    symmetry. apply getStudentBalance_begun.
    by rewrite balance_begin_recalculated, Et.
Qed.

(** Lines 149 to 154 run alone are lines 149 to 154 of the call taken in
    one piece. *)
Lemma transfer_receiver_whole now f t a m s :
  NoDup (uuid <$> students (this_db s)) ->
  (r <- getStudentByUUID t ;;
   x <- ((if r is None then nullStudentError t else ret tt) ;;;
         push_transaction (Transaction now f t a m) ;;;
         xf <- balance_begin f ;;
         xt <- balance_begin t ;;
         ret (xf, xt)) ;;
   bf <- balance_end f x.1 ;;
   bt <- balance_end t x.2 ;;
   scheduleWrite ;;; ret (Some (bf, bt))) s
  = (r <- getStudentByUUID t ;;
     (if r is None then nullStudentError t else ret tt) ;;;
     push_transaction (Transaction now f t a m) ;;;
     bf <- getStudentBalance f true ;;
     bt <- getStudentBalance t true ;;
     scheduleWrite ;;;
     ret (Some (bf, bt))) s.
Proof.
  intros Hd.
  destruct (getStudentByUUID_cases s t)
    as [(uu & j & _ & _ & E)|[[_ E]|[Hdup _]]]; [| |done].
  - rewrite !(bind_returned _ _ _ _ _ E).
    rewrite bind_assoc, !(bind_returned (ret tt) _ s s tt eq_refl).
    rewrite bind_assoc.
    rewrite !(bind_returned (push_transaction _) _ s _ tt eq_refl).
    apply (balances_alone f t
             (fun bf bt => scheduleWrite ;;; ret (Some (bf, bt)))).
    done.
  - rewrite !(bind_returned _ _ _ _ _ E).
    rewrite bind_assoc.
    by rewrite !(bind_thrown (nullStudentError t) _ s s (StudentMissing t) eq_refl).
Qed.

(** Resumed at each of its [await]s with nothing run in between,
    [createTransaction] ends as the call taken in one piece does, when no
    two accounts share a uuid. *)
Lemma createTransaction_alone now f t a m s :
  NoDup (uuid <$> students (this_db s)) ->
  alone 6 (createTransaction_async now f t a m s).1
          (createTransaction_async now f t a m s).2
  = Some (createTransaction now f t a m s).
Proof.
  intros Hd. unfold createTransaction_async, createTransaction.
  destruct (decide (f = t)); [apply alone_ends|].
  destruct (negb _); [apply alone_ends|].
  destruct (le a (of_Z 0)); [apply alone_ends|].
  destruct (decide (f = IdNum 0)) as [->|Hf].
  - rewrite (transfer_receiver_alone 2).
    rewrite (bind_returned (ret false) _ s s false eq_refl).
    by rewrite transfer_receiver_whole.
  - erewrite (alone_awaits 5 (balance_begin f)).
    2:{ intros x s1. apply (alone_awaits 4). intros b s2.
        unfold transfer_compare.
        instantiate (1 := fun b => if lt (of_Z b) a then ret None else _).
        cbv beta.
        destruct (lt (of_Z b) a); [apply alone_ends|].
        apply (transfer_receiver_alone 0). }
    f_equal. rewrite bind_assoc.
    destruct (balance_begin_returns f s Hd) as [xf Ef].
    rewrite (bind_returned _ _ _ _ _ Ef).
    rewrite (bind_same (getStudentBalance f true) (balance_end f xf))
      by by apply getStudentBalance_begun.
    destruct (balance_end_cases f xf s) as [[e E]|[[b E]|(b & i & E)]].
    + by rewrite !(bind_thrown _ _ _ _ _ E).
    + rewrite !(bind_returned _ _ _ _ _ E).
      rewrite (bind_returned (ret _) _ s s _ eq_refl).
      destruct (lt (of_Z b) a); [done|].
      by apply transfer_receiver_whole.
    + rewrite !(bind_returned _ _ _ _ _ E).
      rewrite (bind_returned (ret _) _ _ _ _ eq_refl).
      destruct (lt (of_Z b) a); [done|].
      apply transfer_receiver_whole. by apply NoDup_recalculated.
Qed.

(** The statements applied to the demo store: two accounts named Master
    Chief are opened together, and Cortana, who holds 20, sends 15 to
    Zangetsu twice. *)

Lemma creations_in_flight_share_a_name_witness :
  exists s',
    in_flight
      (createStudent_async Demo.hash [lit "f00d"] (lit "Master Chief")
         (lit "Spartan-117"))
      (createStudent_async Demo.hash [lit "beef"] (lit "Master Chief")
         (lit "Spartan-118"))
      [First; Second] Demo.funded
    = Some (Ended (Return (lit "f00d")), Ended (Return (lit "beef")), s')
    /\ students (this_db s')
       = students (this_db Demo.funded)
         ++ [Student (lit "f00d") (lit "Master Chief")
               (Demo.hash (lit "Spartan-117") 10) 0;
             Student (lit "beef") (lit "Master Chief")
               (Demo.hash (lit "Spartan-118") 10) 0]
    /\ ~ unique_accounts (this_db s').
Proof.
  apply (creations_in_flight_share_a_name Demo.hash (lit "f00d") (lit "beef")
           [] [] (lit "Master Chief") (lit "Spartan-117") (lit "Spartan-118")
           Demo.funded).
  - reflexivity.
  - discriminate.
  - simpl. lia.
  - simpl. lia.
  - intros x Hx. simpl in Hx. each_account Hx.
  - intros x Hx. simpl in Hx. each_account Hx.
  - intros x Hx. simpl in Hx. each_account Hx.
Defined.

Lemma transfers_in_flight_overdraw_witness :
  exists s',
    in_flight
      (createTransaction_async 7 (IdStr Demo.cortana_id)
         (IdStr Demo.zangetsu_id) (of_Z 15) [])
      (createTransaction_async 8 (IdStr Demo.cortana_id)
         (IdStr Demo.zangetsu_id) (of_Z 15) [])
      two_transfers Demo.funded
    = Some (Ended (Return (Some (20 - 15 - 15, 0 + 15 + 15))),
            Ended (Return (Some (20 - 15 - 15, 0 + 15 + 15))), s')
    /\ replay (IdStr Demo.cortana_id) (transactions (this_db s')) = 20 - 15 - 15
    /\ ~ solvent (this_db s').
Proof.
  destruct (transfers_in_flight_overdraw 7 8 Demo.cortana_id Demo.zangetsu_id
              0%nat 1%nat (of_Z 15) (of_Z 15) 15 15 [] [] Demo.funded)
    as (s' & H1 & _ & H3 & H4).
  - apply the_account_of_refs. reflexivity.
  - apply the_account_of_refs. reflexivity.
  - discriminate.
  - reflexivity.
  - lia.
  - reflexivity.
  - lia.
  - vm_compute. discriminate.
  - vm_compute. discriminate.
  - exists s'. split; [exact H1|]. split; [exact H3|].
    apply H4. vm_compute. reflexivity.
Defined.
